(** * Natural-language command to SQL: lexer, parser and SQL generator

    A shallow embedding of [lexer.py], [syntax_parser.py] and [pipeline.py].

    Python text is modelled by [string] (a sequence of 8-bit characters); the
    character predicates below classify the 7-bit ASCII range the way Python's
    [str] methods do, and answer [false] (an unclassified symbol) above it.
    Python exceptions are the constructors of [exn]; a computation that may
    raise returns an [outcome]. *)

From Stdlib Require Import Strings.String Strings.Ascii Lists.List.
From Stdlib Require Import ZArith NArith Arith Bool Lia.
From Stdlib Require Import Numbers.DecimalString.
Import ListNotations.

Open Scope string_scope.
Open Scope bool_scope.

(* ================================================================== *)
(** ** Python's string primitives *)
(* ================================================================== *)

Module Py.

(** Code point of a character. *)
Definition ord (c : ascii) : nat := nat_of_ascii c.

Definition between (lo hi : nat) (c : ascii) : bool :=
  (lo <=? ord c)%nat && (ord c <=? hi)%nat.

(** The double-quote character, code 34. *)
Definition double_quote : ascii := Eval cbv in ascii_of_nat 34.

(** [c.isspace()]: TAB, LF, VT, FF, CR, FS, GS, RS, US and the space. *)
Definition isspace (c : ascii) : bool :=
  between 9 13 c || between 28 32 c.

(** [c.isdigit()] *)
Definition isdigit (c : ascii) : bool := between 48 57 c.

Definition isupper (c : ascii) : bool := between 65 90 c.

(** [c.isalpha()] *)
Definition isalpha (c : ascii) : bool := isupper c || between 97 122 c.

(** [c.isalnum()] *)
Definition isalnum (c : ascii) : bool := isalpha c || isdigit c.

Definition lower_char (c : ascii) : ascii :=
  if isupper c then ascii_of_nat (ord c + 32) else c.

(** [s.lower()] *)
Fixpoint lower (s : string) : string :=
  match s with
  | EmptyString => EmptyString
  | String c s' => String (lower_char c) (lower s')
  end.

(** [s.lstrip()] *)
Fixpoint lstrip (s : string) : string :=
  match s with
  | EmptyString => EmptyString
  | String c s' => if isspace c then lstrip s' else s
  end.

(** [s.rstrip()] *)
Fixpoint rstrip (s : string) : string :=
  match s with
  | EmptyString => EmptyString
  | String c s' =>
      match rstrip s' with
      | EmptyString => if isspace c then EmptyString else String c EmptyString
      | r => String c r
      end
  end.

(** [s.strip()] *)
Definition strip (s : string) : string := rstrip (lstrip s).

(** [s.startswith(p)] *)
Definition startswith (p s : string) : bool := String.prefix p s.

(** [c in s] for a single character [c]. *)
Fixpoint contains (c : ascii) (s : string) : bool :=
  match s with
  | EmptyString => false
  | String d s' => Ascii.eqb c d || contains c s'
  end.

(** [old in s]: some suffix of [s] starts with [old]. *)
Fixpoint occurs (old s : string) : bool :=
  startswith old s ||
  match s with
  | EmptyString => false
  | String _ s' => occurs old s'
  end.

(** [s.replace(old, new)] for a non-empty [old] (every operator phrase is):
    the text is scanned from the left; at an occurrence of [old] the
    replacement is emitted and the occurrence skipped, so that the
    occurrences replaced do not overlap.  [skip] counts the characters of the
    current occurrence still to be dropped. *)
Fixpoint replace_from (old new : string) (skip : nat) (s : string) : string :=
  match s with
  | EmptyString => EmptyString
  | String c s' =>
      match skip with
      | S k => replace_from old new k s'
      | O =>
          if startswith old s
          then new ++ replace_from old new (String.length old - 1) s'
          else String c (replace_from old new 0 s')
      end
  end.

Definition replace (old new s : string) : string := replace_from old new 0 s.

(** [re.sub(r'\s+', ' ', s)]: every maximal run of whitespace becomes one
    space.  [in_run] tells that the previous character was whitespace. *)
Fixpoint collapse_from (in_run : bool) (s : string) : string :=
  match s with
  | EmptyString => EmptyString
  | String c s' =>
      if isspace c
      then if in_run then collapse_from true s'
           else String " " (collapse_from true s')
      else String c (collapse_from false s')
  end.

Definition collapse_whitespace (s : string) : string := collapse_from false s.

(** The longest prefix of [s] whose characters satisfy [p], and the rest:
    the shape of every [while self._current_char() and p(...)] loop. *)
Fixpoint span (p : ascii -> bool) (s : string) : string * string :=
  match s with
  | EmptyString => (EmptyString, EmptyString)
  | String c s' =>
      if p c then let (a, b) := span p s' in (String c a, b)
      else (EmptyString, s)
  end.

(** [s.isdigit()]: non-empty and only digits. *)
Fixpoint all_digits (s : string) : bool :=
  match s with
  | EmptyString => true
  | String c s' => isdigit c && all_digits s'
  end.

Definition str_isdigit (s : string) : bool :=
  match s with
  | EmptyString => false
  | _ => all_digits s
  end.

(** [sep.join(l)] *)
Fixpoint join (sep : string) (l : list string) : string :=
  match l with
  | [] => EmptyString
  | [x] => x
  | x :: l' => x ++ sep ++ join sep l'
  end.

(** *** Numbers *)

(** [str(n)] for an integer.  (Beyond the interpreter's cap on digits, see
    [int_max_str_digits], [str] raises ValueError; this is not modelled: the
    integers of parsed nodes come from [int] and are within the cap.) *)
Definition str_int (z : Z) : string := NilEmpty.string_of_int (Z.to_int z).

Definition digit_value (c : ascii) : N := N.of_nat (ord c - 48).

(** Digits with single underscores between them (Python's [digitpart]).
    [after_digit] tells that the previous character was a digit. *)
Fixpoint digitpart (acc : N) (after_digit : bool) (s : string) : option N :=
  match s with
  | EmptyString => if after_digit then Some acc else None
  | String c s' =>
      if isdigit c then digitpart (10 * acc + digit_value c) true s'
      else if Ascii.eqb c "_"
           then if after_digit then digitpart acc false s' else None
           else None
  end.

(** An optional sign in front of a literal: whether it is [-], and the rest. *)
Definition split_sign (s : string) : bool * string :=
  match s with
  | EmptyString => (false, EmptyString)
  | String c r =>
      if Ascii.eqb c "+" then (false, r)
      else if Ascii.eqb c "-" then (true, r)
      else (false, s)
  end.

(** The interpreter's cap on the digits of a decimal literal that [int]
    converts ([sys.get_int_max_str_digits()], 4300 by default). *)
Definition int_max_str_digits : nat := 4300.

(** The digits of a literal; its underscores do not count. *)
Fixpoint count_digits (s : string) : nat :=
  match s with
  | EmptyString => 0
  | String c s' => if isdigit c then S (count_digits s') else count_digits s'
  end.

(** [int(s)]: surrounding whitespace, an optional sign, a [digitpart] of at
    most [int_max_str_digits] digits.  [None] is [ValueError]. *)
Definition int (s : string) : option Z :=
  let (neg, digits) := split_sign (strip s) in
  match digitpart 0 false digits with
  | Some n =>
      if (int_max_str_digits <? count_digits digits)%nat then None
      else Some (if neg then Z.opp (Z.of_N n) else Z.of_N n)
  | None => None
  end.

(** A Python float, kept as the decimal its literal denotes (the rounding to
    binary64 is not modelled). *)
Inductive float : Type :=
| FNan
| FInf (neg : bool)
| FDec (neg : bool) (mant : N) (exp10 : Z).

(** Underscores of a float literal must stand between two digits; they are
    removed before the literal is read. *)
Fixpoint drop_underscores (prev : ascii) (s : string) : option string :=
  match s with
  | EmptyString => if Ascii.eqb prev "_" then None else Some EmptyString
  | String c s' =>
      if Ascii.eqb c "_"
      then if isdigit prev then drop_underscores c s' else None
      else if Ascii.eqb prev "_" && negb (isdigit c) then None
           else option_map (String c) (drop_underscores c s')
  end.

(** Leading digits of [s]: their value on top of [acc], their number, the rest. *)
Fixpoint read_digits (acc : N) (s : string) : N * nat * string :=
  match s with
  | EmptyString => (acc, 0%nat, EmptyString)
  | String c s' =>
      if isdigit c
      then let '(v, n, r) := read_digits (10 * acc + digit_value c) s' in
           (v, S n, r)
      else (acc, 0%nat, s)
  end.

(** The exponent part: empty, or [e], an optional sign and at least one digit,
    up to the end of the literal. *)
Definition read_exponent (s : string) : option Z :=
  match s with
  | EmptyString => Some 0%Z
  | String c r =>
      if Ascii.eqb (lower_char c) "e" then
        let (neg, ds) := split_sign r in
        match read_digits 0 ds with
        | (v, S _, EmptyString) =>
            Some (if neg then Z.opp (Z.of_N v) else Z.of_N v)
        | _ => None
        end
      else None
  end.

Definition read_unsigned_float (neg : bool) (s : string) : option float :=
  let l := lower s in
  if String.eqb l "inf" || String.eqb l "infinity" then Some (FInf neg)
  else if String.eqb l "nan" then Some FNan
  else
    let '(ip, n1, r1) := read_digits 0 s in
    let '(m, n2, r2) :=
      match r1 with
      | String "." f => read_digits ip f
      | _ => (ip, 0%nat, r1)
      end in
    match (n1 + n2)%nat with
    | O => None
    | S _ =>
        match read_exponent r2 with
        | Some e => Some (FDec neg m (e - Z.of_nat n2))
        | None => None
        end
    end.

(** [float(s)]: [None] is [ValueError]. *)
Definition to_float (s : string) : option float :=
  match drop_underscores " " (strip s) with
  | None => None
  | Some t =>
      let (neg, body) := split_sign t in
      read_unsigned_float neg body
  end.

Fixpoint zeros (n : nat) : string :=
  match n with
  | O => EmptyString
  | S k => String "0" (zeros k)
  end.

(** Without the trailing zeros of [s]. *)
Fixpoint drop_trailing_zeros (s : string) : string :=
  match s with
  | EmptyString => EmptyString
  | String c s' =>
      match drop_trailing_zeros s' with
      | EmptyString => if Ascii.eqb c "0" then EmptyString else String c EmptyString
      | r => String c r
      end
  end.

Definition str_nat_digits (n : N) : string := NilEmpty.string_of_uint (N.to_uint n).

(** [str(x)] for a float: the positional form [d.d], which is what Python
    prints for a literal of at most 15 significant digits whose magnitude is
    zero or lies in [1e-4, 1e16); beyond that Python rounds or switches to
    the exponent form, which is outside this model. *)
Definition str_float (x : float) : string :=
  match x with
  | FNan => "nan"
  | FInf neg => if neg then "-inf" else "inf"
  | FDec neg m e =>
      let sign := if neg then "-" else "" in
      match e with
      | Zneg p =>
          let scale := N.pow 10 (Npos p) in
          let frac := str_nat_digits (N.modulo m scale) in
          let padded := zeros (Pos.to_nat p - String.length frac) ++ frac in
          let shown :=
            match drop_trailing_zeros padded with
            | EmptyString => "0"
            | r => r
            end in
          sign ++ str_nat_digits (N.div m scale) ++ "." ++ shown
      | _ => sign ++ str_nat_digits (m * N.pow 10 (Z.to_N e)) ++ ".0"
      end
  end.

End Py.

(* ================================================================== *)
(** ** Lexical analysis ([lexer.py]) *)
(* ================================================================== *)

(** [class TokenType(Enum)] *)
Module TokenType.

Inductive t : Type :=
(* Keywords - Commands *)
| SELECT | SHOW | LIST | GET | FIND | COUNT | SUM | INSERT | UPDATE | DELETE
(* Keywords - Clauses *)
| FROM | WHERE | AND | OR | ORDER | BY | GROUP | INTO | SET | VALUES
(* Keywords - Modifiers *)
| ALL | DISTINCT | UNIQUE | ASC | DESC
(* Keywords - Conditions *)
| BETWEEN | IN | LIKE | CONTAINS
(* Keywords - Aggregates *)
| HOW | MANY | TOTAL
(* Keywords - Table operations *)
| ALTER | TABLE | DROP | COLUMN
(* Operators *)
| EQUALS | NOT_EQUALS | GREATER | LESS | GREATER_EQ | LESS_EQ
(* Literals *)
| NUMBER | STRING | IDENTIFIER
(* Punctuation *)
| COMMA | LPAREN | RPAREN | STAR
(* Special *)
| EOF | UNKNOWN.

Definition eq_dec (a b : t) : {a = b} + {a <> b}.
Proof. decide equality. Defined.

Definition eqb (a b : t) : bool := if eq_dec a b then true else false.

(** [token_type.name] *)
Definition name (k : t) : string :=
  match k with
  | SELECT => "SELECT" | SHOW => "SHOW" | LIST => "LIST" | GET => "GET"
  | FIND => "FIND" | COUNT => "COUNT" | SUM => "SUM" | INSERT => "INSERT"
  | UPDATE => "UPDATE" | DELETE => "DELETE"
  | FROM => "FROM" | WHERE => "WHERE" | AND => "AND" | OR => "OR"
  | ORDER => "ORDER" | BY => "BY" | GROUP => "GROUP" | INTO => "INTO"
  | SET => "SET" | VALUES => "VALUES"
  | ALL => "ALL" | DISTINCT => "DISTINCT" | UNIQUE => "UNIQUE"
  | ASC => "ASC" | DESC => "DESC"
  | BETWEEN => "BETWEEN" | IN => "IN" | LIKE => "LIKE" | CONTAINS => "CONTAINS"
  | HOW => "HOW" | MANY => "MANY" | TOTAL => "TOTAL"
  | ALTER => "ALTER" | TABLE => "TABLE" | DROP => "DROP" | COLUMN => "COLUMN"
  | EQUALS => "EQUALS" | NOT_EQUALS => "NOT_EQUALS" | GREATER => "GREATER"
  | LESS => "LESS" | GREATER_EQ => "GREATER_EQ" | LESS_EQ => "LESS_EQ"
  | NUMBER => "NUMBER" | STRING => "STRING" | IDENTIFIER => "IDENTIFIER"
  | COMMA => "COMMA" | LPAREN => "LPAREN" | RPAREN => "RPAREN" | STAR => "STAR"
  | EOF => "EOF" | UNKNOWN => "UNKNOWN"
  end.

End TokenType.

(** [@dataclass class Token] *)
Record Token : Type := mkToken {
  type : TokenType.t;
  value : string;
  position : nat
}.

Module Lexer.

Import TokenType.

(** [Lexer.KEYWORDS] *)
Definition KEYWORDS : list (string * TokenType.t) :=
  [ ("select", SELECT); ("show", SELECT); ("list", SELECT); ("get", SELECT);
    ("find", FIND); ("count", COUNT); ("sum", SUM); ("insert", INSERT);
    ("update", UPDATE); ("delete", DELETE); ("remove", DELETE);
    ("from", FROM); ("of", FROM); ("where", WHERE); ("and", AND); ("or", OR);
    ("order", ORDER); ("by", BY); ("group", GROUP); ("into", INTO);
    ("set", SET); ("values", VALUES);
    ("all", ALL); ("distinct", DISTINCT); ("unique", DISTINCT);
    ("asc", ASC); ("ascending", ASC); ("desc", DESC); ("descending", DESC);
    ("between", BETWEEN); ("in", IN); ("like", LIKE); ("contains", CONTAINS);
    ("how", HOW); ("many", MANY); ("total", TOTAL);
    ("alter", ALTER); ("table", TABLE); ("drop", DROP);
    ("column", COLUMN); ("columns", COLUMN); ("col", COLUMN) ].

(** [d.get(k)] on a table written as a list of pairs with distinct keys. *)
Fixpoint lookup {A : Type} (k : string) (d : list (string * A)) : option A :=
  match d with
  | [] => None
  | (k', v) :: d' => if String.eqb k k' then Some v else lookup k d'
  end.

(** [Lexer.OPERATOR_PHRASES], in the order of the source. *)
Definition OPERATOR_PHRASES : list (string * string) :=
  [ ("greater than or equal to", ">=");
    ("less than or equal to", "<=");
    ("greater than", ">");
    ("more than", ">");
    ("less than", "<");
    ("is equal to", "=");
    ("equal to", "=");
    ("equals", "=");
    ("equal", "=");
    ("same as", "=");
    ("not equal to", "!=");
    ("not equal", "!=");
    ("different from", "!=") ].

(** The [for phrase, symbol in self.OPERATOR_PHRASES] loop of [_preprocess]. *)
Fixpoint replace_phrases (phrases : list (string * string)) (t : string) : string :=
  match phrases with
  | [] => t
  | (phrase, symbol) :: rest =>
      replace_phrases rest (Py.replace phrase (" " ++ symbol ++ " ") t)
  end.

(** [Lexer._preprocess] *)
Definition _preprocess (text : string) : string :=
  let t := Py.strip (Py.lower text) in
  let t := replace_phrases OPERATOR_PHRASES t in
  Py.collapse_whitespace t.

(** The scanning state: [rest] is [self.text[self.pos:]], the part of the
    preprocessed text not read yet, and [pos] is [self.pos]. *)
Record state : Type := mkState {
  rest : string;
  pos : nat
}.

(** [Lexer._current_char] *)
Definition _current_char (st : state) : option ascii :=
  match rest st with
  | EmptyString => None
  | String c _ => Some c
  end.

(** [Lexer._peek] with its default offset 1. *)
Definition _peek (st : state) : option ascii :=
  match rest st with
  | String _ (String c _) => Some c
  | _ => None
  end.

(** [Lexer._advance]: [self.pos += 1], also at the end of the text. *)
Definition _advance (st : state) : state :=
  match rest st with
  | EmptyString => mkState EmptyString (S (pos st))
  | String _ r => mkState r (S (pos st))
  end.

(** The loop [while self._current_char() and p(self._current_char()):
    result += self._advance()]: the characters read and the state reached. *)
Definition read_while (p : ascii -> bool) (st : state) : string * state :=
  let (result, r) := Py.span p (rest st) in
  (result, mkState r (pos st + String.length result)).

(** [Lexer._skip_whitespace] *)
Definition _skip_whitespace (st : state) : state :=
  snd (read_while Py.isspace st).

(** [Lexer._read_number] *)
Definition _read_number (st : state) : Token * state :=
  let start_pos := pos st in
  let (result, st') :=
    read_while (fun c => Py.isdigit c || Ascii.eqb c ".") st in
  (mkToken NUMBER result start_pos, st').

(** [Lexer._read_string] *)
Definition _read_string (st : state) : Token * state :=
  let start_pos := pos st in
  match _current_char st with
  | None => (mkToken STRING EmptyString start_pos, _advance st)
  | Some quote_char =>
      let st1 := _advance st in
      let (result, st2) :=
        read_while (fun c => negb (Ascii.eqb c quote_char)) st1 in
      let st3 :=
        match _current_char st2 with
        | Some _ => _advance st2
        | None => st2
        end in
      (mkToken STRING result start_pos, st3)
  end.

(** [Lexer._read_word] *)
Definition _read_word (st : state) : Token * state :=
  let start_pos := pos st in
  let (result, st') :=
    read_while (fun c => Py.isalnum c || Ascii.eqb c "_") st in
  let lower_result := Py.lower result in
  match lookup lower_result KEYWORDS with
  | Some k => (mkToken k result start_pos, st')
  | None => (mkToken IDENTIFIER result start_pos, st')
  end.

Definition char_is (c : ascii) (o : option ascii) : bool :=
  match o with
  | Some d => Ascii.eqb c d
  | None => false
  end.

Definition string_of_char (o : option ascii) : string :=
  match o with
  | Some c => String c EmptyString
  | None => EmptyString
  end.

(** The [operators] table of [_read_operator]. *)
Definition operators : list (string * TokenType.t) :=
  [ ("=", EQUALS); (">", GREATER); ("<", LESS); (",", COMMA);
    ("(", LPAREN); (")", RPAREN); ("*", STAR) ].

(** [Lexer._read_operator] *)
Definition _read_operator (st : state) : Token * state :=
  let start_pos := pos st in
  let char := _current_char st in
  let next_char := _peek st in
  if char_is ">" char && char_is "=" next_char then
    (mkToken GREATER_EQ ">=" start_pos, _advance (_advance st))
  else if char_is "<" char && char_is "=" next_char then
    (mkToken LESS_EQ "<=" start_pos, _advance (_advance st))
  else if char_is "!" char && char_is "=" next_char then
    (mkToken NOT_EQUALS "!=" start_pos, _advance (_advance st))
  else
    match lookup (string_of_char char) operators with
    | Some k => (mkToken k (string_of_char char) start_pos, _advance st)
    | None => (mkToken UNKNOWN (string_of_char char) start_pos, _advance st)
    end.

(** The [while self.pos < len(self.text)] loop of [Lexer.tokenize] with the
    EOF token appended after it.  Every round reads at least one character;
    [fuel] bounds the number of rounds and [None] means it ran out. *)
Fixpoint tokenize_loop (fuel : nat) (st : state) : option (list Token) :=
  match fuel with
  | O => None
  | S fuel' =>
      match _current_char st with
      | None => Some [mkToken EOF EmptyString (pos st)]
      | Some _ =>
          let st := _skip_whitespace st in
          match _current_char st with
          | None => Some [mkToken EOF EmptyString (pos st)]
          | Some char =>
              if Py.isdigit char then
                let (token, st') := _read_number st in
                option_map (cons token) (tokenize_loop fuel' st')
              else if Ascii.eqb char Py.double_quote || Ascii.eqb char "'" then
                let (token, st') := _read_string st in
                option_map (cons token) (tokenize_loop fuel' st')
              else if Py.isalpha char || Ascii.eqb char "_" then
                let (token, st') := _read_word st in
                option_map (cons token) (tokenize_loop fuel' st')
              else
                let (token, st') := _read_operator st in
                if TokenType.eqb (type token) UNKNOWN
                then tokenize_loop fuel' st'
                else option_map (cons token) (tokenize_loop fuel' st')
          end
      end
  end.

(** Scanning a text that is already preprocessed ([self.text]). *)
Definition scan (text : string) : option (list Token) :=
  tokenize_loop (S (String.length text)) (mkState text 0).

(** [tokenize(text)]: [Lexer(text).tokenize()]. *)
Definition tokenize (text : string) : option (list Token) :=
  scan (_preprocess text).

End Lexer.

(* ================================================================== *)
(** ** Syntax analysis ([syntax_parser.py]) *)
(* ================================================================== *)

(** *** AST node classes *)

(** What [_parse_value] returns: an [int], a [float] or a [str]. *)
Inductive Value : Type :=
| VInt (n : Z)
| VFloat (x : Py.float)
| VStr (s : string).

(** [str(v)] *)
Definition str_value (v : Value) : string :=
  match v with
  | VInt n => Py.str_int n
  | VFloat x => Py.str_float x
  | VStr s => s
  end.

(** [ConditionNode] and its six subclasses. *)
Inductive ConditionNode : Type :=
| SimpleCondition (column : string) (operator : string) (value : Value)
| AndCondition (left right : ConditionNode)
| OrCondition (left right : ConditionNode)
| BetweenCondition (column : string) (low high : Value)
| InCondition (column : string) (values : list Value)
| LikeCondition (column : string) (pattern : string).

Record WhereNode : Type := mkWhereNode {
  condition : ConditionNode
}.

Record OrderByNode : Type := mkOrderByNode {
  order_column : string;
  direction : string
}.

Record GroupByNode : Type := mkGroupByNode {
  group_column : string
}.

Record AggregateNode : Type := mkAggregateNode {
  function : string;
  aggregate_column : option string
}.

(** [SelectNode].  The parser stores [None] in [table] and among [columns]
    when no identifier was present, hence the options. *)
Record SelectNode : Type := mkSelectNode {
  select_columns : list (option string);
  select_table : option string;
  select_where : option WhereNode;
  select_order_by : option OrderByNode;
  select_group_by : option GroupByNode;
  select_distinct : bool;
  select_aggregate : option AggregateNode
}.

Record InsertNode : Type := mkInsertNode {
  insert_table : string;
  insert_values : list Value;
  insert_columns : option (list string)
}.

Record UpdateNode : Type := mkUpdateNode {
  update_table : string;
  set_column : string;
  set_value : Value;
  update_where : option WhereNode
}.

Record DeleteNode : Type := mkDeleteNode {
  delete_table : string;
  delete_where : option WhereNode
}.

Record AlterTableNode : Type := mkAlterTableNode {
  alter_table : string;
  action : string;
  alter_columns : list string
}.

(** The statement nodes [Parser.parse] can return. *)
Inductive ASTNode : Type :=
| Select (node : SelectNode)
| Insert (node : InsertNode)
| Update (node : UpdateNode)
| Delete (node : DeleteNode)
| AlterTable (node : AlterTableNode).

(** *** Exceptions *)

Inductive exn : Type :=
| ParseError (msg : string)
| ValueError
| IndexError
| TypeError.

(** The result of running Python code: a value, an exception, or a loop cut
    short by the bound on its rounds. *)
Inductive outcome (A : Type) : Type :=
| Ok (a : A)
| Raise (e : exn)
| OutOfFuel.

Arguments Ok {A} a.
Arguments Raise {A} e.
Arguments OutOfFuel {A}.

Module Parser.

Import TokenType.

(** [self]: the token list and the cursor. *)
Record state : Type := mkState {
  tokens : list Token;
  pos : nat
}.

(** A method of [Parser]: it reads and moves the cursor, and may raise. *)
Definition M (A : Type) : Type := state -> outcome (A * state).

Definition ret {A : Type} (a : A) : M A := fun st => Ok (a, st).

Definition bind {A B : Type} (m : M A) (k : A -> M B) : M B :=
  fun st =>
    match m st with
    | Ok (a, st') => k a st'
    | Raise e => Raise e
    | OutOfFuel => OutOfFuel
    end.

Definition raise {A : Type} (e : exn) : M A := fun _ => Raise e.

Definition out_of_fuel {A : Type} : M A := fun _ => OutOfFuel.

Declare Scope parser_scope.
Delimit Scope parser_scope with parser.
Notation "x <- m ;; k" := (bind m (fun x => k))
  (at level 61, m at next level, right associativity) : parser_scope.
Notation "m ;;; k" := (bind m (fun _ => k))
  (at level 61, right associativity) : parser_scope.
Open Scope parser_scope.

(** [Parser._current_token]; [self.tokens[-1]] raises on an empty list. *)
Definition _current_token : M Token := fun st =>
  match nth_error (tokens st) (pos st) with
  | Some t => Ok (t, st)
  | None =>
      match tokens st with
      | [] => Raise IndexError
      | t0 :: _ => Ok (List.last (tokens st) t0, st)
      end
  end.

(** [Parser._advance] *)
Definition _advance : M Token :=
  token <- _current_token ;;
  fun st => Ok (token, mkState (tokens st) (S (pos st))).

(** [Parser._match] *)
Definition _match (types : list TokenType.t) : M bool :=
  token <- _current_token ;;
  ret (existsb (TokenType.eqb (type token)) types).

(** [Parser._expect] *)
Definition _expect (token_type : TokenType.t) : M Token :=
  b <- _match [token_type] ;;
  if negb b then
    token <- _current_token ;;
    raise (ParseError ("Expected " ++ TokenType.name token_type ++ ", got "
                       ++ TokenType.name (type token)))
  else _advance.

(** [Parser._consume_if] *)
Definition _consume_if (token_type : TokenType.t) : M (option Token) :=
  b <- _match [token_type] ;;
  if b then token <- _advance ;; ret (Some token) else ret None.

(** Truth value of an optional string: [None] and [''] are false. *)
Definition truthy (o : option string) : bool :=
  match o with
  | Some (String _ _) => true
  | _ => false
  end.

(** [Parser._parse_from] *)
Definition _parse_from (allow_missing : bool) : M (option string) :=
  b <- _match [FROM] ;;
  (if b then _advance ;;; ret tt
   else if negb allow_missing then
     b' <- _match [IDENTIFIER] ;;
     if negb b' then raise (ParseError "Expected table name after FROM")
     else ret tt
   else ret tt) ;;;
  b <- _match [IDENTIFIER] ;;
  if b then token <- _advance ;; ret (Some (value token))
  else if negb allow_missing
       then raise (ParseError "Expected table name after FROM")
       else ret None.

(** [Parser._parse_operator] *)
Definition op_map : list (TokenType.t * string) :=
  [ (EQUALS, "="); (NOT_EQUALS, "!="); (GREATER, ">"); (LESS, "<");
    (GREATER_EQ, ">="); (LESS_EQ, "<=") ].

Fixpoint op_lookup (k : TokenType.t) (d : list (TokenType.t * string))
  : option string :=
  match d with
  | [] => None
  | (k', v) :: d' => if TokenType.eqb k k' then Some v else op_lookup k d'
  end.

Definition _parse_operator : M string :=
  token <- _current_token ;;
  match op_lookup (type token) op_map with
  | Some op => _advance ;;; ret op
  | None =>
      raise (ParseError ("Expected operator, got " ++ TokenType.name (type token)))
  end.

(** [Parser._parse_value]; [float] and [int] raise [ValueError]. *)
Definition _parse_value : M Value :=
  token <- _current_token ;;
  if TokenType.eqb (type token) NUMBER then
    _advance ;;;
    if Py.contains "." (value token) then
      match Py.to_float (value token) with
      | Some x => ret (VFloat x)
      | None => raise ValueError
      end
    else
      match Py.int (value token) with
      | Some n => ret (VInt n)
      | None => raise ValueError
      end
  else if TokenType.eqb (type token) STRING then
    _advance ;;; ret (VStr (value token))
  else if TokenType.eqb (type token) IDENTIFIER then
    _advance ;;; ret (VStr (value token))
  else
    raise (ParseError ("Expected value, got " ++ TokenType.name (type token))).

(** The [while self._match(TokenType.COMMA)] loop of [_parse_value_list]. *)
Fixpoint value_list_loop (fuel : nat) (values : list Value) : M (list Value) :=
  match fuel with
  | O => out_of_fuel
  | S fuel' =>
      b <- _match [COMMA] ;;
      if b then
        _advance ;;;
        v <- _parse_value ;;
        value_list_loop fuel' (values ++ [v])
      else ret values
  end.

(** [Parser._parse_value_list] *)
Definition _parse_value_list (fuel : nat) : M (list Value) :=
  has_paren <- _consume_if LPAREN ;;
  v <- _parse_value ;;
  values <- value_list_loop fuel [v] ;;
  match has_paren with
  | Some _ => _consume_if RPAREN ;;; ret values
  | None => ret values
  end.

(** [Parser._parse_simple_condition] *)
Definition _parse_simple_condition (fuel : nat) : M ConditionNode :=
  b <- _match [IDENTIFIER] ;;
  if negb b then raise (ParseError "Expected column name in condition")
  else
    token <- _advance ;;
    let column := value token in
    b <- _match [BETWEEN] ;;
    if b then
      _advance ;;;
      low <- _parse_value ;;
      _expect AND ;;;
      high <- _parse_value ;;
      ret (BetweenCondition column low high)
    else
      b <- _match [IN] ;;
      if b then
        _advance ;;;
        values <- _parse_value_list fuel ;;
        ret (InCondition column values)
      else
        b <- _match [LIKE; CONTAINS] ;;
        if b then
          _advance ;;;
          pattern <- _parse_value ;;
          ret (LikeCondition column (str_value pattern))
        else
          op <- _parse_operator ;;
          v <- _parse_value ;;
          ret (SimpleCondition column op v).

(** The [while self._match(TokenType.AND, TokenType.OR)] loop of
    [_parse_condition]. *)
Fixpoint condition_loop (fuel fuel0 : nat) (left : ConditionNode)
  : M ConditionNode :=
  match fuel with
  | O => out_of_fuel
  | S fuel' =>
      b <- _match [AND; OR] ;;
      if b then
        op <- _advance ;;
        right <- _parse_simple_condition fuel0 ;;
        if TokenType.eqb (type op) AND
        then condition_loop fuel' fuel0 (AndCondition left right)
        else condition_loop fuel' fuel0 (OrCondition left right)
      else ret left
  end.

(** [Parser._parse_condition] *)
Definition _parse_condition (fuel : nat) : M ConditionNode :=
  left <- _parse_simple_condition fuel ;;
  condition_loop fuel fuel left.

(** [Parser._parse_where] *)
Definition _parse_where (fuel : nat) : M WhereNode :=
  _advance ;;;
  condition <- _parse_condition fuel ;;
  ret (mkWhereNode condition).

(** The optional WHERE clause: [if self._match(TokenType.WHERE): ...]. *)
Definition optional_where (fuel : nat) : M (option WhereNode) :=
  b <- _match [WHERE] ;;
  if b then w <- _parse_where fuel ;; ret (Some w) else ret None.

(** [Parser._parse_order_by] *)
Definition _parse_order_by : M OrderByNode :=
  _advance ;;;
  _expect BY ;;;
  b <- _match [IDENTIFIER] ;;
  column <- (if negb b then ret "id"
             else token <- _advance ;; ret (value token)) ;;
  b <- _match [ASC] ;;
  if b then _advance ;;; ret (mkOrderByNode column "ASC")
  else
    b <- _match [DESC] ;;
    if b then _advance ;;; ret (mkOrderByNode column "DESC")
    else ret (mkOrderByNode column "ASC").

(** [Parser._parse_group_by] *)
Definition _parse_group_by : M GroupByNode :=
  _advance ;;;
  _expect BY ;;;
  b <- _match [IDENTIFIER] ;;
  if negb b then raise (ParseError "Expected column name after GROUP BY")
  else token <- _advance ;; ret (mkGroupByNode (value token)).

(** The [while self._match(TokenType.COMMA)] loop of [_parse_select] and of
    [_parse_drop_column]: a comma not followed by an identifier is skipped. *)
Fixpoint column_loop {A : Type} (inj : string -> A) (fuel : nat)
  (columns : list A) : M (list A) :=
  match fuel with
  | O => out_of_fuel
  | S fuel' =>
      b <- _match [COMMA] ;;
      if b then
        _advance ;;;
        b' <- _match [IDENTIFIER] ;;
        if b' then
          token <- _advance ;;
          column_loop inj fuel' (columns ++ [inj (value token)])
        else column_loop inj fuel' columns
      else ret columns
  end.

(** [Parser._parse_select] *)
Definition _parse_select (fuel : nat) : M SelectNode :=
  _advance ;;;
  b <- _match [DISTINCT] ;;
  distinct <- (if b then _advance ;;; ret true else ret false) ;;
  b <- _match [ALL] ;;
  projection <-
    (if b then
       _advance ;;;
       table <- _parse_from false ;;
       ret ([Some "*"], table)
     else
       b <- _match [STAR] ;;
       if b then
         _advance ;;;
         table <- _parse_from false ;;
         ret ([Some "*"], table)
       else
         b <- _match [IDENTIFIER] ;;
         first_identifier <-
           (if b then token <- _advance ;; ret (Some (value token))
            else ret None) ;;
         b <- _match [COMMA] ;;
         if b then
           columns <- column_loop Some fuel [first_identifier] ;;
           table <- _parse_from false ;;
           ret (columns, table)
         else
           b <- _match [FROM] ;;
           if b then
             table <- _parse_from false ;;
             ret ([first_identifier], table)
           else
             b <- _match [WHERE; ORDER; GROUP; EOF] ;;
             if b then ret ([Some "*"], first_identifier)
             else
               let columns :=
                 if truthy first_identifier then [first_identifier]
                 else [Some "*"] in
               table <- _parse_from true ;;
               match table with
               | None => ret ([Some "*"], first_identifier)
               | Some _ => ret (columns, table)
               end) ;;
  let '(columns, table) := projection in
  where_ <- optional_where fuel ;;
  b <- _match [ORDER] ;;
  order_by <- (if b then o <- _parse_order_by ;; ret (Some o) else ret None) ;;
  b <- _match [GROUP] ;;
  group_by <- (if b then g <- _parse_group_by ;; ret (Some g) else ret None) ;;
  ret (mkSelectNode columns table where_ order_by group_by distinct None).

(** The target of COUNT and SUM: an optional identifier, then an optional
    [FROM] with an optional table after it. *)
Definition optional_identifier : M (option string) :=
  b <- _match [IDENTIFIER] ;;
  if b then token <- _advance ;; ret (Some (value token)) else ret None.

Definition from_table (target : option string) : M (option string) :=
  b <- _match [FROM] ;;
  if b then
    _advance ;;;
    b' <- _match [IDENTIFIER] ;;
    if b' then token <- _advance ;; ret (Some (value token)) else ret target
  else ret target.

(** [Parser._parse_count] *)
Definition _parse_count (fuel : nat) : M SelectNode :=
  _advance ;;;
  b <- _match [MANY] ;;
  (if b then _advance ;;; ret tt else ret tt) ;;;
  target <- optional_identifier ;;
  table <- from_table target ;;
  where_ <- optional_where fuel ;;
  ret (mkSelectNode [Some "COUNT(*)"] table where_ None None false
         (Some (mkAggregateNode "COUNT" None))).

(** [Parser._parse_sum] *)
Definition _parse_sum (fuel : nat) : M SelectNode :=
  _advance ;;;
  column <- optional_identifier ;;
  table <- from_table column ;;
  where_ <- optional_where fuel ;;
  let shown :=
    match column with
    | Some (String c r) => "SUM(" ++ String c r ++ ")"
    | _ => "SUM(*)"
    end in
  ret (mkSelectNode [Some shown] table where_ None None false
         (Some (mkAggregateNode "SUM" column))).

(** [Parser._parse_find] *)
Definition _parse_find (fuel : nat) : M SelectNode :=
  _advance ;;;
  table <- optional_identifier ;;
  where_ <- optional_where fuel ;;
  ret (mkSelectNode [Some "*"] table where_ None None false None).

(** [Parser._parse_insert] *)
Definition _parse_insert (fuel : nat) : M InsertNode :=
  _advance ;;;
  _expect INTO ;;;
  b <- _match [IDENTIFIER] ;;
  if negb b then raise (ParseError "Expected table name after INSERT INTO")
  else
    token <- _advance ;;
    _expect VALUES ;;;
    values <- _parse_value_list fuel ;;
    ret (mkInsertNode (value token) values None).

(** [Parser._parse_update] *)
Definition _parse_update (fuel : nat) : M UpdateNode :=
  _advance ;;;
  b <- _match [IDENTIFIER] ;;
  if negb b then raise (ParseError "Expected table name after UPDATE")
  else
    table <- _advance ;;
    _expect SET ;;;
    b <- _match [IDENTIFIER] ;;
    if negb b then raise (ParseError "Expected column name after SET")
    else
      column <- _advance ;;
      _expect EQUALS ;;;
      v <- _parse_value ;;
      where_ <- optional_where fuel ;;
      ret (mkUpdateNode (value table) (value column) v where_).

(** [Parser._parse_drop_column] *)
Definition _parse_drop_column (fuel : nat) : M AlterTableNode :=
  _advance ;;;
  b <- _match [IDENTIFIER] ;;
  columns <-
    (if b then
       token <- _advance ;;
       column_loop (fun s => s) fuel [value token]
     else ret []) ;;
  _expect FROM ;;;
  b <- _match [IDENTIFIER] ;;
  if negb b then raise (ParseError "Expected table name after FROM")
  else
    table <- _advance ;;
    ret (mkAlterTableNode (value table) "DROP COLUMN" columns).

(** [Parser._parse_delete] *)
Definition _parse_delete (fuel : nat) : M ASTNode :=
  _advance ;;;
  b <- _match [COLUMN] ;;
  if b then node <- _parse_drop_column fuel ;; ret (AlterTable node)
  else
    b <- _match [FROM] ;;
    (if b then _advance ;;; ret tt else ret tt) ;;;
    b <- _match [IDENTIFIER] ;;
    if negb b then raise (ParseError "Expected table name after DELETE FROM")
    else
      table <- _advance ;;
      where_ <- optional_where fuel ;;
      ret (Delete (mkDeleteNode (value table) where_)).

(** [Parser._parse_alter] *)
Definition _parse_alter : M AlterTableNode :=
  _advance ;;;
  _expect TABLE ;;;
  b <- _match [IDENTIFIER] ;;
  if negb b then raise (ParseError "Expected table name after ALTER TABLE")
  else
    table <- _advance ;;
    _expect DROP ;;;
    _expect COLUMN ;;;
    b <- _match [IDENTIFIER] ;;
    columns <- (if b then token <- _advance ;; ret [value token] else ret []) ;;
    ret (mkAlterTableNode (value table) "DROP COLUMN" columns).

(** [Parser.parse]; [fuel] bounds the rounds of each loop. *)
Definition parse_method (fuel : nat) : M ASTNode :=
  token <- _current_token ;;
  b <- _match [SELECT] ;;
  if b then node <- _parse_select fuel ;; ret (Select node) else
  b1 <- _match [COUNT] ;;
  b2 <- (if b1 then ret true else _match [HOW]) ;;
  if b2 then node <- _parse_count fuel ;; ret (Select node) else
  b <- _match [SUM; TOTAL] ;;
  if b then node <- _parse_sum fuel ;; ret (Select node) else
  b <- _match [FIND] ;;
  if b then node <- _parse_find fuel ;; ret (Select node) else
  b <- _match [INSERT] ;;
  if b then node <- _parse_insert fuel ;; ret (Insert node) else
  b <- _match [UPDATE] ;;
  if b then node <- _parse_update fuel ;; ret (Update node) else
  b <- _match [DELETE] ;;
  if b then _parse_delete fuel else
  b <- _match [ALTER] ;;
  if b then node <- _parse_alter ;; ret (AlterTable node) else
  raise (ParseError ("Unexpected token: " ++ TokenType.name (type token)
                     ++ " '" ++ value token ++ "'")).

(** [Parser(tokens).parse()] *)
Definition parse_with (fuel : nat) (tokens : list Token) : outcome ASTNode :=
  match parse_method fuel (mkState tokens 0) with
  | Ok (ast, _) => Ok ast
  | Raise e => Raise e
  | OutOfFuel => OutOfFuel
  end.

(** The bound used for a token list: one round per token and one more (a
    round of any of the loops moves the cursor by at least one token). *)
Definition parse (tokens : list Token) : outcome ASTNode :=
  parse_with (S (List.length tokens)) tokens.

Close Scope parser_scope.

End Parser.

(** [parse(text)] of [syntax_parser.py]: tokenize, then parse. *)
Definition parse_text (text : string) : outcome ASTNode :=
  match Lexer.tokenize text with
  | Some tokens => Parser.parse tokens
  | None => OutOfFuel
  end.

(* ================================================================== *)
(** ** SQL generation and the pipeline ([pipeline.py]) *)
(* ================================================================== *)

(** [format_value] *)
Definition format_value (v : Value) : string :=
  match v with
  | VStr s =>
      if Py.str_isdigit s ||
         (Py.startswith "-" s && Py.str_isdigit (String.substring 1 (String.length s - 1) s))
      then s
      else
        match Py.to_float s with
        | Some _ => s
        | None => "'" ++ s ++ "'"
        end
  | VInt n => Py.str_int n
  | VFloat x => Py.str_float x
  end.

(** [condition_to_sql].  (The Python function calls itself once per AND/OR
    level; the interpreter's recursion limit is not modelled.) *)
Fixpoint condition_to_sql (c : ConditionNode) : string :=
  match c with
  | SimpleCondition column operator v =>
      column ++ " " ++ operator ++ " " ++ format_value v
  | AndCondition l r =>
      condition_to_sql l ++ " AND " ++ condition_to_sql r
  | OrCondition l r =>
      "(" ++ condition_to_sql l ++ " OR " ++ condition_to_sql r ++ ")"
  | BetweenCondition column low high =>
      column ++ " BETWEEN " ++ str_value low ++ " AND " ++ str_value high
  | InCondition column values =>
      column ++ " IN (" ++ Py.join ", " (map format_value values) ++ ")"
  | LikeCondition column pattern =>
      let pattern :=
        if negb (Py.contains "%" pattern) then "%" ++ pattern ++ "%"
        else pattern in
      column ++ " LIKE '" ++ pattern ++ "'"
  end.

(** [', '.join(columns)]: a [None] among the columns is a [TypeError]. *)
Fixpoint all_strings (l : list (option string)) : option (list string) :=
  match l with
  | [] => Some []
  | None :: _ => None
  | Some s :: l' => option_map (cons s) (all_strings l')
  end.

(** The [if ast.where:] suffix shared by SELECT, UPDATE and DELETE. *)
Definition where_sql (w : option WhereNode) : string :=
  match w with
  | Some w => " WHERE " ++ condition_to_sql (condition w)
  | None => ""
  end.

(** [f"{table}"] for an optional string. *)
Definition str_optional (o : option string) : string :=
  match o with
  | Some s => s
  | None => "None"
  end.

(** [ast_to_sql] *)
Definition ast_to_sql (ast : ASTNode) : outcome string :=
  match ast with
  | Select n =>
      match all_strings (select_columns n) with
      | None => Raise TypeError
      | Some cols =>
          let columns := Py.join ", " cols in
          let sql := "SELECT " ++ (if select_distinct n then "DISTINCT " else "")
                     ++ columns ++ " FROM " ++ str_optional (select_table n) in
          let sql := sql ++ where_sql (select_where n) in
          let sql :=
            match select_order_by n with
            | Some o => sql ++ " ORDER BY " ++ order_column o ++ " " ++ direction o
            | None => sql
            end in
          let sql :=
            match select_group_by n with
            | Some g => sql ++ " GROUP BY " ++ group_column g
            | None => sql
            end in
          Ok (sql ++ ";")
      end
  | Insert n =>
      let values := Py.join ", " (map format_value (insert_values n)) in
      Ok ("INSERT INTO " ++ insert_table n ++ " VALUES (" ++ values ++ ");")
  | Update n =>
      let sql := "UPDATE " ++ update_table n ++ " SET " ++ set_column n
                 ++ " = " ++ format_value (set_value n) in
      Ok (sql ++ where_sql (update_where n) ++ ";")
  | Delete n =>
      Ok ("DELETE FROM " ++ delete_table n ++ where_sql (delete_where n) ++ ";")
  | AlterTable n =>
      if String.eqb (action n) "DROP COLUMN"
      then Ok ("ALTER TABLE " ++ alter_table n ++ " DROP COLUMN "
               ++ Py.join ", " (alter_columns n) ++ ";")
      else Ok ("ALTER TABLE " ++ alter_table n ++ " " ++ action n ++ ";")
  end.

(** What [NLToSQLPipeline.process] returns: the tokens without EOF, the AST
    and the SQL text. *)
Record processed : Type := mkProcessed {
  result_tokens : list (TokenType.t * string);
  result_ast : ASTNode;
  result_sql : string
}.

(** [NLToSQLPipeline.process]: tokenize, parse, generate. *)
Definition process (text : string) : outcome processed :=
  match Lexer.tokenize text with
  | None => OutOfFuel
  | Some tokens =>
      match Parser.parse tokens with
      | Ok ast =>
          match ast_to_sql ast with
          | Ok sql =>
              Ok (mkProcessed
                    (map (fun t => (type t, value t))
                       (filter (fun t => negb (TokenType.eqb (type t) TokenType.EOF))
                          tokens))
                    ast sql)
          | Raise e => Raise e
          | OutOfFuel => OutOfFuel
          end
      | Raise e => Raise e
      | OutOfFuel => OutOfFuel
      end
  end.

(** [nl_to_sql]: [NLToSQLPipeline().quick_parse(text)], the SQL of [process]. *)
Definition nl_to_sql (text : string) : outcome string :=
  match process text with
  | Ok r => Ok (result_sql r)
  | Raise e => Raise e
  | OutOfFuel => OutOfFuel
  end.

(* ================================================================== *)
(** ** Notions used in the statements *)
(* ================================================================== *)

(** The kind and the lexeme of every token, without the offsets. *)
Definition kinds_and_lexemes (tokens : list Token)
  : list (TokenType.t * string) :=
  map (fun t => (type t, value t)) tokens.

(** Some operator phrase of the table occurs in [s]. *)
Definition has_operator_phrase (s : string) : bool :=
  existsb (fun entry => Py.occurs (fst entry) s) Lexer.OPERATOR_PHRASES.

(** The string literal [t] of [text] has no closing quote: it runs from its
    opening quote at offset [position t] to the end of the text. *)
Definition unterminated (text : string) (t : Token) : Prop :=
  type t = TokenType.STRING /\
  position t + S (String.length (value t)) = String.length text.

(** [s.lower() == s] *)
Definition is_lowered (s : string) : Prop := Py.lower s = s.

(** The kind of the token under the parser's cursor, if there is one. *)
Definition current_kind (st : Parser.state) : option TokenType.t :=
  match Parser._current_token st with
  | Ok (t, _) => Some (type t)
  | _ => None
  end.

(** A single word: one or more letters. *)
Definition is_alpha_word (s : string) : bool :=
  match s with
  | EmptyString => false
  | _ => forallb Py.isalpha (list_ascii_of_string s)
  end.

(** The number of decimal points of a lexeme. *)
Fixpoint count_points (s : string) : nat :=
  match s with
  | EmptyString => 0
  | String c r => (if Ascii.eqb c "." then 1 else 0) + count_points r
  end.

Fixpoint digits_or_points (s : string) : bool :=
  match s with
  | EmptyString => true
  | String c r => (Py.isdigit c || Ascii.eqb c ".") && digits_or_points r
  end.

(** The lexemes [_read_number] can return: a digit, then digits and points. *)
Definition number_lexeme (s : string) : bool :=
  match s with
  | EmptyString => false
  | String c r => Py.isdigit c && digits_or_points r
  end.

(** The token kind of a canonical operator symbol. *)
Definition symbol_kind (symbol : string) : option TokenType.t :=
  Lexer.lookup symbol
    [ (">=", TokenType.GREATER_EQ); ("<=", TokenType.LESS_EQ);
      ("!=", TokenType.NOT_EQUALS); ("=", TokenType.EQUALS);
      (">", TokenType.GREATER); ("<", TokenType.LESS) ].

(** The input [<column> <phrase> <number>] with column [age] and number 5. *)
Definition phrase_query (phrase : string) : string :=
  "age " ++ phrase ++ " 5".

(** [phrase_query phrase] tokenizes as the column, the one operator token of
    the phrase's symbol, the number and EOF. *)
Definition phrase_is_canonical (entry : string * string) : bool :=
  match symbol_kind (snd entry),
        option_map kinds_and_lexemes (Lexer.tokenize (phrase_query (fst entry)))
  with
  | Some k, Some [(k1, "age"); (k2, symbol); (k3, "5"); (k4, "")] =>
      TokenType.eqb k1 TokenType.IDENTIFIER && TokenType.eqb k2 k
      && String.eqb symbol (snd entry)
      && TokenType.eqb k3 TokenType.NUMBER && TokenType.eqb k4 TokenType.EOF
  | _, _ => false
  end.

(** The tokens of [a = 1 and b = 2 or c = 3]. *)
Definition and_or_tokens : list Token :=
  [ mkToken TokenType.IDENTIFIER "a" 0; mkToken TokenType.EQUALS "=" 2;
    mkToken TokenType.NUMBER "1" 4; mkToken TokenType.AND "and" 6;
    mkToken TokenType.IDENTIFIER "b" 10; mkToken TokenType.EQUALS "=" 12;
    mkToken TokenType.NUMBER "2" 14; mkToken TokenType.OR "or" 16;
    mkToken TokenType.IDENTIFIER "c" 19; mkToken TokenType.EQUALS "=" 21;
    mkToken TokenType.NUMBER "3" 23; mkToken TokenType.EOF "" 24 ].

(* ================================================================== *)
(** ** The operator phrases of the fallback translator ([parser.py]) *)
(* ================================================================== *)

Module Legacy.

(** [normalize_operators] *)
Definition normalize_operators (text : string) : string :=
  let t := Py.lower text in
  (* equal variations *)
  let t := Py.replace "is equal to" "=" t in
  let t := Py.replace "equal to" "=" t in
  let t := Py.replace "equals" "=" t in
  let t := Py.replace "equal" "=" t in
  let t := Py.replace "same as" "=" t in
  (* greater than / less than variations *)
  let t := Py.replace "greater than or equal to" ">=" t in
  let t := Py.replace "less than or equal to" "<=" t in
  let t := Py.replace "greater than" ">" t in
  let t := Py.replace "less than" "<" t in
  t.

End Legacy.

(* ================================================================== *)
(** ** Notions used in the further properties *)
(* ================================================================== *)

(** [lexeme] stands at offset [p] of [text]. *)
Definition occurs_at (text : string) (p : nat) (lexeme : string) : Prop :=
  exists before after : string,
    text = before ++ lexeme ++ after /\ String.length before = p.

(** What the offset of a token of the scan of [text] tells: the place of its
    lexeme; for a string literal the place of its opening quote, the literal
    running up to the next such quote or, without one, to the end of the
    text; for EOF the length of the text. *)
Definition well_placed (text : string) (t : Token) : Prop :=
  match type t with
  | TokenType.EOF =>
      value t = EmptyString /\ position t = String.length text
  | TokenType.STRING =>
      exists (quote : ascii) (before after : string),
        text = before ++ String quote (value t ++ after) /\
        String.length before = position t /\
        (quote = Py.double_quote \/ quote = "'"%char) /\
        Py.contains quote (value t) = false /\
        (after = EmptyString \/ exists r, after = String quote r)
  | _ => occurs_at text (position t) (value t)
  end.

(** The kinds the lexer has a name for but never emits. *)
Definition never_emitted (k : TokenType.t) : bool :=
  match k with
  | TokenType.SHOW | TokenType.LIST | TokenType.GET | TokenType.UNIQUE
  | TokenType.UNKNOWN => true
  | _ => false
  end.

(** Whitespace is collapsed in [s]: its only whitespace character is the
    space and no two spaces are adjacent.  [after_space] tells that a space
    stands right before [s]. *)
Fixpoint collapsed_from (after_space : bool) (s : string) : bool :=
  match s with
  | EmptyString => true
  | String c r =>
      if Py.isspace c
      then Ascii.eqb c " " && negb after_space && collapsed_from true r
      else collapsed_from false r
  end.

Definition collapsed (s : string) : bool := collapsed_from false s.

(** No upper-case letter. *)
Fixpoint no_upper (s : string) : bool :=
  match s with
  | EmptyString => true
  | String c r => negb (Py.isupper c) && no_upper r
  end.

(** Offsets grow strictly along the list. *)
Fixpoint increasing (from : nat) (offsets : list nat) : Prop :=
  match offsets with
  | [] => True
  | p :: rest => from <= p /\ increasing (S p) rest
  end.

(** A word of the lexer: a letter or underscore, then letters, digits and
    underscores. *)
Definition word_lexeme (s : string) : bool :=
  match s with
  | EmptyString => false
  | String c r =>
      (Py.isalpha c || Ascii.eqb c "_")
      && forallb (fun d => Py.isalnum d || Ascii.eqb d "_") (list_ascii_of_string r)
  end.

(** The symbol of an operator or punctuation kind. *)
Definition symbol_of (k : TokenType.t) : option string :=
  match k with
  | TokenType.EQUALS => Some "="
  | TokenType.NOT_EQUALS => Some "!="
  | TokenType.GREATER => Some ">"
  | TokenType.LESS => Some "<"
  | TokenType.GREATER_EQ => Some ">="
  | TokenType.LESS_EQ => Some "<="
  | TokenType.COMMA => Some ","
  | TokenType.LPAREN => Some "("
  | TokenType.RPAREN => Some ")"
  | TokenType.STAR => Some "*"
  | _ => None
  end.

(** What the kind of a token of the lexer says about its lexeme: a number
    lexeme for NUMBER, the symbol for an operator or punctuation kind, the
    empty lexeme for EOF, nothing for STRING, and for every other kind a word
    whose lower-case form is listed in KEYWORDS under that kind, or is not
    listed at all when the kind is IDENTIFIER. *)
Definition lexeme_fits (t : Token) : Prop :=
  match type t with
  | TokenType.NUMBER => number_lexeme (value t) = true
  | TokenType.STRING => True
  | TokenType.EOF => value t = EmptyString
  | k =>
      match symbol_of k with
      | Some symbol => value t = symbol
      | None =>
          word_lexeme (value t) = true /\
          Lexer.lookup (Py.lower (value t)) Lexer.KEYWORDS
          = (if TokenType.eqb k TokenType.IDENTIFIER then None else Some k)
      end
  end.

(** One round of the scanning loop that reads a token: from [st], where the
    text left starts with a character that is not whitespace, the reader
    chosen by that character returns [tok] and the state [st']. *)
Definition reads (st : Lexer.state) (tok : Token) (st' : Lexer.state) : Prop :=
  exists (c : ascii) (r : string),
    Lexer.rest st = String c r /\
    ((Py.isdigit c = true /\ Lexer._read_number st = (tok, st')) \/
     ((c = Py.double_quote \/ c = "'"%char) /\
      Lexer._read_string st = (tok, st')) \/
     (Py.isalpha c || Ascii.eqb c "_" = true /\
      Lexer._read_word st = (tok, st')) \/
     Lexer._read_operator st = (tok, st')).

(** The token list is some tokens other than EOF followed by one EOF token
    at offset [p]. *)
Definition ends_in_eof (p : nat) (tokens : list Token) : Prop :=
  exists body : list Token,
    tokens = (body ++ [mkToken TokenType.EOF EmptyString p])%list /\
    Forall (fun t => type t <> TokenType.EOF) body.

(** The scanning state [st] is a cursor into [text]: the text left is what
    follows the first [pos st] characters. *)
Definition cursor_fits (text : string) (st : Lexer.state) : Prop :=
  exists before,
    text = before ++ Lexer.rest st /\ String.length before = Lexer.pos st.

(** A parser method is steady when a successful run leaves the token list
    as it is and does not move the cursor backwards. *)
Definition steady {A : Type} (m : Parser.M A) : Prop :=
  forall st a st',
    m st = Ok (a, st') ->
    Parser.tokens st' = Parser.tokens st /\ Parser.pos st <= Parser.pos st'.

(** The outcome is a value or an exception among [allowed]; the loop bound
    is not reached. *)
Definition may_raise (allowed : exn -> Prop) {A : Type} (o : outcome A) : Prop :=
  match o with
  | Ok _ => True
  | Raise e => allowed e
  | OutOfFuel => False
  end.

(** From every state whose token list satisfies [good] and has at most [n]
    tokens from the cursor on, the method ends as [may_raise allowed] says. *)
Definition behaves (good : list Token -> Prop) (allowed : exn -> Prop)
  (n : nat) {A : Type} (m : Parser.M A) : Prop :=
  forall st,
    good (Parser.tokens st) ->
    List.length (Parser.tokens st) <= n + Parser.pos st ->
    may_raise allowed (m st).

(** A token list the parser can be started on without running out of
    bounds or of fuel: it is not empty and does not end in a comma. *)
Definition closed_list (tokens : list Token) : Prop :=
  tokens <> [] /\
  forall d, type (List.last tokens d) <> TokenType.COMMA.

(** Every NUMBER token has a lexeme [int] or [float] accepts: a digit, then
    digits and at most one point, and no more digits than [int] takes when
    there is no point. *)
Definition plain_numbers (tokens : list Token) : Prop :=
  Forall (fun t => type t = TokenType.NUMBER ->
                   number_lexeme (value t) = true /\
                   count_points (value t) <= 1 /\
                   (count_points (value t) = 0 ->
                    String.length (value t) <= Py.int_max_str_digits))
    tokens.

Definition parse_errors (e : exn) : Prop :=
  match e with
  | ParseError _ | ValueError => True
  | _ => False
  end.

Definition only_parse_error (e : exn) : Prop :=
  match e with
  | ParseError _ => True
  | _ => False
  end.

(** [name] is the lexeme of an IDENTIFIER token of the list. *)
Definition from_identifier (tokens : list Token) (name : string) : Prop :=
  exists t, In t tokens /\ type t = TokenType.IDENTIFIER /\ value t = name.

(** The table named by a statement node; a SELECT may have none. *)
Definition statement_table (ast : ASTNode) : option string :=
  match ast with
  | Select n => select_table n
  | Insert n => Some (insert_table n)
  | Update n => Some (update_table n)
  | Delete n => Some (delete_table n)
  | AlterTable n => Some (alter_table n)
  end.

(** The WHERE clause of a statement node, if it has one. *)
Definition statement_where (ast : ASTNode) : option WhereNode :=
  match ast with
  | Select n => select_where n
  | Update n => update_where n
  | Delete n => delete_where n
  | Insert _ | AlterTable _ => None
  end.

(** The shape every condition tree of the parser has: comparison operators
    are the six SQL symbols, and an IN list holds at least one value. *)
Fixpoint condition_ok (c : ConditionNode) : Prop :=
  match c with
  | SimpleCondition _ operator _ =>
      In operator ["="; "!="; ">"; "<"; ">="; "<="]
  | AndCondition l r | OrCondition l r => condition_ok l /\ condition_ok r
  | BetweenCondition _ _ _ => True
  | InCondition _ values => values <> []
  | LikeCondition _ _ => True
  end.

(** The shape every statement node of the parser has. *)
Definition statement_ok (ast : ASTNode) : Prop :=
  match statement_where ast with
  | Some w => condition_ok (condition w)
  | None => True
  end /\
  match ast with
  | Select n =>
      select_columns n <> [] /\
      match select_order_by n with
      | Some o => direction o = "ASC" \/ direction o = "DESC"
      | None => True
      end /\
      match select_aggregate n with
      | Some a =>
          (function a = "COUNT" /\ aggregate_column a = None /\
           select_columns n = [Some "COUNT(*)"]) \/
          (function a = "SUM" /\
           exists shown, select_columns n = [Some shown] /\
                         Py.startswith "SUM(" shown = true)
      | None => True
      end
  | Insert n => insert_values n <> [] /\ insert_columns n = None
  | AlterTable n => action n = "DROP COLUMN"
  | Update _ | Delete _ => True
  end.

(** [Lexer.OPERATOR_PHRASES] without its two entries for [not equal]. *)
Definition live_phrases : list (string * string) :=
  filter (fun entry => negb (Py.startswith "not equal" (fst entry)))
    Lexer.OPERATOR_PHRASES.

(** [Legacy.normalize_operators] without its two replacements of the
    [... or equal to] phrases. *)
Definition normalize_operators_live (text : string) : string :=
  let t := Py.lower text in
  let t := Py.replace "is equal to" "=" t in
  let t := Py.replace "equal to" "=" t in
  let t := Py.replace "equals" "=" t in
  let t := Py.replace "equal" "=" t in
  let t := Py.replace "same as" "=" t in
  let t := Py.replace "greater than" ">" t in
  let t := Py.replace "less than" "<" t in
  t.

(** Only whitespace. *)
Definition blank (s : string) : Prop :=
  forallb Py.isspace (list_ascii_of_string s) = true.

(** The kinds [Parser.parse] dispatches on. *)
Definition starts_statement (k : TokenType.t) : bool :=
  match k with
  | TokenType.SELECT | TokenType.COUNT | TokenType.HOW | TokenType.SUM
  | TokenType.TOTAL | TokenType.FIND | TokenType.INSERT | TokenType.UPDATE
  | TokenType.DELETE | TokenType.ALTER => true
  | _ => false
  end.

(** The kinds that may follow the table of the shorthand [select T ...]. *)
Definition ends_shorthand (k : TokenType.t) : bool :=
  match k with
  | TokenType.WHERE | TokenType.ORDER | TokenType.GROUP | TokenType.EOF => true
  | _ => false
  end.

(** The words every SQL text of a node starts with. *)
Definition statement_keyword (ast : ASTNode) : string :=
  match ast with
  | Select _ => "SELECT "
  | Insert _ => "INSERT INTO "
  | Update _ => "UPDATE "
  | Delete _ => "DELETE FROM "
  | AlterTable _ => "ALTER TABLE "
  end.

(** What one round of the AND/OR loop makes of the tree built so far. *)
Definition join_condition (left : ConditionNode)
  (round : TokenType.t * ConditionNode) : ConditionNode :=
  if TokenType.eqb (fst round) TokenType.AND
  then AndCondition left (snd round)
  else OrCondition left (snd round).

(** [rounds tokens fuel p chain p']: from the cursor [p] the token list
    holds the connectives and simple conditions of [chain], one after the
    other, and the cursor [p'] stands after the last of them. *)
Inductive rounds (tokens : list Token) (fuel : nat)
  : nat -> list (TokenType.t * ConditionNode) -> nat -> Prop :=
| rounds_done (p : nat) : rounds tokens fuel p [] p
| rounds_more (p p1 p2 : nat) (k : TokenType.t) (c : ConditionNode)
    (chain : list (TokenType.t * ConditionNode)) :
    current_kind (Parser.mkState tokens p) = Some k ->
    k = TokenType.AND \/ k = TokenType.OR ->
    Parser._parse_simple_condition fuel (Parser.mkState tokens (S p))
    = Ok (c, Parser.mkState tokens p1) ->
    rounds tokens fuel p1 chain p2 ->
    rounds tokens fuel p ((k, c) :: chain) p2.

(* ================================================================== *)
(** ** Properties of the string primitives *)
(* ================================================================== *)

Section SpanFacts.

Variable p : ascii -> bool.

Lemma span_rest_length (s : string) :
  String.length (snd (Py.span p s)) <= String.length s.
Proof.
  induction s as [|c s IH]; simpl; [lia|].
  destruct (p c); simpl; [|lia].
  destruct (Py.span p s) as [a b]; simpl in *; lia.
Qed.

Lemma span_rest_length_head (c : ascii) (s : string) :
  p c = true ->
  String.length (snd (Py.span p (String c s))) <= String.length s.
Proof.
  intros Hc; simpl; rewrite Hc.
  pose proof (span_rest_length s) as H.
  destruct (Py.span p s) as [a b]; simpl in *; exact H.
Qed.

End SpanFacts.

(* ================================================================== *)
(** ** Properties of the lexer *)
(* ================================================================== *)

Module LexerFacts.

Import TokenType Lexer.

Lemma keywords_known (w : string) (k : TokenType.t) :
  lookup w KEYWORDS = Some k -> k <> UNKNOWN.
Proof.
  unfold KEYWORDS; simpl.
  repeat (destruct (String.eqb w _);
          [intros [= <-]; discriminate|]).
  discriminate.
Qed.

Lemma advance_rest (st : state) (c : ascii) (r : string) :
  rest st = String c r -> rest (_advance st) = r.
Proof. intros H; unfold _advance; rewrite H; reflexivity. Qed.

Lemma advance_length (st : state) :
  String.length (rest (_advance st)) <= String.length (rest st).
Proof. unfold _advance; destruct (rest st); simpl; lia. Qed.

Lemma read_while_length (p : ascii -> bool) (st : state) :
  String.length (rest (snd (read_while p st))) <= String.length (rest st).
Proof.
  unfold read_while.
  pose proof (span_rest_length p (rest st)) as H.
  destruct (Py.span p (rest st)) as [a b]; simpl in *; exact H.
Qed.

Lemma read_while_length_head (p : ascii -> bool) (st : state) c r :
  rest st = String c r -> p c = true ->
  String.length (rest (snd (read_while p st))) <= String.length r.
Proof.
  intros Hr Hc; unfold read_while; rewrite Hr.
  pose proof (span_rest_length_head p c r Hc) as H.
  destruct (Py.span p (String c r)) as [a b]; simpl in *; exact H.
Qed.

(** Each reader returns a token of a known kind and leaves strictly less
    text than it found, provided it is entered as [tokenize] enters it. *)

Lemma read_number_spec (st : state) c r :
  rest st = String c r -> Py.isdigit c = true ->
  type (fst (_read_number st)) = NUMBER /\
  String.length (rest (snd (_read_number st))) <= String.length r.
Proof.
  intros Hr Hc; unfold _read_number.
  assert (Hp : Py.isdigit c || Ascii.eqb c "." = true) by (rewrite Hc; reflexivity).
  pose proof (read_while_length_head
                (fun c => Py.isdigit c || Ascii.eqb c ".") st c r Hr Hp) as H.
  destruct (read_while _ st) as [result st']; simpl in *; auto.
Qed.

Lemma read_string_spec (st : state) c r :
  rest st = String c r ->
  type (fst (_read_string st)) = STRING /\
  String.length (rest (snd (_read_string st))) <= String.length r.
Proof.
  intros Hr; unfold _read_string, _current_char; rewrite Hr.
  pose proof (read_while_length
                (fun d => negb (Ascii.eqb d c)) (_advance st)) as H.
  rewrite (advance_rest st c r Hr) in H.
  destruct (read_while _ (_advance st)) as [result st2]; simpl in *.
  split; [reflexivity|].
  destruct (rest st2) eqn:E; simpl; [rewrite E; exact H|].
  pose proof (advance_length st2) as H2; rewrite E in *; simpl in *; lia.
Qed.

Lemma read_word_spec (st : state) c r :
  rest st = String c r -> Py.isalpha c || Ascii.eqb c "_" = true ->
  type (fst (_read_word st)) <> UNKNOWN /\
  String.length (rest (snd (_read_word st))) <= String.length r.
Proof.
  intros Hr Hc; unfold _read_word.
  assert (Hp : Py.isalnum c || Ascii.eqb c "_" = true).
  { unfold Py.isalnum.
    apply orb_true_iff in Hc; destruct Hc as [-> | ->];
      [reflexivity | apply orb_true_r]. }
  pose proof (read_while_length_head
                (fun c => Py.isalnum c || Ascii.eqb c "_") st c r Hr Hp) as H.
  destruct (read_while _ st) as [result st']; cbn [fst snd] in *.
  destruct (lookup (Py.lower result) KEYWORDS) as [k|] eqn:E; cbn [fst snd type].
  - split; [eapply keywords_known; exact E | exact H].
  - split; [discriminate | exact H].
Qed.

Lemma read_operator_length (st : state) c r :
  rest st = String c r ->
  String.length (rest (snd (_read_operator st))) <= String.length r.
Proof.
  intros Hr; unfold _read_operator.
  pose proof (advance_rest st c r Hr) as H1.
  pose proof (advance_length (_advance st)) as H2; rewrite H1 in H2.
  destruct (char_is ">" _ && _); [exact H2|].
  destruct (char_is "<" _ && _); [exact H2|].
  destruct (char_is "!" _ && _); [exact H2|].
  destruct (lookup _ operators); cbn [snd]; rewrite H1; lia.
Qed.

(** With more fuel than text left, the loop ends, and it emits no UNKNOWN. *)
Lemma tokenize_loop_total (fuel : nat) :
  forall st : state,
    String.length (rest st) < fuel ->
    exists tokens,
      tokenize_loop fuel st = Some tokens /\
      Forall (fun t => type t <> UNKNOWN) tokens.
Proof.
  induction fuel as [|fuel IH]; intros st Hlen; [lia|].
  simpl. unfold _current_char at 1.
  destruct (rest st) as [|c0 r0] eqn:Hst.
  { eexists; split; [reflexivity|]. repeat constructor; discriminate. }
  pose proof (read_while_length Py.isspace st) as Hws.
  fold (_skip_whitespace st) in Hws.
  set (st1 := _skip_whitespace st) in *.
  unfold _current_char.
  destruct (rest st1) as [|c r] eqn:Hst1.
  { eexists; split; [reflexivity|]. repeat constructor; discriminate. }
  assert (Hr : String.length r < fuel)
    by (rewrite Hst in Hws; simpl in *; lia).
  assert (Hcons : forall (tok : Token) (st' : state),
             type tok <> UNKNOWN ->
             String.length (rest st') <= String.length r ->
             exists tokens,
               option_map (cons tok) (tokenize_loop fuel st') = Some tokens /\
               Forall (fun t => type t <> UNKNOWN) tokens).
  { intros tok st' Hk Hl.
    destruct (IH st') as [ts [-> Hts]]; [lia|].
    eexists; split; [reflexivity|]. constructor; assumption. }
  destruct (Py.isdigit c) eqn:Hd.
  { destruct (read_number_spec st1 c r Hst1 Hd) as [Hk Hl].
    destruct (_read_number st1) as [tok st']; simpl in *.
    apply Hcons; [rewrite Hk; discriminate | exact Hl]. }
  destruct (Ascii.eqb c Py.double_quote || Ascii.eqb c "'") eqn:Hq.
  { destruct (read_string_spec st1 c r Hst1) as [Hk Hl].
    destruct (_read_string st1) as [tok st']; simpl in *.
    apply Hcons; [rewrite Hk; discriminate | exact Hl]. }
  destruct (Py.isalpha c || Ascii.eqb c "_") eqn:Ha.
  { destruct (read_word_spec st1 c r Hst1 Ha) as [Hk Hl].
    destruct (_read_word st1) as [tok st']; simpl in *.
    apply Hcons; assumption. }
  pose proof (read_operator_length st1 c r Hst1) as Hl.
  destruct (_read_operator st1) as [tok st']; simpl in *.
  unfold TokenType.eqb.
  destruct (TokenType.eq_dec (type tok) UNKNOWN) as [Hu|Hu].
  - apply IH; lia.
  - apply Hcons; assumption.
Qed.

(** *** The NUMBER tokens of the lexer *)

Lemma keywords_not_number (w : string) (k : TokenType.t) :
  lookup w KEYWORDS = Some k -> k <> NUMBER.
Proof.
  unfold KEYWORDS; simpl.
  repeat (destruct (String.eqb w _);
          [intros [= <-]; discriminate|]).
  discriminate.
Qed.

Lemma span_digits_or_points (s : string) :
  digits_or_points
    (fst (Py.span (fun c => Py.isdigit c || Ascii.eqb c ".") s)) = true.
Proof.
  induction s as [|c s IH]; [reflexivity|].
  cbn [Py.span].
  destruct (Py.isdigit c || Ascii.eqb c ".") eqn:Hc; [|reflexivity].
  destruct (Py.span _ s) as [a b]; cbn [fst digits_or_points] in *.
  rewrite Hc, IH; reflexivity.
Qed.

Lemma read_number_lexeme (st : state) c r :
  rest st = String c r -> Py.isdigit c = true ->
  number_lexeme (value (fst (_read_number st))) = true.
Proof.
  intros Hr Hc; unfold _read_number, read_while; rewrite Hr.
  pose proof (span_digits_or_points r) as H.
  cbn [Py.span]. rewrite Hc; cbn [orb].
  destruct (Py.span _ r) as [a b]; cbn [fst value number_lexeme] in *.
  rewrite Hc, H; reflexivity.
Qed.

Lemma read_word_not_number (st : state) :
  type (fst (_read_word st)) <> NUMBER.
Proof.
  unfold _read_word.
  destruct (read_while _ st) as [result st'].
  destruct (lookup (Py.lower result) KEYWORDS) as [k|] eqn:E; cbn [fst type].
  - eapply keywords_not_number; exact E.
  - discriminate.
Qed.

Lemma read_operator_not_number (st : state) :
  type (fst (_read_operator st)) <> NUMBER.
Proof.
  unfold _read_operator.
  destruct (char_is ">" _ && _); [discriminate|].
  destruct (char_is "<" _ && _); [discriminate|].
  destruct (char_is "!" _ && _); [discriminate|].
  destruct (lookup _ operators) as [k|] eqn:E; cbn [fst type]; [|discriminate].
  revert E; unfold operators; simpl.
  repeat (destruct (String.eqb _ _); [intros [= <-]; discriminate|]).
  discriminate.
Qed.

(** Every NUMBER token of the lexer starts with a digit and holds digits and
    points only. *)
Lemma tokenize_loop_numbers (fuel : nat) :
  forall (st : state) (tokens : list Token),
    tokenize_loop fuel st = Some tokens ->
    Forall (fun t => type t = NUMBER -> number_lexeme (value t) = true) tokens.
Proof.
  induction fuel as [|fuel IH]; intros st tokens; [discriminate|].
  cbn [tokenize_loop].
  destruct (_current_char st); [|intros [= <-]; repeat constructor; discriminate].
  set (st1 := _skip_whitespace st).
  unfold _current_char.
  destruct (rest st1) as [|c r] eqn:Hst1;
    [intros [= <-]; repeat constructor; discriminate|].
  assert (Hcons : forall (tok : Token) (st' : state) tokens,
             (type tok = NUMBER -> number_lexeme (value tok) = true) ->
             option_map (cons tok) (tokenize_loop fuel st') = Some tokens ->
             Forall (fun t => type t = NUMBER -> number_lexeme (value t) = true)
               tokens).
  { intros tok st' ts Hk.
    destruct (tokenize_loop fuel st') as [ts'|] eqn:E; [|discriminate].
    intros [= <-]. constructor; [exact Hk | exact (IH _ _ E)]. }
  destruct (Py.isdigit c) eqn:Hd.
  { pose proof (read_number_lexeme st1 c r Hst1 Hd) as Hn.
    destruct (_read_number st1) as [tok st']; cbn [fst] in Hn.
    apply Hcons; intros _; exact Hn. }
  destruct (Ascii.eqb c Py.double_quote || Ascii.eqb c "'").
  { pose proof (read_string_spec st1 c r Hst1) as [Hk _].
    destruct (_read_string st1) as [tok st']; cbn [fst] in Hk.
    apply Hcons; rewrite Hk; discriminate. }
  destruct (Py.isalpha c || Ascii.eqb c "_").
  { pose proof (read_word_not_number st1) as Hk.
    destruct (_read_word st1) as [tok st']; cbn [fst] in Hk.
    apply Hcons; intros H; contradiction. }
  pose proof (read_operator_not_number st1) as Hk.
  destruct (_read_operator st1) as [tok st']; cbn [fst] in Hk.
  destruct (TokenType.eqb (type tok) UNKNOWN); [apply IH|].
  apply Hcons; intros H; contradiction.
Qed.

End LexerFacts.

(* ================================================================== *)
(** ** Preprocessing a preprocessed text *)
(* ================================================================== *)

Module PreprocessFacts.

Import Lexer.

Lemma lower_char_idempotent (c : ascii) :
  Py.lower_char (Py.lower_char c) = Py.lower_char c.
Proof. destruct c as [[] [] [] [] [] [] [] []]; reflexivity. Qed.

Lemma lower_idempotent (s : string) : is_lowered (Py.lower s).
Proof.
  unfold is_lowered; induction s as [|c s IH]; simpl;
    [reflexivity | rewrite lower_char_idempotent, IH; reflexivity].
Qed.

Lemma lowered_cons (c : ascii) (s : string) :
  is_lowered (String c s) <-> Py.lower_char c = c /\ is_lowered s.
Proof.
  unfold is_lowered; simpl; split.
  - intros [= H1 H2]; split; assumption.
  - intros [-> ->]; reflexivity.
Qed.

Lemma lowered_app (a b : string) :
  is_lowered a -> is_lowered b -> is_lowered (a ++ b).
Proof.
  induction a as [|c a IH]; simpl; intros Ha Hb; [exact Hb|].
  apply lowered_cons in Ha; destruct Ha as [Hc Ha].
  apply lowered_cons; split; [exact Hc | apply IH; assumption].
Qed.

Lemma lowered_lstrip (s : string) : is_lowered s -> is_lowered (Py.lstrip s).
Proof.
  induction s as [|c s IH]; simpl; intros H; [exact H|].
  destruct (Py.isspace c); [|exact H].
  apply lowered_cons in H; apply IH, H.
Qed.

Lemma lowered_rstrip (s : string) : is_lowered s -> is_lowered (Py.rstrip s).
Proof.
  induction s as [|c s IH]; simpl; intros H; [exact H|].
  apply lowered_cons in H; destruct H as [Hc Hs].
  specialize (IH Hs).
  destruct (Py.rstrip s) as [|d r].
  - destruct (Py.isspace c); [reflexivity|].
    apply lowered_cons; split; [exact Hc | reflexivity].
  - apply lowered_cons; split; assumption.
Qed.

Lemma lowered_replace_from (old new : string) :
  is_lowered new ->
  forall (s : string) (skip : nat),
    is_lowered s -> is_lowered (Py.replace_from old new skip s).
Proof.
  intros Hnew s; induction s as [|c s IH]; intros skip H;
    cbn [Py.replace_from]; [exact H|].
  apply lowered_cons in H; destruct H as [Hc Hs].
  destruct skip as [|k]; [|apply IH; exact Hs].
  destruct (Py.startswith old (String c s)).
  - apply lowered_app; [exact Hnew | apply IH; exact Hs].
  - apply lowered_cons; split; [exact Hc | apply IH; exact Hs].
Qed.

Lemma lowered_replace_phrases (phrases : list (string * string)) :
  Forall (fun entry => is_lowered (snd entry)) phrases ->
  forall t, is_lowered t -> is_lowered (replace_phrases phrases t).
Proof.
  induction 1 as [|[phrase symbol] rest Hsym _ IH]; intros t Ht; simpl;
    [exact Ht|].
  apply IH, lowered_replace_from; [|exact Ht].
  simpl in Hsym.
  apply (lowered_app " "); [reflexivity|].
  apply lowered_app; [exact Hsym | reflexivity].
Qed.

Lemma lowered_collapse (s : string) :
  is_lowered s -> forall b, is_lowered (Py.collapse_from b s).
Proof.
  induction s as [|c s IH]; intros H b; simpl; [exact H|].
  apply lowered_cons in H; destruct H as [Hc Hs].
  destruct (Py.isspace c).
  - destruct b; [apply IH; exact Hs|].
    apply lowered_cons; split; [reflexivity | apply IH; exact Hs].
  - apply lowered_cons; split; [exact Hc | apply IH; exact Hs].
Qed.

Lemma symbols_lowered :
  Forall (fun entry : string * string => is_lowered (snd entry))
    OPERATOR_PHRASES.
Proof. repeat constructor. Qed.

(** The preprocessed text is in lower case. *)
Lemma preprocess_lowered (text : string) : is_lowered (_preprocess text).
Proof.
  unfold _preprocess, Py.collapse_whitespace, Py.strip.
  apply lowered_collapse, lowered_replace_phrases; [exact symbols_lowered|].
  apply lowered_rstrip, lowered_lstrip, lower_idempotent.
Qed.

(** Replacing a phrase that does not occur changes nothing. *)
Lemma replace_absent (old new s : string) :
  Py.occurs old s = false -> Py.replace old new s = s.
Proof.
  unfold Py.replace; induction s as [|c s IH]; intros H; [reflexivity|].
  cbn [Py.occurs] in H. apply orb_false_iff in H; destruct H as [H1 H2].
  cbn [Py.replace_from]. rewrite H1, (IH H2); reflexivity.
Qed.

Lemma replace_phrases_absent (phrases : list (string * string)) (s : string) :
  existsb (fun entry => Py.occurs (fst entry) s) phrases = false ->
  replace_phrases phrases s = s.
Proof.
  induction phrases as [|[phrase symbol] rest IH]; intros H; [reflexivity|].
  cbn [existsb fst] in H. apply orb_false_iff in H; destruct H as [H1 H2].
  cbn [replace_phrases]. rewrite (replace_absent _ _ _ H1). apply IH, H2.
Qed.

(** Collapsing whitespace twice is collapsing it once. *)
Lemma collapse_idempotent (s : string) :
  forall b, Py.collapse_from b (Py.collapse_from b s) = Py.collapse_from b s.
Proof.
  induction s as [|c s IH]; intros b; [reflexivity|].
  cbn [Py.collapse_from].
  destruct (Py.isspace c) eqn:Hc.
  - destruct b; [apply IH|].
    cbn [Py.collapse_from].
    change (Py.isspace " ") with true; cbn iota.
    rewrite IH; reflexivity.
  - cbn [Py.collapse_from]. rewrite Hc, IH; reflexivity.
Qed.

(** A preprocessed text without phrase and without blank at either end is
    left as it is by [_preprocess]. *)
Lemma preprocess_fixed (text : string) :
  has_operator_phrase (_preprocess text) = false ->
  Py.strip (_preprocess text) = _preprocess text ->
  _preprocess (_preprocess text) = _preprocess text.
Proof.
  intros Hphrase Hstrip.
  unfold _preprocess at 1.
  rewrite (preprocess_lowered text), Hstrip.
  rewrite (replace_phrases_absent _ _ Hphrase).
  unfold _preprocess, Py.collapse_whitespace.
  apply collapse_idempotent.
Qed.

End PreprocessFacts.

(* ================================================================== *)
(** ** Properties of the parser *)
(* ================================================================== *)

Module ParserFacts.

Import TokenType Parser.

(** Looking at the current token leaves the cursor where it is. *)
Lemma current_token_state (st st' : state) (t : Token) :
  _current_token st = Ok (t, st') -> st' = st.
Proof.
  unfold _current_token.
  destruct (nth_error (tokens st) (pos st)); [intros [= _ <-]; reflexivity|].
  destruct (tokens st); [discriminate | intros [= _ <-]; reflexivity].
Qed.

Lemma current_kind_token (st : state) (k : TokenType.t) :
  current_kind st = Some k ->
  exists t, _current_token st = Ok (t, st) /\ type t = k.
Proof.
  unfold current_kind.
  destruct (_current_token st) as [[t st']| |] eqn:E; try discriminate.
  intros [= <-]. exists t.
  pose proof (current_token_state _ _ _ E) as ->. split; reflexivity.
Qed.

Lemma match_at (st : state) (t : Token) (types : list TokenType.t) :
  _current_token st = Ok (t, st) ->
  _match types st = Ok (existsb (TokenType.eqb (type t)) types, st).
Proof. intros H; unfold _match, bind, ret; rewrite H; reflexivity. Qed.

Lemma advance_at (st : state) (t : Token) :
  _current_token st = Ok (t, st) ->
  _advance st = Ok (t, mkState (tokens st) (S (pos st))).
Proof. intros H; unfold _advance, bind; rewrite H; reflexivity. Qed.

(** One round of the AND/OR loop: the connective under the cursor is read,
    then a simple condition, and the tree built so far becomes the left
    child of the new node. *)
Lemma condition_loop_round (fuel fuel0 : nat) (left right : ConditionNode)
  (st st' : state) (k : TokenType.t) :
  current_kind st = Some k ->
  k = AND \/ k = OR ->
  _parse_simple_condition fuel0 (mkState (tokens st) (S (pos st)))
    = Ok (right, st') ->
  condition_loop (S fuel) fuel0 left st =
  condition_loop fuel fuel0
    (if TokenType.eqb k AND then AndCondition left right
     else OrCondition left right) st'.
Proof.
  intros Hk Hor Hright.
  destruct (current_kind_token _ _ Hk) as [t [Ht Hty]].
  cbn [condition_loop]. unfold bind at 1.
  rewrite (match_at _ _ _ Ht), Hty.
  assert (Hb : existsb (TokenType.eqb k) [AND; OR] = true)
    by (destruct Hor as [-> | ->]; reflexivity).
  rewrite Hb. unfold bind at 1. rewrite (advance_at _ _ Ht).
  unfold bind at 1. rewrite Hright, Hty.
  destruct (TokenType.eqb k AND); reflexivity.
Qed.

(** The loop stops at the first token that is neither AND nor OR. *)
Lemma condition_loop_exit (fuel fuel0 : nat) (left : ConditionNode)
  (st : state) (k : TokenType.t) :
  current_kind st = Some k ->
  k <> AND -> k <> OR ->
  condition_loop (S fuel) fuel0 left st = Ok (left, st).
Proof.
  intros Hk Hand Hor.
  destruct (current_kind_token _ _ Hk) as [t [Ht Hty]].
  cbn [condition_loop]. unfold bind at 1.
  rewrite (match_at _ _ _ Ht), Hty.
  assert (Hb : existsb (TokenType.eqb k) [AND; OR] = false).
  { cbn [existsb]. unfold TokenType.eqb.
    destruct (TokenType.eq_dec k AND); [contradiction|].
    destruct (TokenType.eq_dec k OR); [contradiction|]. reflexivity. }
  rewrite Hb. reflexivity.
Qed.

End ParserFacts.

(* ================================================================== *)
(** ** The value of a NUMBER token *)
(* ================================================================== *)

Module NumberFacts.

Import TokenType Parser.

(** What a digit or a point is not. *)
Lemma digit_or_point_char (c : ascii) :
  Py.isdigit c || Ascii.eqb c "." = true ->
  Py.isspace c = false /\ Ascii.eqb c "_" = false /\
  Ascii.eqb (Py.lower_char c) "e" = false.
Proof.
  destruct c as [[] [] [] [] [] [] [] []]; intros H;
    solve [discriminate H | repeat split; reflexivity].
Qed.

Lemma digit_char (c : ascii) :
  Py.isdigit c = true ->
  Ascii.eqb c "+" = false /\ Ascii.eqb c "-" = false /\
  Ascii.eqb c "." = false /\
  Ascii.eqb (Py.lower_char c) "i" = false /\
  Ascii.eqb (Py.lower_char c) "n" = false.
Proof.
  destruct c as [[] [] [] [] [] [] [] []]; intros H;
    solve [discriminate H | repeat split; reflexivity].
Qed.

Lemma number_lexeme_digits_or_points (s : string) :
  number_lexeme s = true -> digits_or_points s = true.
Proof.
  destruct s as [|c r]; [discriminate|]. cbn [number_lexeme digits_or_points].
  intros H; apply andb_true_iff in H; destruct H as [-> ->]; reflexivity.
Qed.

(** [strip], the underscore check and the sign leave a number lexeme alone. *)

Lemma lstrip_number (s : string) :
  digits_or_points s = true -> Py.lstrip s = s.
Proof.
  destruct s as [|c r]; [reflexivity|]. cbn [digits_or_points Py.lstrip].
  intros H; apply andb_true_iff in H; destruct H as [Hc _].
  destruct (digit_or_point_char c Hc) as [-> _]; reflexivity.
Qed.

Lemma rstrip_number (s : string) :
  digits_or_points s = true -> Py.rstrip s = s.
Proof.
  induction s as [|c r IH]; [reflexivity|]. cbn [digits_or_points Py.rstrip].
  intros H; apply andb_true_iff in H; destruct H as [Hc Hr].
  rewrite (IH Hr).
  destruct (digit_or_point_char c Hc) as [-> _].
  destruct r; reflexivity.
Qed.

Lemma strip_number (s : string) :
  digits_or_points s = true -> Py.strip s = s.
Proof.
  intros H; unfold Py.strip. rewrite (lstrip_number s H). apply rstrip_number, H.
Qed.

Lemma drop_underscores_number (s : string) :
  digits_or_points s = true ->
  forall prev, Ascii.eqb prev "_" = false ->
               Py.drop_underscores prev s = Some s.
Proof.
  induction s as [|c r IH]; intros H prev Hprev; cbn [Py.drop_underscores].
  - rewrite Hprev; reflexivity.
  - cbn [digits_or_points] in H.
    apply andb_true_iff in H; destruct H as [Hc Hr].
    destruct (digit_or_point_char c Hc) as [_ [Hu _]].
    rewrite Hu, Hprev. cbn [andb]. rewrite (IH Hr c Hu). reflexivity.
Qed.

Lemma split_sign_number (s : string) :
  number_lexeme s = true -> Py.split_sign s = (false, s).
Proof.
  destruct s as [|c r]; [discriminate|]. cbn [number_lexeme Py.split_sign].
  intros H; apply andb_true_iff in H; destruct H as [Hc _].
  destruct (digit_char c Hc) as [-> [-> _]]; reflexivity.
Qed.

(** A lexeme without point is a [digitpart]. *)

Lemma no_point_all_digits (s : string) :
  digits_or_points s = true -> count_points s = 0 -> Py.all_digits s = true.
Proof.
  induction s as [|c r IH]; [reflexivity|].
  cbn [digits_or_points count_points Py.all_digits].
  intros H Hn; apply andb_true_iff in H; destruct H as [Hc Hr].
  destruct (Ascii.eqb c "."); [discriminate Hn|].
  rewrite orb_false_r in Hc. rewrite Hc, (IH Hr Hn); reflexivity.
Qed.

Lemma digitpart_all_digits (s : string) :
  Py.all_digits s = true ->
  forall acc, exists n, Py.digitpart acc true s = Some n.
Proof.
  induction s as [|c r IH]; intros H acc; cbn [Py.digitpart].
  - exists acc; reflexivity.
  - cbn [Py.all_digits] in H.
    apply andb_true_iff in H; destruct H as [Hc Hr].
    rewrite Hc. apply IH, Hr.
Qed.

Lemma count_digits_all_digits (s : string) :
  Py.all_digits s = true -> Py.count_digits s = String.length s.
Proof.
  induction s as [|c r IH]; [reflexivity|].
  cbn [Py.all_digits Py.count_digits String.length]. intros H.
  apply andb_true_iff in H; destruct H as [Hc Hr].
  rewrite Hc, (IH Hr). reflexivity.
Qed.

(** [int] accepts a number lexeme without point up to the cap on digits,
    and rejects a longer one. *)
Lemma int_number (s : string) :
  number_lexeme s = true -> count_points s = 0 ->
  if (Py.int_max_str_digits <? String.length s)%nat
  then Py.int s = None
  else exists n, Py.int s = Some n.
Proof.
  intros Hs Hn.
  pose proof (number_lexeme_digits_or_points s Hs) as Hdp.
  unfold Py.int.
  rewrite (strip_number s Hdp), (split_sign_number s Hs).
  pose proof (no_point_all_digits s Hdp Hn) as Hall.
  rewrite (count_digits_all_digits s Hall).
  destruct s as [|c r]; [discriminate|].
  cbn [Py.all_digits] in Hall.
  apply andb_true_iff in Hall; destruct Hall as [Hc Hr].
  cbn [Py.digitpart]. rewrite Hc.
  destruct (digitpart_all_digits r Hr (10 * 0 + Py.digit_value c)) as [n ->].
  destruct (Py.int_max_str_digits <? String.length (String c r))%nat;
    [reflexivity | eexists; reflexivity].
Qed.

(** Reading the digits of a lexeme stops at its end or at its first point. *)
Lemma read_digits_number (s : string) :
  digits_or_points s = true ->
  forall acc,
    (count_points s = 0 /\
     exists v n, Py.read_digits acc s = (v, n, EmptyString)) \/
    (exists v n f,
        Py.read_digits acc s = (v, n, String "." f) /\
        digits_or_points f = true /\
        count_points s = S (count_points f)).
Proof.
  induction s as [|c r IH]; intros H acc.
  - left; split; [reflexivity | exists acc, 0; reflexivity].
  - cbn [digits_or_points] in H.
    apply andb_true_iff in H; destruct H as [Hc Hr].
    cbn [Py.read_digits count_points].
    destruct (Py.isdigit c) eqn:Hd.
    + destruct (digit_char c Hd) as [_ [_ [-> _]]].
      destruct (IH Hr (10 * acc + Py.digit_value c)%N)
        as [[Hn [v [n E]]] | [v [n [f [E [Hf Hn]]]]]]; rewrite E.
      * left; split; [exact Hn | exists v, (S n); reflexivity].
      * right; exists v, (S n), f; repeat split; assumption.
    + cbn [orb] in Hc. apply Ascii.eqb_eq in Hc; subst c.
      right; exists acc, 0, r.
      split; [reflexivity | split; [exact Hr | reflexivity]].
Qed.

Lemma read_digits_head (c : ascii) (r : string) (acc : N) :
  Py.isdigit c = true ->
  exists v n rest, Py.read_digits acc (String c r) = (v, S n, rest).
Proof.
  intros Hc; cbn [Py.read_digits]; rewrite Hc.
  destruct (Py.read_digits _ r) as [[v n] rest].
  exists v, n, rest; reflexivity.
Qed.

Lemma not_inf_nan (s : string) :
  number_lexeme s = true ->
  String.eqb (Py.lower s) "inf" || String.eqb (Py.lower s) "infinity" = false /\
  String.eqb (Py.lower s) "nan" = false.
Proof.
  destruct s as [|c r]; [discriminate|]. cbn [number_lexeme].
  intros H; apply andb_true_iff in H; destruct H as [Hc _].
  destruct (digit_char c Hc) as [_ [_ [_ [Hi Hn]]]].
  cbn [Py.lower String.eqb]. rewrite Hi, Hn; split; reflexivity.
Qed.

(** [float] accepts a number lexeme with one point and rejects one with
    more. *)
Lemma to_float_number (s : string) :
  number_lexeme s = true ->
  match count_points s with
  | 0 => True
  | 1 => exists x, Py.to_float s = Some x
  | _ => Py.to_float s = None
  end.
Proof.
  intros Hs.
  pose proof (number_lexeme_digits_or_points s Hs) as Hdp.
  destruct (count_points s) as [|[|k]] eqn:Hn; [exact I| |];
    unfold Py.to_float;
    rewrite (strip_number s Hdp),
            (drop_underscores_number s Hdp " "%char eq_refl),
            (split_sign_number s Hs);
    unfold Py.read_unsigned_float;
    destruct (not_inf_nan s Hs) as [-> ->];
    (destruct s as [|c r]; [discriminate|]);
    cbn [number_lexeme] in Hs;
    apply andb_true_iff in Hs; destruct Hs as [Hc Hr];
    destruct (read_digits_head c r 0%N Hc) as [ip [n1 [r1 E1]]];
    destruct (read_digits_number (String c r) Hdp 0%N)
      as [[H0 _] | [v [n [f [E [Hf Hcount]]]]]];
    try (rewrite H0 in Hn; discriminate Hn);
    rewrite E1 in E; injection E as <- <- ->; rewrite E1;
    rewrite Hn in Hcount; injection Hcount as Hcount.
  - destruct (read_digits_number f Hf ip)
      as [[_ [m [n2 E2]]] | [m [n2 [f' [_ [_ Hc2]]]]]];
      [|rewrite <- Hcount in Hc2; discriminate Hc2].
    rewrite E2. cbn [Nat.add Py.read_exponent]. eexists; reflexivity.
  - destruct (read_digits_number f Hf ip)
      as [[H0 _] | [m [n2 [f' [E2 _]]]]];
      [rewrite H0 in Hcount; discriminate Hcount|].
    rewrite E2. cbn [Nat.add]. reflexivity.
Qed.

Lemma contains_point (s : string) :
  Py.contains "." s = negb (Nat.eqb (count_points s) 0).
Proof.
  induction s as [|c r IH]; [reflexivity|].
  cbn [Py.contains count_points]. rewrite IH.
  rewrite Ascii.eqb_sym.
  destruct (Ascii.eqb c "."); [reflexivity|].
  reflexivity.
Qed.

(** How [_parse_value] reads a NUMBER token whose lexeme is a digit followed
    by digits and points: an integer without point, unless the lexeme is
    longer than the cap on digits, a float with one point, and ValueError
    with two points or more. *)
Lemma parse_value_number (toks : list Token) (p : nat) (s : string) (off : nat) :
  nth_error toks p = Some (mkToken NUMBER s off) ->
  number_lexeme s = true ->
  match count_points s with
  | 0 =>
      if (Py.int_max_str_digits <? String.length s)%nat
      then _parse_value (mkState toks p) = Raise ValueError
      else exists n,
          _parse_value (mkState toks p) = Ok (VInt n, mkState toks (S p))
  | 1 => exists x,
      _parse_value (mkState toks p) = Ok (VFloat x, mkState toks (S p))
  | _ => _parse_value (mkState toks p) = Raise ValueError
  end.
Proof.
  intros Hnth Hs.
  assert (Hcur : _current_token (mkState toks p)
                 = Ok (mkToken NUMBER s off, mkState toks p))
    by (unfold _current_token; cbn [tokens pos]; rewrite Hnth; reflexivity).
  unfold _parse_value, bind. rewrite Hcur.
  cbn [type value]. change (TokenType.eqb NUMBER NUMBER) with true. cbn iota.
  cbv beta. rewrite (ParserFacts.advance_at _ _ Hcur). cbn [tokens pos].
  rewrite contains_point.
  pose proof (to_float_number s Hs) as Hf.
  destruct (count_points s) as [|[|k]] eqn:Hn; cbn [Nat.eqb negb].
  - pose proof (int_number s Hs Hn) as Hi.
    destruct (Py.int_max_str_digits <? String.length s)%nat.
    + rewrite Hi. reflexivity.
    + destruct Hi as [n ->]. exists n; reflexivity.
  - destruct Hf as [x ->]. exists x; reflexivity.
  - rewrite Hf. reflexivity.
Qed.

End NumberFacts.


(* ================================================================== *)
(** ** Invariants of the scanning loop *)
(* ================================================================== *)

Module LexerInvariants.

Import TokenType Lexer.

(** *** What the readers consume *)

Lemma span_append (p : ascii -> bool) (s : string) :
  fst (Py.span p s) ++ snd (Py.span p s) = s.
Proof.
  induction s as [|c s IH]; [reflexivity|].
  cbn [Py.span]. destruct (p c); [|reflexivity].
  destruct (Py.span p s) as [a b]; cbn [fst snd] in *.
  cbn [append]. rewrite IH; reflexivity.
Qed.

Lemma span_rest_head (p : ascii -> bool) (s : string) :
  match snd (Py.span p s) with
  | EmptyString => True
  | String c _ => p c = false
  end.
Proof.
  induction s as [|c s IH]; [exact I|].
  cbn [Py.span]. destruct (p c) eqn:Hc; [|exact Hc].
  destruct (Py.span p s) as [a b]; exact IH.
Qed.

Lemma span_all (p : ascii -> bool) (s : string) :
  forallb p (list_ascii_of_string (fst (Py.span p s))) = true.
Proof.
  induction s as [|c s IH]; [reflexivity|].
  cbn [Py.span]. destruct (p c) eqn:Hc; [|reflexivity].
  destruct (Py.span p s) as [a b]; cbn [fst list_ascii_of_string forallb] in *.
  rewrite Hc, IH; reflexivity.
Qed.

Lemma read_while_spec (p : ascii -> bool) (st : state) :
  rest st = fst (read_while p st) ++ rest (snd (read_while p st)) /\
  pos (snd (read_while p st)) = pos st + String.length (fst (read_while p st)).
Proof.
  unfold read_while.
  pose proof (span_append p (rest st)) as H.
  destruct (Py.span p (rest st)) as [a b]; cbn [fst snd rest pos] in *.
  split; [symmetry; exact H | reflexivity].
Qed.

Lemma read_while_head (p : ascii -> bool) (st : state) (c : ascii) (r : string) :
  rest st = String c r -> p c = true ->
  exists more, fst (read_while p st) = String c more.
Proof.
  intros Hr Hc; unfold read_while; rewrite Hr. cbn [Py.span]; rewrite Hc.
  destruct (Py.span p r) as [a b]; cbn [fst]. exists a; reflexivity.
Qed.

(** *** The rule of the loop

    A property [Q] holds of every token the loop emits from a state that
    satisfies [Inv], once each branch of the loop keeps [Inv] and emits
    tokens that satisfy [Q]. *)

Section LoopRule.

Variable Inv : state -> Prop.
Variable Q : Token -> Prop.

Hypothesis skip_rule : forall st, Inv st -> Inv (_skip_whitespace st).

Hypothesis eof_rule :
  forall st, Inv st -> rest st = EmptyString ->
             Q (mkToken EOF EmptyString (pos st)).

Hypothesis number_rule :
  forall st c r, Inv st -> rest st = String c r -> Py.isdigit c = true ->
    Q (fst (_read_number st)) /\ Inv (snd (_read_number st)).

Hypothesis string_rule :
  forall st c r, Inv st -> rest st = String c r ->
    c = Py.double_quote \/ c = "'"%char ->
    Q (fst (_read_string st)) /\ Inv (snd (_read_string st)).

Hypothesis word_rule :
  forall st c r, Inv st -> rest st = String c r ->
    Py.isalpha c || Ascii.eqb c "_" = true ->
    Q (fst (_read_word st)) /\ Inv (snd (_read_word st)).

Hypothesis operator_rule :
  forall st c r, Inv st -> rest st = String c r ->
    (type (fst (_read_operator st)) <> UNKNOWN -> Q (fst (_read_operator st)))
    /\ Inv (snd (_read_operator st)).

Lemma tokenize_loop_rule (fuel : nat) :
  forall (st : state) (tokens : list Token),
    Inv st -> tokenize_loop fuel st = Some tokens -> Forall Q tokens.
Proof.
  induction fuel as [|fuel IH]; intros st tokens HI; [discriminate|].
  cbn [tokenize_loop]. unfold _current_char at 1.
  destruct (rest st) as [|c0 r0] eqn:Hst.
  { intros [= <-]. constructor; [apply eof_rule; assumption | constructor]. }
  pose proof (skip_rule st HI) as HI1.
  set (st1 := _skip_whitespace st) in *.
  unfold _current_char.
  destruct (rest st1) as [|c r] eqn:Hst1.
  { intros [= <-]. constructor; [apply eof_rule; assumption | constructor]. }
  assert (Hcons : forall (tok : Token) (st' : state) ts,
             Q tok -> Inv st' ->
             option_map (cons tok) (tokenize_loop fuel st') = Some ts ->
             Forall Q ts).
  { intros tok st' ts Hq Hi.
    destruct (tokenize_loop fuel st') as [ts'|] eqn:E; [|discriminate].
    intros [= <-]. constructor; [exact Hq | exact (IH _ _ Hi E)]. }
  destruct (Py.isdigit c) eqn:Hd.
  { destruct (number_rule st1 c r HI1 Hst1 Hd) as [Hq Hi].
    destruct (_read_number st1) as [tok st']. apply Hcons; assumption. }
  destruct (Ascii.eqb c Py.double_quote || Ascii.eqb c "'") eqn:Hquote.
  { assert (Hc : c = Py.double_quote \/ c = "'"%char).
    { apply orb_true_iff in Hquote.
      destruct Hquote as [H|H]; apply Ascii.eqb_eq in H; auto. }
    destruct (string_rule st1 c r HI1 Hst1 Hc) as [Hq Hi].
    destruct (_read_string st1) as [tok st']. apply Hcons; assumption. }
  destruct (Py.isalpha c || Ascii.eqb c "_") eqn:Ha.
  { destruct (word_rule st1 c r HI1 Hst1 Ha) as [Hq Hi].
    destruct (_read_word st1) as [tok st']. apply Hcons; assumption. }
  destruct (operator_rule st1 c r HI1 Hst1) as [Hq Hi].
  destruct (_read_operator st1) as [tok st']; cbn [fst snd] in *.
  unfold TokenType.eqb.
  destruct (TokenType.eq_dec (type tok) UNKNOWN) as [Hu|Hu].
  - apply IH; exact Hi.
  - apply Hcons; [apply Hq; exact Hu | exact Hi].
Qed.

End LoopRule.

(** *** The kinds and the shape of the lexemes *)

Lemma read_word_kind (st : state) :
  never_emitted (type (fst (_read_word st))) = false /\
  type (fst (_read_word st)) <> STRING /\
  type (fst (_read_word st)) <> EOF /\
  value (fst (_read_word st))
  = fst (read_while (fun c => Py.isalnum c || Ascii.eqb c "_") st) /\
  position (fst (_read_word st)) = pos st /\
  snd (_read_word st)
  = snd (read_while (fun c => Py.isalnum c || Ascii.eqb c "_") st).
Proof.
  unfold _read_word.
  destruct (read_while _ st) as [result st'].
  destruct (lookup (Py.lower result) KEYWORDS) as [k|] eqn:E;
    cbn [fst snd type value position]; [|repeat split; discriminate].
  assert (Hk : never_emitted k = false /\ k <> STRING /\ k <> EOF).
  { revert E; unfold KEYWORDS; simpl.
    repeat (destruct (String.eqb _ _);
            [intros [= <-]; repeat split; discriminate|]).
    discriminate. }
  destruct Hk as [H1 [H2 H3]]. repeat split; assumption.
Qed.

Lemma lookup_in {A : Type} (k : string) (d : list (string * A)) (v : A) :
  lookup k d = Some v -> In (k, v) d.
Proof.
  induction d as [|[k' v'] d IH]; cbn [lookup]; [discriminate|].
  destruct (String.eqb k k') eqn:E.
  - apply String.eqb_eq in E; subst k'. intros [= <-]; left; reflexivity.
  - intros H; right; exact (IH H).
Qed.

(** What [_read_operator] returns: the two-character operator at the head
    of the text, else the one-character operator there, else UNKNOWN. *)
Lemma read_operator_cases (st : state) (c : ascii) (r : string) :
  rest st = String c r ->
  (exists k r', r = String "=" r' /\
     In (String c "=", k) [(">=", GREATER_EQ); ("<=", LESS_EQ); ("!=", NOT_EQUALS)] /\
     _read_operator st
     = (mkToken k (String c "=") (pos st), mkState r' (S (S (pos st))))) \/
  (exists k,
     (k = UNKNOWN \/ In (String c EmptyString, k) operators) /\
     _read_operator st
     = (mkToken k (String c EmptyString) (pos st), mkState r (S (pos st)))).
Proof.
  intros Hr. unfold _read_operator, _current_char, _peek, _advance.
  rewrite Hr. cbn [char_is string_of_char rest pos].
  assert (Hone :
    exists k,
      (k = UNKNOWN \/ In (String c EmptyString, k) operators) /\
      match lookup (String c "") operators with
      | Some k0 => (mkToken k0 (String c "") (pos st), mkState r (S (pos st)))
      | None => (mkToken UNKNOWN (String c "") (pos st), mkState r (S (pos st)))
      end
      = (mkToken k (String c EmptyString) (pos st), mkState r (S (pos st)))).
  { destruct (lookup (String c "") operators) as [k|] eqn:E.
    - exists k; split; [right; exact (lookup_in _ _ _ E) | reflexivity].
    - exists UNKNOWN; split; [left; reflexivity | reflexivity]. }
  destruct r as [|d r']; cbn [char_is].
  - rewrite !andb_false_r. right. exact Hone.
  - destruct (Ascii.eqb ">" c && Ascii.eqb "=" d) eqn:H1.
    { apply andb_true_iff in H1; destruct H1 as [Ha Hb].
      apply Ascii.eqb_eq in Ha, Hb; subst c d.
      left; exists GREATER_EQ, r'.
      split; [reflexivity | split; [left; reflexivity | reflexivity]]. }
    destruct (Ascii.eqb "<" c && Ascii.eqb "=" d) eqn:H2.
    { apply andb_true_iff in H2; destruct H2 as [Ha Hb].
      apply Ascii.eqb_eq in Ha, Hb; subst c d.
      left; exists LESS_EQ, r'.
      split; [reflexivity | split; [right; left; reflexivity | reflexivity]]. }
    destruct (Ascii.eqb "!" c && Ascii.eqb "=" d) eqn:H3.
    { apply andb_true_iff in H3; destruct H3 as [Ha Hb].
      apply Ascii.eqb_eq in Ha, Hb; subst c d.
      left; exists NOT_EQUALS, r'.
      split; [reflexivity | split; [right; right; left; reflexivity | reflexivity]]. }
    right. exact Hone.
Qed.

End LexerInvariants.

(* ================================================================== *)
(** ** Kinds and lexemes of the tokens *)
(* ================================================================== *)

Module TokenFacts.

Import TokenType Lexer LexerInvariants.

Lemma operator_token_cases (st : state) (c : ascii) (r : string) :
  rest st = String c r ->
  let tok := fst (_read_operator st) in
  type tok = UNKNOWN \/
  (never_emitted (type tok) = false /\ symbol_of (type tok) = Some (value tok) /\
   type tok <> EOF /\ type tok <> STRING /\ type tok <> NUMBER).
Proof.
  intros Hr.
  destruct (read_operator_cases st c r Hr)
    as [[k [r' [_ [Hin ->]]]] | [k [[-> | Hin] ->]]]; cbn [fst type value].
  - right. simpl in Hin.
    destruct Hin as [[= <- <-] | [[= <- <-] | [[= <- <-] | []]]];
      repeat split; discriminate.
  - left; reflexivity.
  - right. unfold operators in Hin; simpl in Hin.
    repeat (destruct Hin as [[= <- <-] | Hin];
            [repeat split; discriminate|]).
    destruct Hin.
Qed.

(** The kinds SHOW, LIST, GET, UNIQUE and UNKNOWN never come out of the
    loop. *)
Lemma loop_kinds (fuel : nat) (st : state) (tokens : list Token) :
  tokenize_loop fuel st = Some tokens ->
  Forall (fun t => never_emitted (type t) = false) tokens.
Proof.
  apply (tokenize_loop_rule (fun _ => True)); try exact I; intros.
  - exact I.
  - reflexivity.
  - split; [|exact I].
    destruct (LexerFacts.read_number_spec st0 c r H0 H1) as [-> _]; reflexivity.
  - split; [|exact I].
    destruct (LexerFacts.read_string_spec st0 c r H0) as [-> _]; reflexivity.
  - split; [apply read_word_kind | exact I].
  - split; [|exact I]. intros Hu.
    destruct (operator_token_cases st0 c r H0) as [Hk | [Hk _]];
      [contradiction | exact Hk].
Qed.

Lemma word_lexeme_span (c : ascii) (more : string) (p : ascii -> bool) :
  Py.isalpha c || Ascii.eqb c "_" = true ->
  forallb (fun d => Py.isalnum d || Ascii.eqb d "_")
    (list_ascii_of_string (String c more)) = true ->
  word_lexeme (String c more) = true.
Proof.
  intros Hc Hall. cbn [word_lexeme]. rewrite Hc.
  cbn [list_ascii_of_string forallb] in Hall.
  apply andb_true_iff in Hall; destruct Hall as [_ ->]; reflexivity.
Qed.

Lemma read_word_fits (st : state) (c : ascii) (r : string) :
  rest st = String c r ->
  Py.isalpha c || Ascii.eqb c "_" = true ->
  lexeme_fits (fst (_read_word st)).
Proof.
  intros Hr Hc.
  assert (Hp : Py.isalnum c || Ascii.eqb c "_" = true).
  { unfold Py.isalnum. apply orb_true_iff in Hc; destruct Hc as [-> | ->];
      [reflexivity | apply orb_true_r]. }
  destruct (read_while_head (fun c => Py.isalnum c || Ascii.eqb c "_") st c r Hr Hp)
    as [more Hmore].
  assert (Hw : word_lexeme
                 (fst (read_while (fun c => Py.isalnum c || Ascii.eqb c "_") st))
               = true).
  { rewrite Hmore. apply (word_lexeme_span c more (fun _ => true) Hc).
    rewrite <- Hmore. unfold read_while.
    pose proof (span_all (fun c => Py.isalnum c || Ascii.eqb c "_") (rest st)) as H.
    destruct (Py.span _ (rest st)) as [a b]; exact H. }
  unfold _read_word.
  destruct (read_while _ st) as [result st']; cbn [fst] in Hw.
  unfold lexeme_fits.
  destruct (lookup (Py.lower result) KEYWORDS) as [k|] eqn:E;
    cbn [fst type value]; [|split; assumption].
  assert (Hk : symbol_of k = None /\ k <> NUMBER /\ k <> STRING /\ k <> EOF
               /\ TokenType.eqb k IDENTIFIER = false).
  { revert E; unfold KEYWORDS; simpl.
    repeat (destruct (String.eqb _ _);
            [intros [= <-]; repeat split; discriminate|]).
    discriminate. }
  destruct Hk as [Hs [H1 [H2 [H3 H4]]]].
  destruct k; try contradiction; try discriminate Hs;
    try (cbv in H4; discriminate H4);
    (split; [exact Hw | exact E]).
Qed.

(** The lexeme of every token fits its kind. *)
Lemma loop_lexemes (fuel : nat) (st : state) (tokens : list Token) :
  tokenize_loop fuel st = Some tokens -> Forall lexeme_fits tokens.
Proof.
  apply (tokenize_loop_rule (fun _ => True)); try exact I; intros.
  - exact I.
  - reflexivity.
  - split; [|exact I]. unfold lexeme_fits.
    destruct (LexerFacts.read_number_spec st0 c r H0 H1) as [-> _].
    exact (LexerFacts.read_number_lexeme st0 c r H0 H1).
  - split; [|exact I]. unfold lexeme_fits.
    destruct (LexerFacts.read_string_spec st0 c r H0) as [-> _]; exact I.
  - split; [exact (read_word_fits st0 c r H0 H1) | exact I].
  - split; [|exact I]. intros Hu.
    destruct (operator_token_cases st0 c r H0)
      as [Hk | [_ [Hs [H1 [H2 H3]]]]]; [contradiction|].
    unfold lexeme_fits.
    destruct (type (fst (_read_operator st0))); try contradiction;
      try discriminate Hs; injection Hs as Hs; symmetry; exact Hs.
Qed.

(** *** Lower case *)

Lemma lowered_span (p : ascii -> bool) (s : string) :
  is_lowered s ->
  is_lowered (fst (Py.span p s)) /\ is_lowered (snd (Py.span p s)).
Proof.
  induction s as [|c s IH]; intros H; [split; reflexivity|].
  cbn [Py.span]. destruct (p c); [|split; [reflexivity | exact H]].
  apply PreprocessFacts.lowered_cons in H; destruct H as [Hc Hs].
  destruct (IH Hs) as [Ha Hb].
  destruct (Py.span p s) as [a b]; cbn [fst snd] in *.
  split; [apply PreprocessFacts.lowered_cons; split; assumption | exact Hb].
Qed.

Lemma lowered_read_while (p : ascii -> bool) (st : state) :
  is_lowered (rest st) ->
  is_lowered (fst (read_while p st)) /\
  is_lowered (rest (snd (read_while p st))).
Proof.
  intros H; unfold read_while.
  destruct (lowered_span p (rest st) H) as [Ha Hb].
  destruct (Py.span p (rest st)) as [a b]; split; assumption.
Qed.

Lemma lowered_advance (st : state) :
  is_lowered (rest st) -> is_lowered (rest (_advance st)).
Proof.
  unfold _advance; destruct (rest st) as [|c r]; intros H; [exact H|].
  apply PreprocessFacts.lowered_cons in H; apply H.
Qed.

(** From a text in lower case the loop emits lexemes in lower case. *)
Lemma loop_lowered (fuel : nat) (st : state) (tokens : list Token) :
  is_lowered (rest st) ->
  tokenize_loop fuel st = Some tokens ->
  Forall (fun t => is_lowered (value t)) tokens.
Proof.
  apply (tokenize_loop_rule (fun st => is_lowered (rest st))
           (fun t => is_lowered (value t))).
  - intros st0 H. apply (lowered_read_while Py.isspace st0 H).
  - reflexivity.
  - intros st0 c r H _ _. unfold _read_number.
    destruct (lowered_read_while
                (fun c => Py.isdigit c || Ascii.eqb c ".") st0 H) as [Ha Hb].
    destruct (read_while _ st0); split; assumption.
  - intros st0 c r H Hr _. unfold _read_string, _current_char. rewrite Hr.
    destruct (lowered_read_while (fun d => negb (Ascii.eqb d c))
                (_advance st0) (lowered_advance st0 H)) as [Ha Hb].
    destruct (read_while _ (_advance st0)) as [result st2]; cbn [fst snd] in *.
    split; [exact Ha|].
    destruct (rest st2) eqn:E; [rewrite E; reflexivity|].
    apply lowered_advance; rewrite E; exact Hb.
  - intros st0 c r H _ _.
    destruct (read_word_kind st0) as [_ [_ [_ [Hv [_ Hs]]]]].
    rewrite Hv, Hs.
    apply (lowered_read_while _ st0 H).
  - intros st0 c r H Hr.
    pose proof (lowered_advance st0 H) as H1.
    pose proof (lowered_advance _ H1) as H2.
    assert (Hc : is_lowered (String c EmptyString)).
    { rewrite Hr in H. apply PreprocessFacts.lowered_cons in H.
      apply PreprocessFacts.lowered_cons; split; [apply H | reflexivity]. }
    destruct (read_operator_cases st0 c r Hr)
      as [[k [r' [-> [Hin E]]]] | [k [_ E]]]; rewrite E; cbn [fst snd value rest].
    + rewrite Hr in H.
      apply PreprocessFacts.lowered_cons in H; destruct H as [Hlc Hr'].
      apply PreprocessFacts.lowered_cons in Hr'; destruct Hr' as [_ Hr'].
      split; [intros _|exact Hr'].
      apply PreprocessFacts.lowered_cons; split; [exact Hlc | reflexivity].
    + rewrite Hr in H. apply PreprocessFacts.lowered_cons in H.
      split; [intros _; exact Hc | apply H].
Qed.

End TokenFacts.

(* ================================================================== *)
(** ** Offsets of the tokens *)
(* ================================================================== *)

Module OffsetFacts.

Import TokenType Lexer LexerInvariants.

Lemma append_assoc (a b c : string) : (a ++ b) ++ c = a ++ (b ++ c).
Proof. induction a as [|x a IH]; cbn [append]; [|rewrite IH]; reflexivity. Qed.

Lemma append_empty (a : string) : a ++ EmptyString = a.
Proof. induction a as [|x a IH]; cbn [append]; [|rewrite IH]; reflexivity. Qed.

Lemma length_append (a b : string) :
  String.length (a ++ b) = String.length a + String.length b.
Proof. induction a as [|x a IH]; cbn [append String.length]; [|rewrite IH]; reflexivity. Qed.

(** *** One round *)

(** What a reading round does to the loop's state: [consumed] is cut off the
    text, the cursor moves by its length, which is not zero, and the token
    sits where the cursor stood. *)
Lemma reads_consumes (st st' : state) (tok : Token) :
  reads st tok st' ->
  exists consumed,
    rest st = consumed ++ rest st' /\
    pos st' = pos st + String.length consumed /\
    0 < String.length consumed /\
    position tok = pos st /\
    type tok <> EOF /\
    (type tok <> STRING -> consumed = value tok) /\
    (type tok = STRING ->
     exists quote after,
       (quote = Py.double_quote \/ quote = "'"%char) /\
       Py.contains quote (value tok) = false /\
       (after = EmptyString \/ exists r, after = String quote r) /\
       rest st = String quote (value tok ++ after)).
Proof.
  intros [c [r [Hr [[Hd E] | [[Hq E] | [[Ha E] | E]]]]]].
  - (* number *)
    unfold _read_number in E.
    assert (Hp : Py.isdigit c || Ascii.eqb c "." = true)
      by (rewrite Hd; reflexivity).
    destruct (read_while_spec (fun c => Py.isdigit c || Ascii.eqb c ".") st)
      as [H1 H2].
    destruct (read_while_head (fun c => Py.isdigit c || Ascii.eqb c ".")
                st c r Hr Hp) as [more Hm].
    destruct (read_while _ st) as [result st1]; cbn [fst snd] in *.
    injection E as <- <-. exists result. cbn [type value position].
    refine (conj H1 (conj H2 (conj _ (conj eq_refl (conj _ (conj _ _)))))).
    + rewrite Hm; cbn [String.length]; lia.
    + discriminate.
    + reflexivity.
    + discriminate.
  - (* string *)
    unfold _read_string, _current_char in E. rewrite Hr in E.
    pose proof (LexerFacts.advance_rest st c r Hr) as Hadv.
    assert (Hpos : pos (_advance st) = S (pos st))
      by (unfold _advance; rewrite Hr; reflexivity).
    destruct (read_while_spec (fun d => negb (Ascii.eqb d c)) (_advance st))
      as [H1 H2].
    assert (Hall : Py.contains c
                     (fst (read_while (fun d => negb (Ascii.eqb d c))
                             (_advance st))) = false).
    { unfold read_while.
      pose proof (span_all (fun d => negb (Ascii.eqb d c))
                    (rest (_advance st))) as H.
      destruct (Py.span _ (rest (_advance st))) as [a b]; cbn [fst] in *.
      clear - H. induction a as [|x a IH]; [reflexivity|].
      cbn [list_ascii_of_string forallb] in H.
      apply andb_true_iff in H; destruct H as [Hx Ha].
      cbn [Py.contains]. rewrite Ascii.eqb_sym.
      apply negb_true_iff in Hx; rewrite Hx. exact (IH Ha). }
    assert (Hnext : match rest (snd (read_while (fun d => negb (Ascii.eqb d c))
                                       (_advance st))) with
                    | EmptyString => True
                    | String d _ => d = c
                    end).
    { unfold read_while.
      pose proof (span_rest_head (fun d => negb (Ascii.eqb d c))
                    (rest (_advance st))) as H.
      destruct (Py.span _ (rest (_advance st))) as [a b]; cbn [snd rest] in *.
      destruct b as [|d b]; [exact I|].
      apply negb_false_iff, Ascii.eqb_eq in H; exact H. }
    destruct (read_while _ (_advance st)) as [result st2]; cbn [fst snd] in *.
    rewrite Hadv in H1. rewrite Hpos in H2.
    injection E as <- <-. cbn [type value position].
    destruct (rest st2) as [|d after] eqn:E2.
    + exists (String c result).
      refine (conj _ (conj _ (conj _ (conj eq_refl (conj _ (conj _ _)))))).
      * rewrite E2, Hr, H1, !append_empty. reflexivity.
      * rewrite H2. cbn [String.length]. lia.
      * cbn [String.length]; lia.
      * discriminate.
      * intros H; contradiction H; reflexivity.
      * intros _. exists c, EmptyString.
        refine (conj Hq (conj Hall (conj (or_introl eq_refl) _))).
        rewrite Hr, H1. reflexivity.
    + subst d. exists (String c (result ++ String c EmptyString)).
      assert (Hp3 : pos (_advance st2) = S (pos st2))
        by (unfold _advance; rewrite E2; reflexivity).
      refine (conj _ (conj _ (conj _ (conj eq_refl (conj _ (conj _ _)))))).
      * rewrite (LexerFacts.advance_rest st2 c after E2), Hr, H1.
        cbn [append]. rewrite append_assoc. reflexivity.
      * rewrite Hp3, H2. cbn [String.length]. rewrite length_append.
        cbn [String.length]. lia.
      * cbn [String.length]; lia.
      * discriminate.
      * intros H; contradiction H; reflexivity.
      * intros _. exists c, (String c after).
        refine (conj Hq (conj Hall (conj (or_intror _) _))).
        -- eexists; reflexivity.
        -- rewrite Hr, H1. reflexivity.
  - (* word *)
    assert (Hp : Py.isalnum c || Ascii.eqb c "_" = true).
    { unfold Py.isalnum. apply orb_true_iff in Ha; destruct Ha as [-> | ->];
        [reflexivity | apply orb_true_r]. }
    destruct (read_word_kind st) as [_ [Hs [He [Hv [Hp' Hsnd]]]]].
    rewrite E in Hs, He, Hv, Hp', Hsnd; cbn [fst snd] in *.
    destruct (read_while_spec (fun c => Py.isalnum c || Ascii.eqb c "_") st)
      as [H1 H2].
    destruct (read_while_head (fun c => Py.isalnum c || Ascii.eqb c "_")
                st c r Hr Hp) as [more Hm].
    rewrite <- Hv in H1, H2, Hm. rewrite <- Hsnd in H1, H2.
    exists (value tok).
    refine (conj H1 (conj H2 (conj _ (conj Hp' (conj He (conj _ _)))))).
    + rewrite Hm; cbn [String.length]; lia.
    + reflexivity.
    + intros H; contradiction.
  - (* operator *)
    destruct (read_operator_cases st c r Hr)
      as [[k [r' [-> [Hin E']]]] | [k [Hk E']]];
      rewrite E' in E; injection E as <- <-; cbn [type value position rest pos].
    + assert (Hk : k <> EOF /\ k <> STRING).
      { cbn [In] in Hin.
        destruct Hin as [[= _ <-] | [[= _ <-] | [[= _ <-] | []]]];
          split; discriminate. }
      exists (String c "=").
      refine (conj _ (conj _ (conj _ (conj eq_refl (conj (proj1 Hk) (conj _ _)))))).
      * rewrite Hr; reflexivity.
      * cbn [String.length]; lia.
      * cbn [String.length]; lia.
      * reflexivity.
      * intros H; destruct Hk as [_ Hk]; contradiction.
    + assert (Hk' : k <> EOF /\ k <> STRING).
      { destruct Hk as [-> | Hin]; [split; discriminate|].
        unfold operators in Hin; cbn [In] in Hin.
        repeat (destruct Hin as [[= _ <-] | Hin]; [split; discriminate|]).
        destruct Hin. }
      exists (String c EmptyString).
      refine (conj _ (conj _ (conj _ (conj eq_refl (conj (proj1 Hk') (conj _ _)))))).
      * rewrite Hr; reflexivity.
      * cbn [String.length]; lia.
      * cbn [String.length]; lia.
      * reflexivity.
      * intros H; destruct Hk' as [_ Hk']; contradiction.
Qed.

(** *** One step of the loop *)

Lemma loop_step (fuel : nat) (st : state) (tokens : list Token) :
  tokenize_loop (S fuel) st = Some tokens ->
  (rest st = EmptyString /\ tokens = [mkToken EOF EmptyString (pos st)]) \/
  (rest (_skip_whitespace st) = EmptyString /\
   tokens = [mkToken EOF EmptyString (pos (_skip_whitespace st))]) \/
  (exists tok st',
      reads (_skip_whitespace st) tok st' /\
      ((type tok <> UNKNOWN /\
        exists ts, tokenize_loop fuel st' = Some ts /\ tokens = tok :: ts) \/
       (type tok = UNKNOWN /\ tokenize_loop fuel st' = Some tokens))).
Proof.
  cbn [tokenize_loop]. unfold _current_char at 1.
  destruct (rest st) as [|c0 r0] eqn:Hst.
  { intros [= <-]; left; split; reflexivity. }
  set (st1 := _skip_whitespace st).
  unfold _current_char.
  destruct (rest st1) as [|c r] eqn:Hst1.
  { intros [= <-]; right; left; split; reflexivity. }
  intros H; right; right.
  assert (Hcons : forall tok st',
             reads st1 tok st' -> type tok <> UNKNOWN ->
             option_map (cons tok) (tokenize_loop fuel st') = Some tokens ->
             exists tok st',
               reads st1 tok st' /\
               ((type tok <> UNKNOWN /\
                 exists ts, tokenize_loop fuel st' = Some ts /\
                            tokens = tok :: ts) \/
                (type tok = UNKNOWN /\ tokenize_loop fuel st' = Some tokens))).
  { intros tok st' Hreads Hk Hmap.
    destruct (tokenize_loop fuel st') as [ts|] eqn:E; [|discriminate].
    injection Hmap as <-.
    exists tok, st'; split; [exact Hreads|].
    left; split; [exact Hk | exists ts; split; [exact E | reflexivity]]. }
  destruct (Py.isdigit c) eqn:Hd.
  { destruct (_read_number st1) as [tok st'] eqn:E.
    apply (Hcons tok st'); [|pose proof (LexerFacts.read_number_spec st1 c r Hst1 Hd) as [Hk _];
                              rewrite E in Hk; cbn [fst] in Hk; rewrite Hk; discriminate
                            | exact H].
    exists c, r; split; [exact Hst1 | left; split; [exact Hd | exact E]]. }
  destruct (Ascii.eqb c Py.double_quote || Ascii.eqb c "'") eqn:Hquote.
  { assert (Hc : c = Py.double_quote \/ c = "'"%char).
    { apply orb_true_iff in Hquote.
      destruct Hquote as [Hq|Hq]; apply Ascii.eqb_eq in Hq; auto. }
    destruct (_read_string st1) as [tok st'] eqn:E.
    apply (Hcons tok st'); [|pose proof (LexerFacts.read_string_spec st1 c r Hst1) as [Hk _];
                              rewrite E in Hk; cbn [fst] in Hk; rewrite Hk; discriminate
                            | exact H].
    exists c, r; split; [exact Hst1 | right; left; split; [exact Hc | exact E]]. }
  destruct (Py.isalpha c || Ascii.eqb c "_") eqn:Ha.
  { destruct (_read_word st1) as [tok st'] eqn:E.
    apply (Hcons tok st'); [|pose proof (LexerFacts.read_word_spec st1 c r Hst1 Ha) as [Hk _];
                              rewrite E in Hk; exact Hk
                            | exact H].
    exists c, r; split; [exact Hst1 | right; right; left; split; [exact Ha | exact E]]. }
  destruct (_read_operator st1) as [tok st'] eqn:E.
  assert (Hreads : reads st1 tok st')
    by (exists c, r; split; [exact Hst1 | right; right; right; exact E]).
  unfold TokenType.eqb in H.
  destruct (TokenType.eq_dec (type tok) UNKNOWN) as [Hu|Hu].
  - exists tok, st'; split; [exact Hreads | right; split; assumption].
  - apply (Hcons tok st'); assumption.
Qed.

Lemma skip_consumes (st : state) :
  exists blanks,
    rest st = blanks ++ rest (_skip_whitespace st) /\
    pos (_skip_whitespace st) = pos st + String.length blanks.
Proof.
  unfold _skip_whitespace.
  destruct (read_while_spec Py.isspace st) as [H1 H2].
  exists (fst (read_while Py.isspace st)); split; assumption.
Qed.

(** *** Offsets grow, and EOF comes last and only last *)

Lemma increasing_from (from from' : nat) (l : list nat) :
  from <= from' -> increasing from' l -> increasing from l.
Proof. destruct l as [|p l]; cbn [increasing]; [trivial|]. intros; split; [lia | tauto]. Qed.

Lemma loop_increasing (fuel : nat) :
  forall (st : state) (tokens : list Token),
    tokenize_loop fuel st = Some tokens ->
    increasing (pos st) (map position tokens).
Proof.
  induction fuel as [|fuel IH]; intros st tokens H; [discriminate|].
  destruct (skip_consumes st) as [blanks [_ Hskip]].
  destruct (loop_step fuel st tokens H)
    as [[_ ->] | [[_ ->] | [tok [st' [Hreads Hcases]]]]].
  - cbn [map position increasing]; split; [lia | exact I].
  - cbn [map position increasing]; split; [lia | exact I].
  - destruct (reads_consumes _ _ _ Hreads)
      as [consumed [_ [Hpos [Hlen [Hp _]]]]].
    destruct Hcases as [[_ [ts [E ->]]] | [_ E]].
    + cbn [map increasing]. split; [lia|].
      apply (increasing_from _ (pos st')); [lia | exact (IH _ _ E)].
    + apply (increasing_from _ (pos st')); [lia | exact (IH _ _ E)].
Qed.

Lemma loop_ends_in_eof (fuel : nat) :
  forall (st : state) (tokens : list Token),
    tokenize_loop fuel st = Some tokens ->
    ends_in_eof (pos st + String.length (rest st)) tokens.
Proof.
  induction fuel as [|fuel IH]; intros st tokens H; [discriminate|].
  destruct (skip_consumes st) as [blanks [Hrest Hskip]].
  assert (Hlen : pos st + String.length (rest st)
                 = pos (_skip_whitespace st)
                   + String.length (rest (_skip_whitespace st))).
  { rewrite Hrest at 1. rewrite length_append. lia. }
  destruct (loop_step fuel st tokens H)
    as [[E ->] | [[E ->] | [tok [st' [Hreads Hcases]]]]].
  - exists []; rewrite E; cbn [String.length]; rewrite Nat.add_0_r.
    split; [reflexivity | constructor].
  - exists []; rewrite Hlen, E; cbn [String.length]; rewrite Nat.add_0_r.
    split; [reflexivity | constructor].
  - destruct (reads_consumes _ _ _ Hreads)
      as [consumed [Hr [Hpos [_ [_ [Hk _]]]]]].
    assert (Hlen' : pos st + String.length (rest st)
                    = pos st' + String.length (rest st')).
    { rewrite Hlen, Hr, length_append. lia. }
    rewrite Hlen'.
    destruct Hcases as [[_ [ts [E ->]]] | [_ E]]; [|exact (IH _ _ E)].
    destruct (IH _ _ E) as [body [-> Hbody]].
    exists (tok :: body); split; [reflexivity | constructor; assumption].
Qed.

(** *** The lexeme stands at the offset *)

Section Placement.

Variable text : string.

Lemma cursor_fits_moves (st st' : state) (consumed : string) :
  cursor_fits text st ->
  rest st = consumed ++ rest st' ->
  pos st' = pos st + String.length consumed ->
  cursor_fits text st'.
Proof.
  intros [before [Ht Hl]] Hr Hp.
  exists (before ++ consumed); split.
  - rewrite Ht, Hr, append_assoc; reflexivity.
  - rewrite length_append; lia.
Qed.

Lemma loop_well_placed (fuel : nat) :
  forall (st : state) (tokens : list Token),
    cursor_fits text st ->
    tokenize_loop fuel st = Some tokens ->
    Forall (well_placed text) tokens.
Proof.
  induction fuel as [|fuel IH]; intros st tokens Hfit H; [discriminate|].
  destruct (skip_consumes st) as [blanks [Hrest Hskip]].
  pose proof (cursor_fits_moves _ _ _ Hfit Hrest Hskip) as Hfit1.
  assert (Heof : forall st0, cursor_fits text st0 -> rest st0 = EmptyString ->
                   Forall (well_placed text) [mkToken EOF EmptyString (pos st0)]).
  { intros st0 [before [Ht Hl]] E. constructor; [|constructor].
    unfold well_placed; cbn [type value position]. split; [reflexivity|].
    rewrite Ht, E, append_empty. symmetry; exact Hl. }
  destruct (loop_step fuel st tokens H)
    as [[E ->] | [[E ->] | [tok [st' [Hreads Hcases]]]]];
    [apply Heof; assumption | apply Heof; assumption |].
  destruct (reads_consumes _ _ _ Hreads)
    as [consumed [Hr [Hpos [_ [Hp [Hk [Hother Hstring]]]]]]].
  pose proof (cursor_fits_moves _ _ _ Hfit1 Hr Hpos) as Hfit'.
  destruct Hcases as [[_ [ts [E ->]]] | [_ E]]; [|exact (IH _ _ Hfit' E)].
  constructor; [|exact (IH _ _ Hfit' E)].
  destruct Hfit1 as [before [Ht Hl]].
  unfold well_placed.
  destruct (TokenType.eq_dec (type tok) STRING) as [Hs|Hs].
  - rewrite Hs. destruct (Hstring Hs) as [quote [after [Hq [Hc [Ha Hrest']]]]].
    exists quote, before, after.
    repeat split; try assumption; [|lia].
    rewrite Ht, Hrest'; reflexivity.
  - assert (Hocc : occurs_at text (position tok) (value tok)).
    { exists before, (rest st'); split; [|lia].
      rewrite Ht, Hr, (Hother Hs); reflexivity. }
    destruct (type tok); try contradiction; exact Hocc.
Qed.

End Placement.

End OffsetFacts.

(* ================================================================== *)
(** ** The parser's cursor, its errors and its loops *)
(* ================================================================== *)

Module ParserInvariants.

Import TokenType Parser.

(** *** Steadiness *)

Lemma steady_ret {A : Type} (a : A) : steady (ret a).
Proof. intros st b st' [= _ <-]; split; [reflexivity | lia]. Qed.

Lemma steady_raise {A : Type} (e : exn) : steady (@raise A e).
Proof. intros st b st' H; discriminate H. Qed.

Lemma steady_out_of_fuel {A : Type} : steady (@out_of_fuel A).
Proof. intros st b st' H; discriminate H. Qed.

Lemma steady_bind {A B : Type} (m : M A) (k : A -> M B) :
  steady m -> (forall a, steady (k a)) -> steady (bind m k).
Proof.
  intros Hm Hk st b st' H. unfold bind in H.
  destruct (m st) as [[a st1]| |] eqn:E; try discriminate H.
  destruct (Hm _ _ _ E) as [H1 H2]. destruct (Hk a _ _ _ H) as [H3 H4].
  split; [congruence | lia].
Qed.

Lemma steady_current_token : steady _current_token.
Proof.
  intros st t st' H. rewrite (ParserFacts.current_token_state _ _ _ H).
  split; [reflexivity | lia].
Qed.

Lemma steady_advance : steady _advance.
Proof.
  unfold _advance. apply steady_bind; [exact steady_current_token|].
  intros t st b st' [= _ <-]; cbn [tokens pos]; split; [reflexivity | lia].
Qed.

Create HintDb steady.
Create HintDb behaves.

#[export] Hint Resolve steady_current_token steady_advance : steady.

Ltac steady_step :=
  match goal with
  | |- steady (bind _ _) => apply steady_bind; [ | intro ]
  | |- steady (ret _) => apply steady_ret
  | |- steady (raise _) => apply steady_raise
  | |- steady out_of_fuel => apply steady_out_of_fuel
  | |- steady (match ?x with _ => _ end) => destruct x
  | |- steady _ => solve [auto with steady]
  end.

Ltac steady := repeat steady_step.

Lemma steady_match (types : list TokenType.t) : steady (_match types).
Proof. unfold _match; steady. Qed.

#[export] Hint Resolve steady_match : steady.

Lemma steady_expect (k : TokenType.t) : steady (_expect k).
Proof. unfold _expect; steady. Qed.

Lemma steady_consume_if (k : TokenType.t) : steady (_consume_if k).
Proof. unfold _consume_if; steady. Qed.

#[export] Hint Resolve steady_expect steady_consume_if : steady.

Lemma steady_parse_from (allow_missing : bool) : steady (_parse_from allow_missing).
Proof. unfold _parse_from; steady. Qed.

Lemma steady_parse_operator : steady _parse_operator.
Proof. unfold _parse_operator; steady. Qed.

Lemma steady_parse_value : steady _parse_value.
Proof. unfold _parse_value; steady. Qed.

#[export] Hint Resolve steady_parse_from steady_parse_operator
  steady_parse_value : steady.

Lemma steady_value_list_loop (fuel : nat) :
  forall values, steady (value_list_loop fuel values).
Proof.
  induction fuel as [|fuel IH]; intros values; cbn [value_list_loop]; steady;
    try apply IH.
Qed.

#[export] Hint Resolve steady_value_list_loop : steady.

Lemma steady_parse_value_list (fuel : nat) : steady (_parse_value_list fuel).
Proof. unfold _parse_value_list; steady. Qed.

#[export] Hint Resolve steady_parse_value_list : steady.

Lemma steady_parse_simple_condition (fuel : nat) :
  steady (_parse_simple_condition fuel).
Proof. unfold _parse_simple_condition; steady. Qed.

#[export] Hint Resolve steady_parse_simple_condition : steady.

Lemma steady_condition_loop (fuel fuel0 : nat) :
  forall left, steady (condition_loop fuel fuel0 left).
Proof.
  induction fuel as [|fuel IH]; intros left; cbn [condition_loop]; steady;
    try apply IH.
Qed.

#[export] Hint Resolve steady_condition_loop : steady.

Lemma steady_parse_condition (fuel : nat) : steady (_parse_condition fuel).
Proof. unfold _parse_condition; steady. Qed.

#[export] Hint Resolve steady_parse_condition : steady.

Lemma steady_parse_where (fuel : nat) : steady (_parse_where fuel).
Proof. unfold _parse_where; steady. Qed.

#[export] Hint Resolve steady_parse_where : steady.

Lemma steady_optional_where (fuel : nat) : steady (optional_where fuel).
Proof. unfold optional_where; steady. Qed.

Lemma steady_parse_order_by : steady _parse_order_by.
Proof. unfold _parse_order_by; steady. Qed.

Lemma steady_parse_group_by : steady _parse_group_by.
Proof. unfold _parse_group_by; steady. Qed.

#[export] Hint Resolve steady_optional_where steady_parse_order_by
  steady_parse_group_by : steady.

Lemma steady_column_loop {A : Type} (inj : string -> A) (fuel : nat) :
  forall columns, steady (column_loop inj fuel columns).
Proof.
  induction fuel as [|fuel IH]; intros columns; cbn [column_loop]; steady;
    try apply IH.
Qed.

#[export] Hint Resolve steady_column_loop : steady.

Lemma steady_parse_select (fuel : nat) : steady (_parse_select fuel).
Proof. unfold _parse_select; steady. Qed.

Lemma steady_optional_identifier : steady optional_identifier.
Proof. unfold optional_identifier; steady. Qed.

Lemma steady_from_table (target : option string) : steady (from_table target).
Proof. unfold from_table; steady. Qed.

#[export] Hint Resolve steady_parse_select steady_optional_identifier
  steady_from_table : steady.

Lemma steady_parse_count (fuel : nat) : steady (_parse_count fuel).
Proof. unfold _parse_count; steady. Qed.

Lemma steady_parse_sum (fuel : nat) : steady (_parse_sum fuel).
Proof. unfold _parse_sum; steady. Qed.

Lemma steady_parse_find (fuel : nat) : steady (_parse_find fuel).
Proof. unfold _parse_find; steady. Qed.

Lemma steady_parse_insert (fuel : nat) : steady (_parse_insert fuel).
Proof. unfold _parse_insert; steady. Qed.

Lemma steady_parse_update (fuel : nat) : steady (_parse_update fuel).
Proof. unfold _parse_update; steady. Qed.

Lemma steady_parse_drop_column (fuel : nat) : steady (_parse_drop_column fuel).
Proof. unfold _parse_drop_column; steady. Qed.

#[export] Hint Resolve steady_parse_count steady_parse_sum steady_parse_find
  steady_parse_insert steady_parse_update steady_parse_drop_column : steady.

Lemma steady_parse_delete (fuel : nat) : steady (_parse_delete fuel).
Proof. unfold _parse_delete; steady. Qed.

Lemma steady_parse_alter : steady _parse_alter.
Proof. unfold _parse_alter; steady. Qed.

#[export] Hint Resolve steady_parse_delete steady_parse_alter : steady.

Lemma steady_parse_method (fuel : nat) : steady (parse_method fuel).
Proof. unfold parse_method; steady. Qed.

(** *** Reading the current token *)

Lemma last_default (l : list Token) (d d' : Token) :
  l <> [] -> List.last l d = List.last l d'.
Proof.
  induction l as [|x l IH]; intros H; [contradiction|].
  destruct l as [|y l]; [reflexivity|].
  cbn [List.last] in *. apply IH; discriminate.
Qed.

Lemma last_in (l : list Token) (d : Token) : l <> [] -> In (List.last l d) l.
Proof.
  induction l as [|x l IH]; intros H; [contradiction|].
  destruct l as [|y l]; [left; reflexivity|].
  right. apply IH; discriminate.
Qed.

Lemma current_token_total (st : state) :
  tokens st <> [] -> exists t, _current_token st = Ok (t, st).
Proof.
  intros H; unfold _current_token.
  destruct (nth_error (tokens st) (pos st)); [eexists; reflexivity|].
  destruct (tokens st); [contradiction | eexists; reflexivity].
Qed.

Lemma current_token_in (st st' : state) (t : Token) :
  _current_token st = Ok (t, st') -> In t (tokens st).
Proof.
  unfold _current_token.
  destruct (nth_error (tokens st) (pos st)) eqn:E.
  - intros [= <- _]. exact (nth_error_In _ _ E).
  - destruct (tokens st) as [|t0 l] eqn:El; [discriminate|].
    intros [= <- _]. apply (last_in (t0 :: l) t0); discriminate.
Qed.

Lemma current_token_past_end (st : state) (t d : Token) :
  _current_token st = Ok (t, st) ->
  List.length (tokens st) <= pos st ->
  t = List.last (tokens st) d.
Proof.
  unfold _current_token; intros H Hlen.
  apply nth_error_None in Hlen. rewrite Hlen in H.
  destruct (tokens st) as [|t0 l] eqn:El; [discriminate|].
  injection H as <-. apply (last_default (t0 :: l)); discriminate.
Qed.

Lemma current_token_after_end (st : state) (t : Token) :
  _current_token st = Ok (t, st) ->
  List.length (tokens st) <= pos st ->
  _current_token (mkState (tokens st) (S (pos st)))
  = Ok (t, mkState (tokens st) (S (pos st))).
Proof.
  unfold _current_token; cbn [tokens pos]; intros H Hlen.
  assert (H1 : nth_error (tokens st) (pos st) = None)
    by (apply nth_error_None; exact Hlen).
  assert (H2 : nth_error (tokens st) (S (pos st)) = None)
    by (apply nth_error_None; lia).
  rewrite H1 in H. rewrite H2.
  destruct (tokens st) as [|t0 l]; [discriminate|].
  injection H as <-. reflexivity.
Qed.

Lemma match_inv (types : list TokenType.t) (st st' : state) (b : bool) :
  _match types st = Ok (b, st') ->
  st' = st /\
  exists t, _current_token st = Ok (t, st) /\
            b = existsb (TokenType.eqb (type t)) types.
Proof.
  unfold _match, bind, ret.
  destruct (_current_token st) as [[t st1]| |] eqn:E; try discriminate.
  pose proof (ParserFacts.current_token_state _ _ _ E) as ->.
  intros [= <- <-]. split; [reflexivity | exists t; split; reflexivity].
Qed.

Lemma advance_inv (st st' : state) (t : Token) :
  _advance st = Ok (t, st') ->
  _current_token st = Ok (t, st) /\ st' = mkState (tokens st) (S (pos st)).
Proof.
  unfold _advance, bind.
  destruct (_current_token st) as [[t1 st1]| |] eqn:E; try discriminate.
  pose proof (ParserFacts.current_token_state _ _ _ E) as ->.
  intros [= <- <-]. split; reflexivity.
Qed.

Lemma eqb_kind (a b : TokenType.t) : TokenType.eqb a b = true <-> a = b.
Proof.
  unfold TokenType.eqb; destruct (TokenType.eq_dec a b); split;
    try discriminate; try contradiction; trivial.
Qed.

(** *** Outcomes *)

Section Behaviour.

Variable good : list Token -> Prop.
Variable allowed : exn -> Prop.

Hypothesis good_closed : forall toks, good toks -> closed_list toks.
Hypothesis allowed_parse : forall msg, allowed (ParseError msg).
Hypothesis value_behaves : forall n, behaves good allowed n _parse_value.

Lemma behaves_ret (n : nat) {A : Type} (a : A) : behaves good allowed n (ret a).
Proof. intros st _ _; exact I. Qed.

Lemma behaves_raise (n : nat) {A : Type} (msg : string) :
  behaves good allowed n (@raise A (ParseError msg)).
Proof. intros st _ _; apply allowed_parse. Qed.

Lemma behaves_bind (n : nat) {A B : Type} (m : M A) (k : A -> M B) :
  behaves good allowed n m -> steady m ->
  (forall a, behaves good allowed n (k a)) ->
  behaves good allowed n (bind m k).
Proof.
  intros Hm Hs Hk st Hg Hlen. specialize (Hm st Hg Hlen). unfold bind.
  destruct (m st) as [[a st1]| |] eqn:E; try exact Hm.
  destruct (Hs _ _ _ E) as [H1 H2].
  apply Hk; [rewrite H1; exact Hg | rewrite H1; lia].
Qed.

Lemma behaves_weaken (n n' : nat) {A : Type} (m : M A) :
  n' <= n -> behaves good allowed n m -> behaves good allowed n' m.
Proof. intros Hn Hm st Hg Hlen. apply Hm; [exact Hg | lia]. Qed.

Lemma behaves_current_token (n : nat) : behaves good allowed n _current_token.
Proof.
  intros st Hg _. destruct (good_closed _ Hg) as [Hne _].
  destruct (current_token_total st Hne) as [t ->]. exact I.
Qed.

Lemma behaves_advance (n : nat) : behaves good allowed n _advance.
Proof.
  intros st Hg _. destruct (good_closed _ Hg) as [Hne _].
  destruct (current_token_total st Hne) as [t Ht].
  rewrite (ParserFacts.advance_at _ _ Ht). exact I.
Qed.

Hint Resolve behaves_current_token behaves_advance value_behaves : behaves.
Ltac behaves_step :=
  match goal with
  | |- behaves _ _ _ (bind _ _) =>
      apply behaves_bind; [ | solve [steady] | intro ]
  | |- behaves _ _ _ (ret _) => apply behaves_ret
  | |- behaves _ _ _ (raise (ParseError _)) => apply behaves_raise
  | |- behaves _ _ _ (match ?x with _ => _ end) => destruct x
  | |- behaves _ _ _ _ => solve [auto with behaves]
  end.

Ltac behaving := repeat behaves_step.

Lemma behaves_match (n : nat) (types : list TokenType.t) :
  behaves good allowed n (_match types).
Proof. unfold _match; behaving. Qed.

Hint Resolve behaves_match : behaves.

Lemma behaves_expect (n : nat) (k : TokenType.t) :
  behaves good allowed n (_expect k).
Proof. unfold _expect; behaving. Qed.

Lemma behaves_consume_if (n : nat) (k : TokenType.t) :
  behaves good allowed n (_consume_if k).
Proof. unfold _consume_if; behaving. Qed.

Hint Resolve behaves_expect behaves_consume_if : behaves.

Lemma behaves_parse_from (n : nat) (allow_missing : bool) :
  behaves good allowed n (_parse_from allow_missing).
Proof. unfold _parse_from; behaving. Qed.

Lemma behaves_parse_operator (n : nat) :
  behaves good allowed n _parse_operator.
Proof. unfold _parse_operator; behaving. Qed.

Hint Resolve behaves_parse_from behaves_parse_operator : behaves.

(** A comma under the cursor is a token of the list, not its last token
    read again past the end. *)
Lemma comma_in_range (st st' : state) :
  good (tokens st) ->
  _match [COMMA] st = Ok (true, st') ->
  st' = st /\ pos st < List.length (tokens st).
Proof.
  intros Hg H. apply match_inv in H. destruct H as [-> [t [Ht Hb]]].
  split; [reflexivity|].
  destruct (Nat.lt_ge_cases (pos st) (List.length (tokens st))) as [Hlt|Hge];
    [exact Hlt|].
  destruct (good_closed _ Hg) as [_ Hlast].
  rewrite (current_token_past_end st t t Ht Hge) in Hb.
  cbn [existsb] in Hb. rewrite orb_false_r in Hb. symmetry in Hb.
  apply eqb_kind in Hb. destruct (Hlast t Hb).
Qed.

Lemma advance_total (st : state) :
  good (tokens st) ->
  exists t, _advance st = Ok (t, mkState (tokens st) (S (pos st))).
Proof.
  intros Hg. destruct (good_closed _ Hg) as [Hne _].
  destruct (current_token_total st Hne) as [t Ht].
  exists t. exact (ParserFacts.advance_at _ _ Ht).
Qed.

Lemma match_total (st : state) (types : list TokenType.t) :
  good (tokens st) ->
  exists b, _match types st = Ok (b, st).
Proof.
  intros Hg. destruct (good_closed _ Hg) as [Hne _].
  destruct (current_token_total st Hne) as [t Ht].
  eexists. exact (ParserFacts.match_at _ _ types Ht).
Qed.

(** The loops: [S n] rounds are enough when [n] tokens are left. *)

Lemma behaves_column_loop {A : Type} (inj : string -> A) (n : nat) :
  forall columns, behaves good allowed n (column_loop inj (S n) columns).
Proof.
  induction n as [|n IH]; intros columns st Hg Hlen;
    cbn [column_loop]; unfold bind at 1;
    destruct (match_total st [COMMA] Hg) as [[|] E]; rewrite E; [|exact I|
                                                                  |exact I];
    destruct (comma_in_range _ _ Hg E) as [_ Hlt]; [lia|].
  unfold bind at 1. destruct (advance_total st Hg) as [t ->].
  assert (Hrest : behaves good allowed n
            (bind (_match [IDENTIFIER])
               (fun b' : bool =>
                  if b'
                  then bind _advance
                         (fun token =>
                            column_loop inj (S n) (columns ++ [inj (value token)]))
                  else column_loop inj (S n) columns))).
  { behaving; apply IH. }
  apply Hrest; cbn [tokens pos]; [exact Hg | lia].
Qed.

Lemma behaves_value_list_loop (n : nat) :
  forall values, behaves good allowed n (value_list_loop (S n) values).
Proof.
  induction n as [|n IH]; intros values st Hg Hlen;
    cbn [value_list_loop]; unfold bind at 1;
    destruct (match_total st [COMMA] Hg) as [[|] E]; rewrite E; [|exact I|
                                                                  |exact I];
    destruct (comma_in_range _ _ Hg E) as [_ Hlt]; [lia|].
  unfold bind at 1. destruct (advance_total st Hg) as [t ->].
  assert (Hrest : behaves good allowed n
            (bind _parse_value
               (fun v => value_list_loop (S n) (values ++ [v])))).
  { behaving; apply IH. }
  apply Hrest; cbn [tokens pos]; [exact Hg | lia].
Qed.

Hint Resolve behaves_column_loop behaves_value_list_loop : behaves.

Lemma behaves_parse_value_list (n : nat) :
  behaves good allowed n (_parse_value_list (S n)).
Proof. unfold _parse_value_list; behaving. Qed.

Hint Resolve behaves_parse_value_list : behaves.

Lemma behaves_parse_simple_condition (n : nat) :
  behaves good allowed n (_parse_simple_condition (S n)).
Proof. unfold _parse_simple_condition; behaving. Qed.

Hint Resolve behaves_parse_simple_condition : behaves.

(** Where no identifier stands, no condition starts. *)
Lemma simple_condition_needs_identifier (fuel : nat) (st : state) (t : Token) :
  _current_token st = Ok (t, st) ->
  type t <> IDENTIFIER ->
  _parse_simple_condition fuel st
  = Raise (ParseError "Expected column name in condition").
Proof.
  intros Ht Hk. unfold _parse_simple_condition, bind at 1.
  rewrite (ParserFacts.match_at _ _ [IDENTIFIER] Ht). cbn [existsb].
  destruct (TokenType.eqb (type t) IDENTIFIER) eqn:E;
    [apply eqb_kind in E; contradiction | reflexivity].
Qed.

Lemma behaves_condition_loop (n : nat) :
  forall f, f <= n ->
  forall left,
    behaves good allowed f (condition_loop (S f) (S n) left).
Proof.
  induction f as [|f IH]; intros Hf left st Hg Hlen;
    cbn [condition_loop]; unfold bind at 1;
    destruct (match_total st [AND; OR] Hg) as [[|] E]; rewrite E; [|exact I|
                                                                     |exact I];
    apply match_inv in E; destruct E as [_ [t [Ht Hb]]];
    unfold bind at 1; rewrite (ParserFacts.advance_at _ _ Ht).
  - (* no fuel left for another round: the cursor is past the end *)
    pose proof (current_token_after_end st t Ht ltac:(lia)) as Hnext.
    assert (Hk : type t <> IDENTIFIER).
    { intros Hk. rewrite Hk in Hb. discriminate Hb. }
    unfold bind at 1.
    rewrite (simple_condition_needs_identifier _ _ t Hnext Hk).
    apply allowed_parse.
  - destruct (Nat.lt_ge_cases (pos st) (List.length (tokens st))) as [Hlt|Hge].
    + assert (Hrest : behaves good allowed f
                (bind (_parse_simple_condition (S n))
                   (fun right =>
                      if TokenType.eqb (type t) AND
                      then condition_loop (S f) (S n) (AndCondition left right)
                      else condition_loop (S f) (S n) (OrCondition left right)))).
      { apply behaves_bind;
          [apply (behaves_weaken n); [lia | apply behaves_parse_simple_condition]
          | steady | ].
        intros right; destruct (TokenType.eqb (type t) AND); apply IH; lia. }
      apply Hrest; cbn [tokens pos]; [exact Hg | lia].
    + pose proof (current_token_after_end st t Ht ltac:(lia)) as Hnext.
      assert (Hk : type t <> IDENTIFIER).
      { intros Hk. rewrite Hk in Hb. discriminate Hb. }
      unfold bind at 1.
      rewrite (simple_condition_needs_identifier _ _ t Hnext Hk).
      apply allowed_parse.
Qed.

Lemma behaves_parse_condition (n : nat) :
  behaves good allowed n (_parse_condition (S n)).
Proof.
  unfold _parse_condition; behaving. apply behaves_condition_loop; lia.
Qed.

Hint Resolve behaves_parse_condition : behaves.

Lemma behaves_parse_where (n : nat) : behaves good allowed n (_parse_where (S n)).
Proof. unfold _parse_where; behaving. Qed.

Hint Resolve behaves_parse_where : behaves.

Lemma behaves_optional_where (n : nat) :
  behaves good allowed n (optional_where (S n)).
Proof. unfold optional_where; behaving. Qed.

Lemma behaves_parse_order_by (n : nat) : behaves good allowed n _parse_order_by.
Proof. unfold _parse_order_by; behaving. Qed.

Lemma behaves_parse_group_by (n : nat) : behaves good allowed n _parse_group_by.
Proof. unfold _parse_group_by; behaving. Qed.

Hint Resolve behaves_optional_where behaves_parse_order_by
  behaves_parse_group_by : behaves.

Lemma behaves_parse_select (n : nat) :
  behaves good allowed n (_parse_select (S n)).
Proof. unfold _parse_select; behaving. Qed.

Lemma behaves_optional_identifier (n : nat) :
  behaves good allowed n optional_identifier.
Proof. unfold optional_identifier; behaving. Qed.

Lemma behaves_from_table (n : nat) (target : option string) :
  behaves good allowed n (from_table target).
Proof. unfold from_table; behaving. Qed.

Hint Resolve behaves_parse_select behaves_optional_identifier
  behaves_from_table : behaves.

Lemma behaves_parse_count (n : nat) : behaves good allowed n (_parse_count (S n)).
Proof. unfold _parse_count; behaving. Qed.

Lemma behaves_parse_sum (n : nat) : behaves good allowed n (_parse_sum (S n)).
Proof. unfold _parse_sum; behaving. Qed.

Lemma behaves_parse_find (n : nat) : behaves good allowed n (_parse_find (S n)).
Proof. unfold _parse_find; behaving. Qed.

Lemma behaves_parse_insert (n : nat) : behaves good allowed n (_parse_insert (S n)).
Proof. unfold _parse_insert; behaving. Qed.

Lemma behaves_parse_update (n : nat) : behaves good allowed n (_parse_update (S n)).
Proof. unfold _parse_update; behaving. Qed.

Lemma behaves_parse_drop_column (n : nat) :
  behaves good allowed n (_parse_drop_column (S n)).
Proof. unfold _parse_drop_column; behaving. Qed.

Hint Resolve behaves_parse_count behaves_parse_sum behaves_parse_find
  behaves_parse_insert behaves_parse_update behaves_parse_drop_column : behaves.

Lemma behaves_parse_delete (n : nat) : behaves good allowed n (_parse_delete (S n)).
Proof. unfold _parse_delete; behaving. Qed.

Lemma behaves_parse_alter (n : nat) : behaves good allowed n _parse_alter.
Proof. unfold _parse_alter; behaving. Qed.

Hint Resolve behaves_parse_delete behaves_parse_alter : behaves.

Lemma behaves_parse_method (n : nat) :
  behaves good allowed n (parse_method (S n)).
Proof. unfold parse_method; behaving. Qed.

(** [parse] on a good token list. *)
Lemma parse_behaves (toks : list Token) :
  good toks -> may_raise allowed (parse toks).
Proof.
  intros Hg. unfold parse, parse_with.
  pose proof (behaves_parse_method (List.length toks) (mkState toks 0) Hg) as H.
  cbn [tokens pos] in H. specialize (H ltac:(lia)).
  destruct (parse_method _ _) as [[ast st]| |]; exact H.
Qed.

End Behaviour.
End ParserInvariants.

(* ================================================================== *)
(** ** What the parser and the pipeline can end with *)
(* ================================================================== *)

Module OutcomeFacts.

Import TokenType Parser ParserInvariants.

(** [_parse_value] raises nothing but ParseError and ValueError. *)
Lemma parse_value_errors (n : nat) :
  behaves closed_list parse_errors n _parse_value.
Proof.
  intros st [Hne _] _.
  destruct (current_token_total st Hne) as [t Ht].
  unfold _parse_value, bind at 1. rewrite Ht.
  destruct (TokenType.eqb (type t) NUMBER).
  { unfold bind. rewrite (ParserFacts.advance_at _ _ Ht).
    destruct (Py.contains "." (value t));
      [destruct (Py.to_float (value t)) | destruct (Py.int (value t))];
      exact I. }
  destruct (TokenType.eqb (type t) STRING).
  { unfold bind. rewrite (ParserFacts.advance_at _ _ Ht). exact I. }
  destruct (TokenType.eqb (type t) IDENTIFIER).
  { unfold bind. rewrite (ParserFacts.advance_at _ _ Ht). exact I. }
  exact I.
Qed.

(** On number lexemes that [int] or [float] accepts it raises ParseError
    only. *)
Lemma parse_value_plain (n : nat) :
  behaves (fun toks => closed_list toks /\ plain_numbers toks)
    only_parse_error n _parse_value.
Proof.
  intros st [[Hne _] Hplain] _.
  destruct (current_token_total st Hne) as [t Ht].
  unfold _parse_value, bind at 1. rewrite Ht.
  destruct (TokenType.eqb (type t) NUMBER) eqn:Hk.
  { apply eqb_kind in Hk.
    unfold plain_numbers in Hplain. rewrite Forall_forall in Hplain.
    destruct (Hplain t (current_token_in _ _ _ Ht) Hk) as [Hlex [Hpoints Hcap]].
    unfold bind. rewrite (ParserFacts.advance_at _ _ Ht).
    rewrite NumberFacts.contains_point.
    pose proof (NumberFacts.to_float_number (value t) Hlex) as Hfloat.
    destruct (count_points (value t)) as [|[|k]] eqn:Hc; cbn [Nat.eqb negb].
    - pose proof (NumberFacts.int_number (value t) Hlex Hc) as Hint.
      apply Nat.leb_le in Hcap; [|reflexivity].
      rewrite Nat.ltb_antisym, Hcap in Hint. cbn [negb] in Hint.
      destruct Hint as [z ->]. exact I.
    - destruct Hfloat as [x ->]. exact I.
    - lia. }
  destruct (TokenType.eqb (type t) STRING).
  { unfold bind. rewrite (ParserFacts.advance_at _ _ Ht). exact I. }
  destruct (TokenType.eqb (type t) IDENTIFIER).
  { unfold bind. rewrite (ParserFacts.advance_at _ _ Ht). exact I. }
  exact I.
Qed.

(** A token list that ends in EOF is closed. *)
Lemma ends_in_eof_closed (p : nat) (toks : list Token) :
  ends_in_eof p toks -> closed_list toks.
Proof.
  intros [body [-> _]]. split.
  - destruct body; discriminate.
  - intros d. rewrite last_last. discriminate.
Qed.

Lemma tokenize_closed (text : string) (toks : list Token) :
  Lexer.tokenize text = Some toks -> closed_list toks.
Proof.
  intros H. eapply ends_in_eof_closed.
  exact (OffsetFacts.loop_ends_in_eof _ _ _ H).
Qed.

Lemma parse_closed (toks : list Token) :
  closed_list toks -> may_raise parse_errors (parse toks).
Proof.
  apply (parse_behaves closed_list parse_errors).
  - trivial.
  - intros msg; exact I.
  - exact parse_value_errors.
Qed.

Lemma parse_plain (toks : list Token) :
  closed_list toks -> plain_numbers toks ->
  may_raise only_parse_error (parse toks).
Proof.
  intros Hc Hp.
  apply (parse_behaves (fun toks => closed_list toks /\ plain_numbers toks)
           only_parse_error).
  - intros l [H _]; exact H.
  - intros msg; exact I.
  - exact parse_value_plain.
  - split; assumption.
Qed.

End OutcomeFacts.

(* ================================================================== *)
(** ** The shape of the trees the parser builds *)
(* ================================================================== *)

Module AstFacts.

Import TokenType Parser ParserInvariants.

(** *** Reading a successful run backwards *)

Lemma bind_inv {A B : Type} (m : M A) (k : A -> M B) (st st' : state) (b : B) :
  bind m k st = Ok (b, st') ->
  exists a st1, m st = Ok (a, st1) /\ k a st1 = Ok (b, st').
Proof.
  unfold bind. destruct (m st) as [[a st1]| |]; try discriminate.
  intros H; exists a, st1; split; [reflexivity | exact H].
Qed.

Lemma expect_inv (k : TokenType.t) (st st' : state) (t : Token) :
  _expect k st = Ok (t, st') ->
  _current_token st = Ok (t, st) /\ type t = k /\
  st' = mkState (tokens st) (S (pos st)).
Proof.
  unfold _expect. intros H. apply bind_inv in H.
  destruct H as [b [st1 [Hm H]]].
  apply match_inv in Hm. destruct Hm as [-> [t0 [Ht0 Hb]]].
  destruct b; cbn [negb] in H.
  - apply advance_inv in H. destruct H as [Ht ->].
    rewrite Ht0 in Ht. injection Ht as ->.
    cbn [existsb] in Hb. rewrite orb_false_r in Hb. symmetry in Hb.
    apply eqb_kind in Hb. repeat split; assumption.
  - apply bind_inv in H. destruct H as [t1 [st2 [_ H]]]. discriminate H.
Qed.

(** Breaks the equation [H : m st = Ok r] of a method written with [bind],
    [ret], [raise] and case analyses into the equations of its calls. *)
Ltac pinv H :=
  lazymatch type of H with
  | bind _ _ _ = Ok _ =>
      let a := fresh "a" in
      let s := fresh "st" in
      let H1 := fresh "H" in
      apply bind_inv in H; destruct H as (a & s & H1 & H);
      cbv beta in H; pinv H1; pinv H
  | ret _ _ = Ok _ =>
      unfold ret in H; first [discriminate H | injection H as ? ?; subst]
  | raise _ _ = Ok _ => discriminate H
  | out_of_fuel _ = Ok _ => discriminate H
  | (if negb ?b then _ else _) _ = Ok _ =>
      destruct b; cbn [negb] in H; pinv H
  | (match ?x with _ => _ end) _ = Ok _ => destruct x eqn:?; pinv H
  | _ => idtac
  end.

(** The token a method took with [_advance] right after [_match] accepted
    its kind. *)
Lemma matched_token (types : list TokenType.t) (st st1 st2 : state) (t : Token) :
  _match types st = Ok (true, st1) ->
  _advance st1 = Ok (t, st2) ->
  In t (tokens st) /\ In (type t) types /\
  st2 = mkState (tokens st) (S (pos st)).
Proof.
  intros Hm Ha. apply match_inv in Hm. destruct Hm as [-> [t0 [Ht0 Hb]]].
  apply advance_inv in Ha. destruct Ha as [Ht ->].
  rewrite Ht0 in Ht. injection Ht as ->.
  split; [exact (current_token_in _ _ _ Ht0)|]. split; [|reflexivity].
  symmetry in Hb. apply existsb_exists in Hb. destruct Hb as [k [Hin Hk]].
  apply eqb_kind in Hk. rewrite Hk. exact Hin.
Qed.

Lemma matched_identifier (st st1 st2 : state) (t : Token) :
  _match [IDENTIFIER] st = Ok (true, st1) ->
  _advance st1 = Ok (t, st2) ->
  from_identifier (tokens st) (value t).
Proof.
  intros Hm Ha. destruct (matched_token _ _ _ _ _ Hm Ha) as [Hin [Hk _]].
  exists t. split; [exact Hin|]. split; [|reflexivity].
  destruct Hk as [Hk | []]. symmetry; exact Hk.
Qed.

(** *** Values and conditions *)

Lemma value_list_loop_grows (fuel : nat) :
  forall values st vs st',
    value_list_loop fuel values st = Ok (vs, st') ->
    List.length values <= List.length vs.
Proof.
  induction fuel as [|fuel IH]; intros values st vs st' H;
    cbn [value_list_loop] in H; pinv H; [|lia].
  apply IH in H. rewrite length_app in H. cbn [List.length] in H. lia.
Qed.

Lemma parse_value_list_not_empty (fuel : nat) (st st' : state) (vs : list Value) :
  _parse_value_list fuel st = Ok (vs, st') -> vs <> [].
Proof.
  intros H. unfold _parse_value_list in H. pinv H;
    match goal with
    | Hl : value_list_loop _ _ _ = Ok _ |- _ =>
        apply value_list_loop_grows in Hl; cbn [List.length] in Hl
    end;
    intros ->; cbn [List.length] in *; lia.
Qed.

Lemma parse_operator_symbol (st st' : state) (op : string) :
  _parse_operator st = Ok (op, st') ->
  In op ["="; "!="; ">"; "<"; ">="; "<="].
Proof.
  intros H. unfold _parse_operator in H. pinv H.
  match goal with
  | E : op_lookup ?k op_map = Some _ |- _ => destruct k; cbv in E; try discriminate E;
                                             injection E as <-
  end; cbn [In]; tauto.
Qed.

Lemma parse_simple_condition_ok (fuel : nat) (st st' : state) (c : ConditionNode) :
  _parse_simple_condition fuel st = Ok (c, st') -> condition_ok c.
Proof.
  intros H. unfold _parse_simple_condition in H. pinv H; cbn [condition_ok];
    try exact I.
  - eapply parse_value_list_not_empty; eassumption.
  - eapply parse_operator_symbol; eassumption.
Qed.

Lemma condition_loop_ok (fuel fuel0 : nat) :
  forall left st c st',
    condition_ok left ->
    condition_loop fuel fuel0 left st = Ok (c, st') ->
    condition_ok c.
Proof.
  induction fuel as [|fuel IH]; intros left st c st' Hl H;
    cbn [condition_loop] in H; pinv H; try assumption;
    match goal with
    | Hs : _parse_simple_condition _ _ = Ok _ |- _ =>
        apply parse_simple_condition_ok in Hs
    end;
    (eapply IH; [|eassumption]); cbn [condition_ok]; split; assumption.
Qed.

Lemma parse_condition_ok (fuel : nat) (st st' : state) (c : ConditionNode) :
  _parse_condition fuel st = Ok (c, st') -> condition_ok c.
Proof.
  intros H. unfold _parse_condition in H. pinv H.
  eapply condition_loop_ok; [|eassumption].
  eapply parse_simple_condition_ok; eassumption.
Qed.

Lemma optional_where_ok (fuel : nat) (st st' : state) (w : option WhereNode) :
  optional_where fuel st = Ok (w, st') ->
  match w with
  | Some w => condition_ok (condition w)
  | None => True
  end.
Proof.
  intros H. unfold optional_where in H. pinv H; [|exact I].
  match goal with
  | Hw : _parse_where _ _ = Ok _ |- _ => unfold _parse_where in Hw; pinv Hw
  end.
  cbn [condition]. eapply parse_condition_ok; eassumption.
Qed.

Lemma parse_order_by_direction (st st' : state) (o : OrderByNode) :
  _parse_order_by st = Ok (o, st') ->
  direction o = "ASC" \/ direction o = "DESC".
Proof.
  intros H. unfold _parse_order_by in H. pinv H; cbn [direction]; tauto.
Qed.

Lemma column_loop_grows {A : Type} (inj : string -> A) (fuel : nat) :
  forall columns st cs st',
    column_loop inj fuel columns st = Ok (cs, st') ->
    List.length columns <= List.length cs.
Proof.
  induction fuel as [|fuel IH]; intros columns st cs st' H;
    cbn [column_loop] in H; pinv H; try lia.
  - apply IH in H. rewrite length_app in H. cbn [List.length] in H. lia.
  - apply IH in H. exact H.
Qed.

(** *** Statements *)

(** Adds, for every call equation in the context, that the call left the
    token list as it was. *)
Ltac same_tokens :=
  repeat match goal with
  | H : ?m ?s = Ok (?a, ?s') |- _ =>
      lazymatch goal with
      | _ : tokens s' = tokens s |- _ => fail
      | _ =>
          let Hs := fresh "Hsteady" in
          let Ht := fresh "Htokens" in
          assert (Hs : steady m) by steady;
          destruct (Hs s a s' H) as [Ht _]; clear Hs
      end
  end.

Lemma from_identifier_tokens (l l' : list Token) (name : string) :
  l = l' -> from_identifier l name -> from_identifier l' name.
Proof. intros ->; trivial. Qed.

(** Finds the identifier a name was read from. *)
Ltac identifier_read :=
  match goal with
  | Hm : _match [IDENTIFIER] ?s = Ok (true, ?s1),
    Ha : _advance ?s1 = Ok (?t, _) |- from_identifier _ (value ?t) =>
      apply (from_identifier_tokens (tokens s));
      [congruence | exact (matched_identifier _ _ _ _ Hm Ha)]
  end.

Lemma parse_from_table (allow_missing : bool) (st st' : state) (name : string) :
  _parse_from allow_missing st = Ok (Some name, st') ->
  from_identifier (tokens st) name.
Proof.
  intros H. unfold _parse_from in H. pinv H; same_tokens; identifier_read.
Qed.

Lemma optional_identifier_read (st st' : state) (name : string) :
  optional_identifier st = Ok (Some name, st') ->
  from_identifier (tokens st) name.
Proof.
  intros H. unfold optional_identifier in H. pinv H; same_tokens.
  identifier_read.
Qed.

Lemma from_table_read (target : option string) (st st' : state) (name : string) :
  from_table target st = Ok (Some name, st') ->
  target = Some name \/ from_identifier (tokens st) name.
Proof.
  intros H. unfold from_table in H. pinv H; same_tokens;
    first [left; reflexivity | right; identifier_read].
Qed.

Lemma parse_insert_ok (fuel : nat) (st st' : state) (n : InsertNode) :
  _parse_insert fuel st = Ok (n, st') ->
  from_identifier (tokens st) (insert_table n) /\
  insert_values n <> [] /\ insert_columns n = None.
Proof.
  intros H. unfold _parse_insert in H. pinv H.
  cbn [insert_table insert_values insert_columns].
  split; [same_tokens; identifier_read|].
  split; [eapply parse_value_list_not_empty; eassumption | reflexivity].
Qed.

Lemma parse_update_ok (fuel : nat) (st st' : state) (n : UpdateNode) :
  _parse_update fuel st = Ok (n, st') ->
  from_identifier (tokens st) (update_table n) /\
  from_identifier (tokens st) (set_column n) /\
  match update_where n with
  | Some w => condition_ok (condition w)
  | None => True
  end.
Proof.
  intros H. unfold _parse_update in H. pinv H.
  cbn [update_table set_column update_where].
  split; [same_tokens; identifier_read|].
  split; [same_tokens; identifier_read|].
  eapply optional_where_ok; eassumption.
Qed.

Lemma column_loop_identifiers (fuel : nat) :
  forall columns st cs st',
    Forall (from_identifier (tokens st)) columns ->
    column_loop (fun s => s) fuel columns st = Ok (cs, st') ->
    Forall (from_identifier (tokens st)) cs.
Proof.
  induction fuel as [|fuel IH]; intros columns st cs st' Hall H;
    cbn [column_loop] in H; pinv H; try assumption; same_tokens.
  - match goal with
    | Hl : column_loop _ _ _ ?s = Ok _ |- _ =>
        assert (Hs : tokens s = tokens st) by congruence;
        apply IH in Hl; [rewrite Hs in Hl; exact Hl|]
    end.
    rewrite Hs. apply Forall_app; split; [exact Hall|].
    constructor; [identifier_read | constructor].
  - match goal with
    | Hl : column_loop _ _ _ ?s = Ok _ |- _ =>
        assert (Hs : tokens s = tokens st) by congruence;
        apply IH in Hl; [rewrite Hs in Hl; exact Hl|]
    end.
    rewrite Hs; exact Hall.
Qed.

Lemma parse_drop_column_ok (fuel : nat) (st st' : state) (n : AlterTableNode) :
  _parse_drop_column fuel st = Ok (n, st') ->
  from_identifier (tokens st) (alter_table n) /\
  action n = "DROP COLUMN" /\
  Forall (from_identifier (tokens st)) (alter_columns n).
Proof.
  intros H. unfold _parse_drop_column in H. pinv H;
    cbn [alter_table action alter_columns]; same_tokens;
    (split; [identifier_read|]); (split; [reflexivity|]).
  - match goal with
    | Hl : column_loop _ _ _ ?s = Ok _ |- _ =>
        assert (Hs : tokens s = tokens st) by congruence;
        apply column_loop_identifiers in Hl; [rewrite Hs in Hl; exact Hl|]
    end.
    rewrite Hs. constructor; [identifier_read | constructor].
  - constructor.
Qed.

Lemma parse_alter_ok (st st' : state) (n : AlterTableNode) :
  _parse_alter st = Ok (n, st') ->
  from_identifier (tokens st) (alter_table n) /\
  action n = "DROP COLUMN" /\
  Forall (from_identifier (tokens st)) (alter_columns n).
Proof.
  intros H. unfold _parse_alter in H. pinv H;
    cbn [alter_table action alter_columns]; same_tokens;
    (split; [identifier_read|]); (split; [reflexivity|]).
  - constructor; [identifier_read | constructor].
  - constructor.
Qed.

(** Closes [from_identifier (tokens st) name] for a table name that was
    read by [_parse_from], by [optional_identifier] or straight from an
    identifier token. *)
Ltac table_read :=
  let name := fresh "name" in
  let Hname := fresh "Hname" in
  intros name Hname;
  first
    [ discriminate Hname
    | try (injection Hname as <-); subst;
      first [identifier_read |
      match goal with
      | H : _parse_from _ ?s = Ok (Some _, _) |- _ =>
          apply (from_identifier_tokens (tokens s));
          [congruence | exact (parse_from_table _ _ _ _ H)]
      | H : optional_identifier ?s = Ok (Some _, _) |- _ =>
          apply (from_identifier_tokens (tokens s));
          [congruence | exact (optional_identifier_read _ _ _ H)]
      end] ].

Ltac where_read :=
  match goal with
  | H : optional_where _ _ = Ok (?w, _) |- _ =>
      exact (optional_where_ok _ _ _ _ H)
  end.

Lemma parse_select_ok (fuel : nat) (st st' : state) (n : SelectNode) :
  _parse_select fuel st = Ok (n, st') ->
  statement_ok (Select n) /\
  forall name, select_table n = Some name -> from_identifier (tokens st) name.
Proof.
  intros H. unfold _parse_select in H. pinv H; same_tokens;
    unfold statement_ok;
    cbn [statement_where select_where select_columns select_order_by
         select_aggregate select_table];
    (split; [split; [where_read|]; split; [|split; [|exact I]] | table_read]);
    try discriminate;
    try exact I;
    try (eapply parse_order_by_direction; eassumption);
    try (destruct (value _); discriminate);
    intros ->;
    match goal with
    | Hl : column_loop _ _ _ _ = Ok ([], _) |- _ =>
        apply column_loop_grows in Hl; cbn [List.length] in Hl; lia
    end.
Qed.

Lemma target_table (st st1 st2 : state) (target : option string) (name : string) :
  optional_identifier st = Ok (target, st1) ->
  from_table target st1 = Ok (Some name, st2) ->
  from_identifier (tokens st) name.
Proof.
  intros Ho Hf. same_tokens.
  destruct (from_table_read _ _ _ _ Hf) as [-> | H].
  - exact (optional_identifier_read _ _ _ Ho).
  - apply (from_identifier_tokens (tokens st1)); [congruence | exact H].
Qed.

Ltac target_read :=
  let name := fresh "name" in
  let Hname := fresh "Hname" in
  intros name Hname; cbn [select_table] in Hname; subst;
  match goal with
  | Ho : optional_identifier ?s = Ok (?target, _),
    Hf : from_table ?target _ = Ok (Some _, _) |- _ =>
      apply (from_identifier_tokens (tokens s));
      [congruence | exact (target_table _ _ _ _ _ Ho Hf)]
  end.

Lemma parse_count_ok (fuel : nat) (st st' : state) (n : SelectNode) :
  _parse_count fuel st = Ok (n, st') ->
  statement_ok (Select n) /\
  forall name, select_table n = Some name -> from_identifier (tokens st) name.
Proof.
  intros H. unfold _parse_count in H. pinv H; same_tokens;
    unfold statement_ok;
    cbn [statement_where select_where select_columns select_order_by
         select_aggregate select_table function aggregate_column];
    (split; [split; [where_read|]; split; [discriminate|]; split; [exact I|]
            | target_read]);
    left; repeat split.
Qed.

Lemma parse_sum_ok (fuel : nat) (st st' : state) (n : SelectNode) :
  _parse_sum fuel st = Ok (n, st') ->
  statement_ok (Select n) /\
  forall name, select_table n = Some name -> from_identifier (tokens st) name.
Proof.
  intros H. unfold _parse_sum in H. pinv H; same_tokens;
    unfold statement_ok;
    cbn [statement_where select_where select_columns select_order_by
         select_aggregate select_table function aggregate_column];
    (split; [split; [where_read|]; split; [discriminate|]; split; [exact I|]
            | target_read]);
    right; (split; [reflexivity|]); eexists; (split; [reflexivity|]);
    match goal with
    | |- context [match ?x with _ => _ end] => destruct x as [[|? ?]|]
    end; reflexivity.
Qed.

Lemma parse_find_ok (fuel : nat) (st st' : state) (n : SelectNode) :
  _parse_find fuel st = Ok (n, st') ->
  statement_ok (Select n) /\
  forall name, select_table n = Some name -> from_identifier (tokens st) name.
Proof.
  intros H. unfold _parse_find in H. pinv H; same_tokens;
    unfold statement_ok;
    cbn [statement_where select_where select_columns select_order_by
         select_aggregate select_table];
    (split; [split; [where_read|]; split; [discriminate|]; split; exact I
            | table_read]).
Qed.

Lemma parse_delete_ok (fuel : nat) (st st' : state) (ast : ASTNode) :
  _parse_delete fuel st = Ok (ast, st') ->
  statement_ok ast /\
  forall name, statement_table ast = Some name -> from_identifier (tokens st) name.
Proof.
  intros H. unfold _parse_delete in H. pinv H; same_tokens;
    unfold statement_ok; cbn [statement_where statement_table delete_where delete_table].
  - match goal with
    | Hd : _parse_drop_column _ ?s = Ok _ |- _ =>
        destruct (parse_drop_column_ok _ _ _ _ Hd) as [Ht [Ha _]];
        split; [split; [exact I | exact Ha]|];
        intros name [= <-];
        apply (from_identifier_tokens (tokens s)); [congruence | exact Ht]
    end.
  - split; [split; [where_read | exact I] | table_read].
  - split; [split; [where_read | exact I] | table_read].
Qed.

(** Every node [parse] returns is well shaped, and the table it names, when
    it names one, is the lexeme of an IDENTIFIER token of the list. *)
Lemma parse_method_ok (fuel : nat) (st st' : state) (ast : ASTNode) :
  parse_method fuel st = Ok (ast, st') ->
  statement_ok ast /\
  forall name, statement_table ast = Some name -> from_identifier (tokens st) name.
Proof.
  intros H. unfold parse_method in H. pinv H; same_tokens;
    match goal with
    | Hp : ?m ?s = Ok (?node, _) |- statement_ok (?C ?node) /\ _ =>
        assert (Hs : tokens s = tokens st) by congruence; rewrite <- Hs
    | Hp : _parse_delete _ ?s = Ok _ |- _ =>
        assert (Hs : tokens s = tokens st) by congruence; rewrite <- Hs
    end.
  - eapply parse_select_ok; eassumption.
  - eapply parse_count_ok; eassumption.
  - eapply parse_count_ok; eassumption.
  - eapply parse_sum_ok; eassumption.
  - eapply parse_find_ok; eassumption.
  - match goal with
    | Hp : _parse_insert _ _ = Ok _ |- _ =>
        destruct (parse_insert_ok _ _ _ _ Hp) as [Ht [Hv Hc]]
    end.
    split; [split; [exact I | split; assumption]|].
    intros name [= <-]; exact Ht.
  - match goal with
    | Hp : _parse_update _ _ = Ok _ |- _ =>
        destruct (parse_update_ok _ _ _ _ Hp) as [Ht [_ Hw]]
    end.
    split; [split; [exact Hw | exact I]|].
    intros name [= <-]; exact Ht.
  - eapply parse_delete_ok; eassumption.
  - match goal with
    | Hp : _parse_alter _ = Ok _ |- _ =>
        destruct (parse_alter_ok _ _ _ Hp) as [Ht [Ha _]]
    end.
    split; [split; [exact I | exact Ha]|].
    intros name [= <-]; exact Ht.
Qed.

End AstFacts.

(* ================================================================== *)
(** ** The preprocessed text, blank input and the first token *)
(* ================================================================== *)

Module EdgeFacts.

Import TokenType.

Lemma collapse_collapsed (s : string) :
  forall b, collapsed_from b (Py.collapse_from b s) = true.
Proof.
  induction s as [|c s IH]; intros b; [reflexivity|].
  cbn [Py.collapse_from].
  destruct (Py.isspace c) eqn:Hc.
  - destruct b; [apply IH|].
    cbn [collapsed_from]. change (Py.isspace " ") with true. cbn iota.
    rewrite IH. reflexivity.
  - cbn [collapsed_from]. rewrite Hc. apply IH.
Qed.

(** The tokens of a text: the loop started with enough fuel. *)
Lemma tokenize_some (text : string) :
  exists tokens, Lexer.tokenize text = Some tokens.
Proof.
  destruct (LexerFacts.tokenize_loop_total
              (S (String.length (Lexer._preprocess text)))
              (Lexer.mkState (Lexer._preprocess text) 0)) as [ts [H _]];
    [cbn [Lexer.rest]; lia|].
  exists ts; exact H.
Qed.

(** *** Blank input *)

Lemma lower_blank (s : string) :
  forallb Py.isspace (list_ascii_of_string s) = true ->
  forallb Py.isspace (list_ascii_of_string (Py.lower s)) = true.
Proof.
  induction s as [|c s IH]; [trivial|].
  cbn [list_ascii_of_string forallb Py.lower]. intros H.
  apply andb_true_iff in H; destruct H as [Hc Hs].
  rewrite (IH Hs), andb_true_r.
  revert Hc. destruct c as [[] [] [] [] [] [] [] []]; intros Hc;
    solve [discriminate Hc | reflexivity].
Qed.

Lemma lstrip_blank (s : string) :
  forallb Py.isspace (list_ascii_of_string s) = true ->
  Py.lstrip s = EmptyString.
Proof.
  induction s as [|c s IH]; [trivial|].
  cbn [list_ascii_of_string forallb Py.lstrip]. intros H.
  apply andb_true_iff in H; destruct H as [-> Hs]. exact (IH Hs).
Qed.

Lemma preprocess_blank (text : string) :
  forallb Py.isspace (list_ascii_of_string text) = true ->
  Lexer._preprocess text = EmptyString.
Proof.
  intros H. unfold Lexer._preprocess, Py.strip.
  rewrite (lstrip_blank _ (lower_blank _ H)). reflexivity.
Qed.

End EdgeFacts.

(* ================================================================== *)
(** ** Phrases that are replaced too late *)
(* ================================================================== *)

Module ReplaceFacts.

Lemma prefix_empty (q : string) : String.prefix q EmptyString = true -> q = EmptyString.
Proof. destruct q; [trivial | discriminate]. Qed.

Lemma prefix_cons (d c : ascii) (q s : string) :
  String.prefix (String d q) (String c s) = true <->
  d = c /\ String.prefix q s = true.
Proof.
  cbn [String.prefix].
  destruct (ascii_dec d c) as [->|Hn]; split.
  - intros H; split; [reflexivity | exact H].
  - intros [_ H]; exact H.
  - discriminate.
  - intros [H _]; contradiction.
Qed.

Lemma occurs_cons (p : string) (c : ascii) (s : string) :
  Py.occurs p (String c s) = Py.startswith p (String c s) || Py.occurs p s.
Proof. reflexivity. Qed.

Section OneReplacement.

Variables old new p : string.
Variables n0 p0 : ascii.
Variables new' p' : string.

Hypothesis new_shape : new = String n0 new'.
Hypothesis p_shape : p = String p0 p'.
(** The replacement starts with a character the phrase [p] does not have,
    and holds nowhere the first character of [p]. *)
Hypothesis new_head_not_in_p : Py.contains n0 p = false.
Hypothesis p_head_not_in_new : Py.contains p0 new = false.

(** An occurrence of [p] cannot start inside the replacement. *)
Lemma occurs_after_new (r : string) :
  forall piece, Py.contains p0 piece = false ->
                Py.occurs p (piece ++ r) = Py.occurs p r.
Proof.
  induction piece as [|c piece IH]; intros H; [reflexivity|].
  cbn [append]. rewrite occurs_cons.
  cbn [Py.contains] in H. apply orb_false_iff in H; destruct H as [Hc Hp].
  rewrite (IH Hp).
  assert (Hs : Py.startswith p (String c (piece ++ r)) = false).
  { unfold Py.startswith. rewrite p_shape. cbn [String.prefix].
    destruct (ascii_dec p0 c) as [->|]; [|reflexivity].
    rewrite Ascii.eqb_refl in Hc; discriminate Hc. }
  rewrite Hs. reflexivity.
Qed.

(** What the result starts with, the text started with, as far as the
    characters of [q] exclude the head of the replacement. *)
Lemma prefix_of_replaced (s : string) :
  forall q, Py.contains n0 q = false ->
            String.prefix q (Py.replace_from old new 0 s) = true ->
            String.prefix q s = true.
Proof.
  induction s as [|c s IH]; intros q Hq H; [exact H|].
  destruct q as [|d q]; [reflexivity|].
  cbn [Py.contains] in Hq. apply orb_false_iff in Hq; destruct Hq as [Hd Hq].
  cbn [Py.replace_from] in H.
  destruct (Py.startswith old (String c s)).
  - rewrite new_shape in H. cbn [append] in H.
    apply prefix_cons in H. destruct H as [-> _].
    rewrite Ascii.eqb_refl in Hd; discriminate Hd.
  - apply prefix_cons in H. destruct H as [-> H].
    apply prefix_cons. split; [reflexivity | exact (IH q Hq H)].
Qed.

(** A replacement creates no occurrence of [p]. *)
Lemma occurs_preserved (s : string) :
  forall skip, Py.occurs p s = false ->
               Py.occurs p (Py.replace_from old new skip s) = false.
Proof.
  induction s as [|c s IH]; intros skip H.
  - cbn [Py.replace_from]. exact H.
  - rewrite occurs_cons in H. apply orb_false_iff in H; destruct H as [Hpre Hs].
    cbn [Py.replace_from]. destruct skip as [|k]; [|exact (IH k Hs)].
    destruct (Py.startswith old (String c s)) eqn:Hold.
    + rewrite (occurs_after_new _ new p_head_not_in_new). exact (IH _ Hs).
    + rewrite occurs_cons. rewrite (IH 0 Hs), orb_false_r.
      destruct (Py.startswith p (String c (Py.replace_from old new 0 s))) eqn:E;
        [|reflexivity].
      assert (E' : String.prefix p (Py.replace_from old new 0 (String c s)) = true)
        by (cbn [Py.replace_from]; rewrite Hold; exact E).
      apply (prefix_of_replaced _ p new_head_not_in_p) in E'.
      unfold Py.startswith in Hpre. rewrite E' in Hpre. discriminate Hpre.
Qed.

(** After its own replacement a phrase occurs no more. *)
Lemma occurs_removed (s : string) :
  old = p ->
  forall skip, Py.occurs p (Py.replace_from old new skip s) = false.
Proof.
  intros Hold.
  induction s as [|c s IH]; intros skip.
  - cbn [Py.replace_from]. rewrite p_shape. reflexivity.
  - cbn [Py.replace_from]. destruct skip as [|k]; [|exact (IH k)].
    destruct (Py.startswith old (String c s)) eqn:Hstart.
    + rewrite (occurs_after_new _ new p_head_not_in_new). exact (IH _).
    + rewrite occurs_cons. rewrite (IH 0), orb_false_r.
      destruct (Py.startswith p (String c (Py.replace_from old new 0 s))) eqn:E;
        [|reflexivity].
      assert (E' : String.prefix p (Py.replace_from old new 0 (String c s)) = true)
        by (cbn [Py.replace_from]; rewrite Hstart; exact E).
      apply (prefix_of_replaced _ p new_head_not_in_p) in E'.
      unfold Py.startswith in Hstart. rewrite Hold, E' in Hstart.
      discriminate Hstart.
Qed.

End OneReplacement.

(** A phrase that contains [p] occurs only where [p] does. *)

Lemma prefix_append_left (p b s : string) :
  String.prefix (p ++ b) s = true -> String.prefix p s = true.
Proof.
  revert s; induction p as [|c p IH]; intros s H; [destruct s; reflexivity|].
  destruct s as [|d s]; [discriminate H|].
  cbn [append] in H. apply prefix_cons in H. destruct H as [-> H].
  apply prefix_cons. split; [reflexivity | exact (IH s H)].
Qed.

Lemma prefix_occurs (a p b : string) :
  forall s, String.prefix (a ++ p ++ b) s = true -> Py.occurs p s = true.
Proof.
  induction a as [|x a IH]; intros s H.
  - cbn [append] in H. apply prefix_append_left in H.
    destruct s; cbn [Py.occurs]; unfold Py.startswith; rewrite H; reflexivity.
  - destruct s as [|d s]; [discriminate H|].
    cbn [append] in H. apply prefix_cons in H. destruct H as [_ H].
    rewrite occurs_cons, (IH s H). apply orb_true_r.
Qed.

Lemma occurs_inside (a p b : string) (s : string) :
  Py.occurs p s = false -> Py.occurs (a ++ p ++ b) s = false.
Proof.
  induction s as [|c s IH]; intros H.
  - cbn [Py.occurs] in *. rewrite orb_false_r in *.
    destruct (Py.startswith (a ++ p ++ b) "") eqn:E; [|reflexivity].
    apply prefix_occurs in E. cbn [Py.occurs] in E.
    rewrite orb_false_r in E. rewrite E in H; discriminate H.
  - rewrite occurs_cons in *. apply orb_false_iff in H; destruct H as [Hpre Hs].
    rewrite (IH Hs), orb_false_r.
    destruct (Py.startswith (a ++ p ++ b) (String c s)) eqn:E; [|reflexivity].
    apply prefix_occurs in E. rewrite occurs_cons, Hpre, Hs in E.
    discriminate E.
Qed.

(** *** The lexer's table *)

Lemma no_equal_after_padded (old s : string) :
  Py.occurs "equal" s = false ->
  Py.occurs "equal" (Py.replace old " = " s) = false.
Proof.
  apply (occurs_preserved old " = " "equal" " " "e" "= " "qual");
    reflexivity.
Qed.

Lemma no_equal_after_equal_padded (s : string) :
  Py.occurs "equal" (Py.replace "equal" " = " s) = false.
Proof.
  apply (occurs_removed "equal" " = " "equal" " " "e" "= " "qual");
    reflexivity.
Qed.

Lemma live_phrases_listed :
  live_phrases
  = [ ("greater than or equal to", ">="); ("less than or equal to", "<=");
      ("greater than", ">"); ("more than", ">"); ("less than", "<");
      ("is equal to", "="); ("equal to", "="); ("equals", "=");
      ("equal", "="); ("same as", "="); ("different from", "!=") ].
Proof. vm_compute. reflexivity. Qed.

Lemma replace_phrases_live (t : string) :
  Lexer.replace_phrases Lexer.OPERATOR_PHRASES t
  = Lexer.replace_phrases live_phrases t.
Proof.
  rewrite live_phrases_listed. unfold Lexer.OPERATOR_PHRASES.
  cbn [Lexer.replace_phrases append].
  set (before := Py.replace "same as" " = " _).
  assert (Hno : Py.occurs "equal" before = false).
  { unfold before. apply no_equal_after_padded, no_equal_after_equal_padded. }
  rewrite (PreprocessFacts.replace_absent "not equal to" _ before
             (occurs_inside "not " "equal" " to" before Hno)).
  rewrite (PreprocessFacts.replace_absent "not equal" _ before
             (occurs_inside "not " "equal" "" before Hno)).
  reflexivity.
Qed.

(** *** The fallback translator's replacements *)

Lemma no_equal_after_bare (old s : string) :
  Py.occurs "equal" s = false ->
  Py.occurs "equal" (Py.replace old "=" s) = false.
Proof.
  apply (occurs_preserved old "=" "equal" "=" "e" "" "qual"); reflexivity.
Qed.

Lemma no_equal_after_equal_bare (s : string) :
  Py.occurs "equal" (Py.replace "equal" "=" s) = false.
Proof.
  apply (occurs_removed "equal" "=" "equal" "=" "e" "" "qual"); reflexivity.
Qed.

Lemma normalize_operators_is_live (text : string) :
  Legacy.normalize_operators text = normalize_operators_live text.
Proof.
  unfold Legacy.normalize_operators, normalize_operators_live.
  cbv zeta.
  set (before := Py.replace "same as" "=" _).
  assert (Hno : Py.occurs "equal" before = false).
  { unfold before. apply no_equal_after_bare, no_equal_after_equal_bare. }
  rewrite (PreprocessFacts.replace_absent "greater than or equal to" _ before
             (occurs_inside "greater than or " "equal" " to" before Hno)).
  rewrite (PreprocessFacts.replace_absent "less than or equal to" _ before
             (occurs_inside "less than or " "equal" " to" before Hno)).
  reflexivity.
Qed.

End ReplaceFacts.

(* ================================================================== *)
(** ** Scanning a text with and without the whitespace at its ends *)
(* ================================================================== *)

Module StripFacts.

Import TokenType Lexer.

(** *** The ends of a text *)

Lemma rstrip_blank (w : string) : blank w -> Py.rstrip w = EmptyString.
Proof.
  unfold blank. induction w as [|c w IH]; [reflexivity|].
  cbn [list_ascii_of_string forallb Py.rstrip]. intros H.
  apply andb_true_iff in H; destruct H as [Hc Hw].
  rewrite (IH Hw), Hc. reflexivity.
Qed.

Lemma rstrip_split (s : string) :
  exists w, s = Py.rstrip s ++ w /\ blank w.
Proof.
  induction s as [|c s IH]; [exists EmptyString; split; reflexivity|].
  destruct IH as [w [Hs Hw]]. cbn [Py.rstrip].
  destruct (Py.rstrip s) as [|d r] eqn:E.
  - cbn [append] in Hs. subst w.
    destruct (Py.isspace c) eqn:Hc.
    + exists (String c s). split; [reflexivity|].
      unfold blank in *.
      cbn [list_ascii_of_string forallb]. rewrite Hc, Hw. reflexivity.
    + exists s. split; [reflexivity | exact Hw].
  - exists w. split; [|exact Hw]. cbn [append]. rewrite Hs at 1. reflexivity.
Qed.

Lemma rstrip_append_blank (a w : string) :
  blank w -> Py.rstrip (a ++ w) = Py.rstrip a.
Proof.
  intros Hw. induction a as [|c a IH]; cbn [append].
  - exact (rstrip_blank w Hw).
  - cbn [Py.rstrip]. rewrite IH. reflexivity.
Qed.

(** A text that [rstrip] leaves as it is does not end in whitespace. *)
Lemma rstrip_fixed_end (a w : string) :
  blank w -> Py.rstrip (a ++ w) = a ++ w -> w = EmptyString.
Proof.
  intros Hw H. rewrite (rstrip_append_blank a w Hw) in H.
  destruct (rstrip_split a) as [w' [Ha _]].
  assert (Hlen : String.length (Py.rstrip a)
                 = String.length a + String.length w)
    by (rewrite H; apply OffsetFacts.length_append).
  apply (f_equal String.length) in Ha.
  rewrite OffsetFacts.length_append in Ha.
  destruct w; [reflexivity | cbn [String.length] in Hlen; lia].
Qed.

Lemma lstrip_span (s : string) : Py.lstrip s = snd (Py.span Py.isspace s).
Proof.
  induction s as [|c s IH]; [reflexivity|].
  cbn [Py.lstrip Py.span]. destruct (Py.isspace c); [|reflexivity].
  rewrite IH. destruct (Py.span Py.isspace s); reflexivity.
Qed.

(** *** Phrases and whitespace of a stripped text *)

Lemma prefix_append (p a w : string) :
  String.prefix p a = true -> String.prefix p (a ++ w) = true.
Proof.
  revert a. induction p as [|c p IH]; intros a H.
  - destruct (a ++ w); reflexivity.
  - destruct a as [|d a]; [discriminate H|].
    cbn [append]. apply ReplaceFacts.prefix_cons in H. destruct H as [-> H].
    apply ReplaceFacts.prefix_cons. split; [reflexivity | exact (IH a H)].
Qed.

Lemma occurs_append (p a w : string) :
  Py.occurs p a = true -> Py.occurs p (a ++ w) = true.
Proof.
  induction a as [|c a IH]; intros H.
  - cbn [Py.occurs] in H. rewrite orb_false_r in H. unfold Py.startswith in H.
    apply ReplaceFacts.prefix_empty in H. subst p.
    destruct (EmptyString ++ w) eqn:E; cbn [Py.occurs]; unfold Py.startswith;
      reflexivity.
  - cbn [append]. rewrite ReplaceFacts.occurs_cons in *.
    apply orb_true_iff in H. apply orb_true_iff. destruct H as [H | H].
    + left. exact (prefix_append p (String c a) w H).
    + right. exact (IH H).
Qed.

Lemma occurs_lstrip (p s : string) :
  Py.occurs p (Py.lstrip s) = true -> Py.occurs p s = true.
Proof.
  induction s as [|c s IH]; [trivial|].
  cbn [Py.lstrip]. destruct (Py.isspace c); [|trivial].
  intros H. rewrite ReplaceFacts.occurs_cons. rewrite (IH H).
  apply orb_true_r.
Qed.

Lemma occurs_strip (p s : string) :
  Py.occurs p (Py.strip s) = true -> Py.occurs p s = true.
Proof.
  unfold Py.strip. intros H. apply occurs_lstrip.
  destruct (rstrip_split (Py.lstrip s)) as [w [Hs _]]. rewrite Hs.
  apply occurs_append. exact H.
Qed.

Lemma phrase_strip (s : string) :
  has_operator_phrase s = false -> has_operator_phrase (Py.strip s) = false.
Proof.
  intros H.
  destruct (has_operator_phrase (Py.strip s)) eqn:E; [|reflexivity].
  unfold has_operator_phrase in E.
  apply existsb_exists in E. destruct E as [entry [Hin Hocc]].
  rewrite <- H. symmetry. apply existsb_exists.
  exists entry. split; [exact Hin | exact (occurs_strip _ _ Hocc)].
Qed.

Lemma collapsed_fixed (s : string) :
  forall b, collapsed_from b s = true -> Py.collapse_from b s = s.
Proof.
  induction s as [|c s IH]; intros b H; [reflexivity|].
  cbn [collapsed_from Py.collapse_from] in *.
  destruct (Py.isspace c).
  - apply andb_true_iff in H; destruct H as [H Hs].
    apply andb_true_iff in H; destruct H as [Hc Hb].
    apply Ascii.eqb_eq in Hc. subst c.
    destruct b; [discriminate Hb|]. rewrite (IH true Hs). reflexivity.
  - rewrite (IH false H). reflexivity.
Qed.

Lemma collapsed_lstrip (s : string) :
  forall b, collapsed_from b s = true -> collapsed_from false (Py.lstrip s) = true.
Proof.
  induction s as [|c s IH]; intros b H; [reflexivity|].
  cbn [Py.lstrip]. cbn [collapsed_from] in H.
  destruct (Py.isspace c) eqn:Hc.
  - apply andb_true_iff in H; destruct H as [_ Hs]. exact (IH true Hs).
  - cbn [collapsed_from]. rewrite Hc. exact H.
Qed.

Lemma collapsed_prefix (a w : string) :
  forall b, collapsed_from b (a ++ w) = true -> collapsed_from b a = true.
Proof.
  induction a as [|c a IH]; intros b H; [reflexivity|].
  cbn [append collapsed_from] in *.
  destruct (Py.isspace c).
  - apply andb_true_iff in H; destruct H as [H Hs].
    rewrite H, (IH true Hs). reflexivity.
  - exact (IH false H).
Qed.

Lemma collapsed_strip (s : string) :
  collapsed s = true -> collapsed (Py.strip s) = true.
Proof.
  unfold collapsed, Py.strip. intros H.
  apply collapsed_lstrip in H.
  destruct (rstrip_split (Py.lstrip s)) as [w [Hs _]].
  rewrite Hs in H. exact (collapsed_prefix _ _ _ H).
Qed.

(** Preprocessing a preprocessed text that holds no operator phrase only
    strips it. *)
Lemma preprocess_again (text : string) :
  has_operator_phrase (_preprocess text) = false ->
  _preprocess (_preprocess text) = Py.strip (_preprocess text).
Proof.
  intros H. unfold _preprocess at 1.
  rewrite (PreprocessFacts.preprocess_lowered text).
  rewrite (PreprocessFacts.replace_phrases_absent _ _ (phrase_strip _ H)).
  apply collapsed_fixed. apply collapsed_strip.
  unfold _preprocess, Py.collapse_whitespace, collapsed.
  apply EdgeFacts.collapse_collapsed.
Qed.

(** *** The readers, by the text that is left *)

Lemma span_full (p : ascii -> bool) (w : string) :
  forallb p (list_ascii_of_string w) = true -> Py.span p w = (w, EmptyString).
Proof.
  induction w as [|c w IH]; [reflexivity|].
  cbn [list_ascii_of_string forallb Py.span]. intros H.
  apply andb_true_iff in H; destruct H as [Hc Hw].
  rewrite Hc, (IH Hw). reflexivity.
Qed.

(** A reader that stops at whitespace does not see the whitespace appended
    to the text. *)
Lemma span_append_stop (p : ascii -> bool) (a w : string) :
  match w with
  | EmptyString => True
  | String c _ => p c = false
  end ->
  Py.span p (a ++ w) = (fst (Py.span p a), snd (Py.span p a) ++ w).
Proof.
  intros Hw. induction a as [|c a IH]; cbn [append].
  - destruct w as [|d w]; [reflexivity|]. cbn [Py.span]. rewrite Hw. reflexivity.
  - cbn [Py.span]. destruct (p c); [|reflexivity].
    rewrite IH. destruct (Py.span p a); reflexivity.
Qed.

(** A reader that goes through whitespace takes the whitespace appended to
    the text when it reaches the end of the text. *)
Lemma span_append_pass (p : ascii -> bool) (a w : string) :
  forallb p (list_ascii_of_string w) = true ->
  Py.span p (a ++ w)
  = match snd (Py.span p a) with
    | EmptyString => (a ++ w, EmptyString)
    | String _ _ => (fst (Py.span p a), snd (Py.span p a) ++ w)
    end.
Proof.
  intros Hw. induction a as [|c a IH]; cbn [append].
  - exact (span_full p w Hw).
  - cbn [Py.span]. destruct (p c); [|reflexivity].
    rewrite IH. destruct (Py.span p a) as [x y]. cbn [fst snd].
    destruct y; reflexivity.
Qed.

Lemma lstrip_head (s : string) (d : ascii) (b : string) :
  Py.lstrip s = String d b -> Py.isspace d = false.
Proof.
  induction s as [|c s IH]; [discriminate|].
  cbn [Py.lstrip]. destruct (Py.isspace c) eqn:Hc; [exact IH|].
  intros [= <- _]. exact Hc.
Qed.

Lemma lstrip_append_blank (r w : string) :
  blank w ->
  Py.lstrip (r ++ w)
  = match Py.lstrip r with
    | EmptyString => EmptyString
    | String _ _ => Py.lstrip r ++ w
    end.
Proof.
  intros Hw. induction r as [|c r IH]; cbn [append].
  - exact (EdgeFacts.lstrip_blank w Hw).
  - cbn [Py.lstrip]. destruct (Py.isspace c); [exact IH|].
    reflexivity.
Qed.

Lemma skip_at (r : string) (p : nat) :
  _skip_whitespace (mkState r p)
  = mkState (Py.lstrip r) (p + String.length (fst (Py.span Py.isspace r))).
Proof.
  unfold _skip_whitespace, read_while. cbn [rest pos]. rewrite lstrip_span.
  destruct (Py.span Py.isspace r); reflexivity.
Qed.

Lemma skip_length (r : string) :
  String.length (fst (Py.span Py.isspace r)) + String.length (Py.lstrip r)
  = String.length r.
Proof.
  rewrite lstrip_span, <- OffsetFacts.length_append,
    LexerInvariants.span_append. reflexivity.
Qed.

Lemma read_number_at (r : string) (p : nat) :
  _read_number (mkState r p)
  = (mkToken NUMBER
       (fst (Py.span (fun c => Py.isdigit c || Ascii.eqb c ".") r)) p,
     mkState (snd (Py.span (fun c => Py.isdigit c || Ascii.eqb c ".") r))
       (p + String.length
              (fst (Py.span (fun c => Py.isdigit c || Ascii.eqb c ".") r)))).
Proof.
  unfold _read_number, read_while. cbn [rest pos].
  destruct (Py.span _ r); reflexivity.
Qed.

Lemma read_word_at (r : string) (p : nat) :
  _read_word (mkState r p)
  = (mkToken
       match lookup
               (Py.lower
                  (fst (Py.span (fun c => Py.isalnum c || Ascii.eqb c "_") r)))
               KEYWORDS with
       | Some k => k
       | None => IDENTIFIER
       end
       (fst (Py.span (fun c => Py.isalnum c || Ascii.eqb c "_") r)) p,
     mkState (snd (Py.span (fun c => Py.isalnum c || Ascii.eqb c "_") r))
       (p + String.length
              (fst (Py.span (fun c => Py.isalnum c || Ascii.eqb c "_") r)))).
Proof.
  unfold _read_word, read_while. cbn [rest pos].
  destruct (Py.span _ r) as [v rr]. cbn [fst snd].
  destruct (lookup (Py.lower v) KEYWORDS); reflexivity.
Qed.

Lemma read_string_at (q : ascii) (r : string) (p : nat) :
  _read_string (mkState (String q r) p)
  = (mkToken STRING (fst (Py.span (fun c => negb (Ascii.eqb c q)) r)) p,
     match snd (Py.span (fun c => negb (Ascii.eqb c q)) r) with
     | EmptyString =>
         mkState EmptyString
           (S p + String.length (fst (Py.span (fun c => negb (Ascii.eqb c q)) r)))
     | String _ r' =>
         mkState r'
           (S (S p + String.length
                       (fst (Py.span (fun c => negb (Ascii.eqb c q)) r))))
     end).
Proof.
  unfold _read_string, _current_char, _advance, read_while. cbn [rest pos].
  destruct (Py.span _ r) as [v rr]. cbn [fst snd rest pos].
  destruct rr; reflexivity.
Qed.

(** What whitespace is not. *)
Lemma blank_char (c : ascii) :
  Py.isspace c = true ->
  Py.isdigit c || Ascii.eqb c "." = false /\
  Py.isalnum c || Ascii.eqb c "_" = false /\
  Ascii.eqb "=" c = false /\
  Ascii.eqb c Py.double_quote = false /\ Ascii.eqb c "'" = false.
Proof.
  destruct c as [[] [] [] [] [] [] [] []]; intros H;
    solve [discriminate H | repeat split; reflexivity].
Qed.

Lemma blank_head (p : ascii -> bool) (w : string) :
  blank w ->
  (forall c, Py.isspace c = true -> p c = false) ->
  match w with
  | EmptyString => True
  | String c _ => p c = false
  end.
Proof.
  unfold blank. destruct w as [|c w]; [trivial|].
  cbn [list_ascii_of_string forallb]. intros H Hp.
  apply andb_true_iff in H. apply Hp, H.
Qed.

Lemma blank_all (p : ascii -> bool) (w : string) :
  blank w ->
  (forall c, Py.isspace c = true -> p c = true) ->
  forallb p (list_ascii_of_string w) = true.
Proof.
  unfold blank. induction w as [|c w IH]; [trivial|].
  cbn [list_ascii_of_string forallb]. intros H Hp.
  apply andb_true_iff in H; destruct H as [Hc Hw].
  rewrite (Hp c Hc), (IH Hw Hp). reflexivity.
Qed.

(** The operator reader looks one character ahead; whitespace there is as
    good as the end of the text. *)
Lemma read_operator_trailing (d : ascii) (b w : string) (q q' : nat) :
  blank w ->
  exists k v r n n',
    _read_operator (mkState (String d b ++ w) q)
    = (mkToken k v q, mkState (r ++ w) n) /\
    _read_operator (mkState (String d b) q') = (mkToken k v q', mkState r n') /\
    n + String.length (r ++ w) = q + String.length (String d b ++ w).
Proof.
  intros Hw. unfold _read_operator, _current_char, _peek, _advance.
  cbn [append rest pos].
  assert (Hpeek : char_is "="
                    match b ++ w with
                    | EmptyString => None
                    | String c _ => Some c
                    end
                  = char_is "="
                      match b with
                      | EmptyString => None
                      | String c _ => Some c
                      end).
  { destruct b as [|e b]; [|reflexivity]. cbn [append].
    destruct w as [|x w]; [reflexivity|]. cbn [char_is].
    apply (blank_head (Ascii.eqb "=") (String x w) Hw).
    intros c Hc. apply (blank_char c Hc). }
  rewrite Hpeek.
  destruct b as [|e b]; cbn [append char_is].
  - rewrite !andb_false_r.
    destruct (lookup (string_of_char (Some d)) operators);
      eexists _, _, EmptyString, _, _;
      (split; [reflexivity | split; [reflexivity | cbn [append String.length]; lia]]).
  - destruct (Ascii.eqb ">" d && Ascii.eqb "=" e);
      [eexists _, _, b, _, _;
       (split; [reflexivity | split; [reflexivity|]]);
       cbn [append String.length]; lia|].
    destruct (Ascii.eqb "<" d && Ascii.eqb "=" e);
      [eexists _, _, b, _, _;
       (split; [reflexivity | split; [reflexivity|]]);
       cbn [append String.length]; lia|].
    destruct (Ascii.eqb "!" d && Ascii.eqb "=" e);
      [eexists _, _, b, _, _;
       (split; [reflexivity | split; [reflexivity|]]);
       cbn [append String.length]; lia|].
    destruct (lookup (string_of_char (Some d)) operators);
      eexists _, _, (String e b), _, _;
      (split; [reflexivity | split; [reflexivity|]]);
      cbn [append String.length]; lia.
Qed.

(** *** The scanning loop *)

(** A round starts where the whitespace under the cursor ends. *)
Lemma loop_skip (fuel : nat) (s : string) (p : nat) :
  exists q,
    tokenize_loop (S fuel) (mkState s p)
    = tokenize_loop (S fuel) (mkState (Py.lstrip s) q) /\
    q + String.length (Py.lstrip s) = p + String.length s.
Proof.
  exists (p + String.length (fst (Py.span Py.isspace s))).
  split; [|pose proof (skip_length s); lia].
  cbn [tokenize_loop]. rewrite !skip_at.
  destruct s as [|c s]; [cbn; rewrite Nat.add_0_r; reflexivity|].
  unfold _current_char at 1. cbn [rest].
  destruct (Py.lstrip (String c s)) as [|d b] eqn:El.
  - reflexivity.
  - unfold _current_char at 2. cbn [rest].
    assert (Hd : Py.lstrip (String d b) = String d b)
      by (cbn [Py.lstrip]; rewrite (lstrip_head _ _ _ El); reflexivity).
    assert (Hs : fst (Py.span Py.isspace (String d b)) = EmptyString)
      by (cbn [Py.span]; rewrite (lstrip_head _ _ _ El); reflexivity).
    rewrite Hd, Hs. cbn [String.length]. rewrite Nat.add_0_r. reflexivity.
Qed.

(** The result of the loop does not depend on the bound on its rounds. *)
Lemma loop_fuel (fuel : nat) :
  forall fuel' st a b,
    tokenize_loop fuel st = Some a -> tokenize_loop fuel' st = Some b -> a = b.
Proof.
  induction fuel as [|fuel IH]; intros fuel' st a b Ha Hb; [discriminate|].
  destruct fuel' as [|fuel']; [discriminate|].
  cbn [tokenize_loop] in Ha, Hb.
  destruct (_current_char st); [|congruence].
  destruct (_current_char (_skip_whitespace st)); [|congruence].
  repeat match type of Ha with
         | (if ?c then _ else _) = _ => destruct c
         | (let (_, _) := ?x in _) = _ => destruct x
         end;
    try (destruct (tokenize_loop fuel s) eqn:Ea; [|discriminate];
         destruct (tokenize_loop fuel' s) eqn:Eb; [|discriminate];
         cbn [option_map] in Ha, Hb;
         injection Ha as <-; injection Hb as <-;
         f_equal; exact (IH _ _ _ _ Ea Eb));
    exact (IH _ _ _ _ Ha Hb).
Qed.

(** Whitespace appended to the text, and the offset the scan starts from,
    do not change the kinds and lexemes of the tokens, unless a string
    literal without closing quote takes the whitespace in. *)
Lemma loop_trailing (w : string) (N : nat) (Hw : blank w) :
  forall fuel r p p' tokens,
    p + String.length (r ++ w) = N ->
    tokenize_loop fuel (mkState (r ++ w) p) = Some tokens ->
    Forall (fun t => type t = STRING ->
                     position t + S (String.length (value t)) = N ->
                     Py.rstrip (value t) = value t) tokens ->
    exists tokens',
      tokenize_loop fuel (mkState r p') = Some tokens' /\
      kinds_and_lexemes tokens' = kinds_and_lexemes tokens.
Proof.
  induction fuel as [|fuel IH]; intros r p p' tokens HN H HF; [discriminate|].
  destruct (loop_skip fuel (r ++ w) p) as [q [E1 Hq]]. rewrite E1 in H.
  destruct (loop_skip fuel r p') as [q' [E2 _]]. rewrite E2.
  rewrite (lstrip_append_blank r w Hw) in H, Hq. rewrite HN in Hq.
  clear E1 E2 HN p p'.
  destruct (Py.lstrip r) as [|d b] eqn:El.
  { cbn in H. injection H as <-. eexists. split; reflexivity. }
  pose proof (lstrip_head _ _ _ El) as Hd. clear El r.
  cbn [tokenize_loop] in H |- *. rewrite !skip_at in H |- *.
  cbn [append] in H. unfold _current_char in H |- *. cbn [rest] in H |- *.
  assert (Hl1 : Py.lstrip (String d (b ++ w)) = String d (b ++ w))
    by (cbn [Py.lstrip]; rewrite Hd; reflexivity).
  assert (Hl2 : Py.lstrip (String d b) = String d b)
    by (cbn [Py.lstrip]; rewrite Hd; reflexivity).
  rewrite Hl1 in H. rewrite Hl2. cbn [Py.span] in H |- *.
  rewrite Hd in H |- *. cbn [fst String.length] in H |- *.
  rewrite Nat.add_0_r in H |- *.
  change (String d (b ++ w)) with (String d b ++ w) in H.
  destruct (Py.isdigit d) eqn:Hdigit.
  { (* a number *)
    rewrite read_number_at in H |- *.
    rewrite (span_append_stop _ (String d b) w) in H
      by (apply (blank_head _ w Hw); intros c Hc; apply (blank_char c Hc)).
    pose proof (LexerInvariants.span_append
                  (fun c => Py.isdigit c || Ascii.eqb c ".") (String d b)) as Hsp.
    destruct (Py.span _ (String d b)) as [v rr]. cbn [fst snd] in *.
    destruct (tokenize_loop fuel (mkState (rr ++ w) _)) as [ts|] eqn:E;
      [|discriminate].
    cbn [option_map] in H. injection H as <-.
    apply Forall_inv_tail in HF.
    destruct (IH rr (q + String.length v) (q' + String.length v) ts)
      as [ts' [E' HK]]; [|exact E | exact HF|].
    { apply (f_equal String.length) in Hsp.
      rewrite !OffsetFacts.length_append in *. lia. }
    rewrite E'. eexists. split; [reflexivity|].
    unfold kinds_and_lexemes in *. cbn [map type value]. rewrite HK. reflexivity. }
  destruct (Ascii.eqb d Py.double_quote || Ascii.eqb d "'") eqn:Hquote.
  { (* a string literal *)
    change (String d b ++ w) with (String d (b ++ w)) in H.
    rewrite read_string_at in H |- *.
    rewrite (span_append_pass _ b w) in H.
    2:{ apply (blank_all _ w Hw). intros c Hc.
        destruct (blank_char c Hc) as [_ [_ [_ [Hdq Hsq]]]].
        apply orb_true_iff in Hquote.
        destruct Hquote as [Hq1 | Hq1]; apply Ascii.eqb_eq in Hq1; subst d;
          [rewrite Hdq | rewrite Hsq]; reflexivity. }
    pose proof (LexerInvariants.span_append
                  (fun c => negb (Ascii.eqb c d)) b) as Hsp.
    destruct (Py.span _ b) as [v rr]. cbn [fst snd] in *.
    destruct rr as [|e rr].
    - (* no closing quote *)
      cbn [fst snd] in H.
      destruct (tokenize_loop fuel (mkState EmptyString _)) as [ts|] eqn:E;
        [|discriminate].
      cbn [option_map] in H. injection H as <-.
      pose proof (Forall_inv HF) as Hend. cbn [type position value] in Hend.
      assert (Hw0 : w = EmptyString).
      { apply (rstrip_fixed_end b w Hw). apply Hend; [reflexivity|].
        cbn [append String.length] in Hq. lia. }
      subst w. rewrite OffsetFacts.append_empty in Hsp. subst v.
      rewrite OffsetFacts.append_empty in *.
      apply Forall_inv_tail in HF.
      destruct (IH EmptyString (S q + String.length b)
                  (S q' + String.length b) ts)
        as [ts' [E' HK]]; [|exact E | exact HF|].
      { cbn [append String.length] in *. lia. }
      rewrite E'. eexists. split; [reflexivity|].
      unfold kinds_and_lexemes in *. cbn [map type value]. rewrite HK. reflexivity.
    - (* a closing quote *)
      cbn [fst snd append] in H.
      destruct (tokenize_loop fuel (mkState (rr ++ w) _)) as [ts|] eqn:E;
        [|discriminate].
      cbn [option_map] in H. injection H as <-.
      apply Forall_inv_tail in HF.
      destruct (IH rr (S (S q + String.length v))
                  (S (S q' + String.length v)) ts)
        as [ts' [E' HK]]; [|exact E | exact HF|].
      { apply (f_equal String.length) in Hsp.
        cbn [append String.length] in *.
        rewrite !OffsetFacts.length_append in *.
        cbn [String.length] in *. lia. }
      rewrite E'. eexists. split; [reflexivity|].
      unfold kinds_and_lexemes in *. cbn [map type value]. rewrite HK. reflexivity. }
  destruct (Py.isalpha d || Ascii.eqb d "_") eqn:Hword.
  { (* a word *)
    rewrite read_word_at in H |- *.
    rewrite (span_append_stop _ (String d b) w) in H
      by (apply (blank_head _ w Hw); intros c Hc; apply (blank_char c Hc)).
    pose proof (LexerInvariants.span_append
                  (fun c => Py.isalnum c || Ascii.eqb c "_") (String d b)) as Hsp.
    destruct (Py.span _ (String d b)) as [v rr]. cbn [fst snd] in *.
    destruct (tokenize_loop fuel (mkState (rr ++ w) _)) as [ts|] eqn:E;
      [|discriminate].
    cbn [option_map] in H. injection H as <-.
    apply Forall_inv_tail in HF.
    destruct (IH rr (q + String.length v) (q' + String.length v) ts)
      as [ts' [E' HK]]; [|exact E | exact HF|].
    { apply (f_equal String.length) in Hsp.
      rewrite !OffsetFacts.length_append in *. lia. }
    rewrite E'. eexists. split; [reflexivity|].
    unfold kinds_and_lexemes in *. cbn [map type value]. rewrite HK. reflexivity. }
  (* an operator *)
  destruct (read_operator_trailing d b w q q' Hw)
    as [k [v [rr [n [n' [E1 [E2 Hn]]]]]]].
  rewrite E1 in H. rewrite E2. cbn [type] in H |- *.
  destruct (TokenType.eqb k UNKNOWN).
  - destruct (IH rr n n' tokens) as [ts' [E' HK]];
      [lia | exact H | exact HF|].
    exists ts'. split; assumption.
  - destruct (tokenize_loop fuel (mkState (rr ++ w) n)) as [ts|] eqn:E;
      [|discriminate].
    cbn [option_map] in H. injection H as <-.
    apply Forall_inv_tail in HF.
    destruct (IH rr n n' ts) as [ts' [E' HK]]; [lia | exact E | exact HF|].
    rewrite E'. eexists. split; [reflexivity|].
    unfold kinds_and_lexemes in *. cbn [map type value]. rewrite HK. reflexivity.
Qed.

(** Scanning a text and scanning it stripped give the same kinds and
    lexemes, unless a string literal without closing quote ends in
    whitespace. *)
Lemma scan_strip (s : string) (tokens : list Token) :
  scan s = Some tokens ->
  Forall (fun t => unterminated s t -> Py.rstrip (value t) = value t) tokens ->
  option_map kinds_and_lexemes (scan (Py.strip s))
  = Some (kinds_and_lexemes tokens).
Proof.
  unfold scan, Py.strip. intros H HF.
  destruct (loop_skip (String.length s) s 0) as [q [E Hq]]. rewrite E in H.
  destruct (rstrip_split (Py.lstrip s)) as [w [Hs Hw]].
  rewrite Hs in H, Hq.
  destruct (loop_trailing w (String.length s) Hw _ _ q 0 tokens Hq H)
    as [ts [E' HK]].
  { apply (Forall_impl _ (P := fun t => unterminated s t ->
                                        Py.rstrip (value t) = value t));
      [|exact HF].
    intros t Ht Hk Hp. apply Ht. split; assumption. }
  destruct (LexerFacts.tokenize_loop_total
              (S (String.length (Py.rstrip (Py.lstrip s))))
              (mkState (Py.rstrip (Py.lstrip s)) 0)) as [ts0 [E0 _]];
    [cbn [rest]; lia|].
  rewrite E0. cbn [option_map].
  rewrite (loop_fuel _ _ _ _ _ E0 E'). rewrite HK. reflexivity.
Qed.

End StripFacts.

(* ================================================================== *)
(** ** Running the parser on known tokens *)
(* ================================================================== *)

Module RunFacts.

Import TokenType Parser ParserInvariants AstFacts.

(** Decides the closed tests [existsb (TokenType.eqb k) types] of [H]. *)
Ltac decide_kinds H :=
  repeat match type of H with
         | context [existsb (TokenType.eqb ?k) ?l] =>
             let b := eval vm_compute in (existsb (TokenType.eqb k) l) in
             change (existsb (TokenType.eqb k) l) with b in H
         end.

(** Runs [H : bind m k st = Ok r] forwards for as long as [m] is [ret],
    [_match] or [_advance] and the token under the cursor of [st] is known. *)
Ltac fwd1 H :=
  lazymatch type of H with
  | bind (ret _) _ _ = _ => unfold bind at 1, ret at 1 in H
  | bind (_match _) _ ?st = _ =>
      unfold bind at 1 in H;
      match goal with
      | Ht : _current_token st = Ok _ |- _ =>
          rewrite (ParserFacts.match_at _ _ _ Ht) in H
      end
  | bind _advance _ ?st = _ =>
      unfold bind at 1 in H;
      match goal with
      | Ht : _current_token st = Ok _ |- _ =>
          rewrite (ParserFacts.advance_at _ _ Ht) in H
      end
  end;
  cbn [tokens pos type value] in H; decide_kinds H; cbv beta iota in H.

Ltac fwd H := repeat fwd1 H.

(** Splits [H : bind m k st = Ok r] at its first call. *)
Ltac split_bind H Hm :=
  let a := fresh "a" in
  let s := fresh "st" in
  apply bind_inv in H; destruct H as (a & s & Hm & H); cbv beta iota in H.


(** What [parse] makes of a token list that starts with SELECT. *)
Lemma parse_with_select (fuel : nat) (v : string) (p : nat)
  (rest : list Token) (ast : ASTNode) :
  parse_with fuel (mkToken SELECT v p :: rest) = Ok ast ->
  exists n st',
    ast = Select n /\
    _parse_select fuel (mkState (mkToken SELECT v p :: rest) 0) = Ok (n, st').
Proof.
  unfold parse_with.
  destruct (parse_method fuel (mkState (mkToken SELECT v p :: rest) 0))
    as [[a st]| |] eqn:E; try discriminate.
  intros [= <-]. unfold parse_method in E.
  assert (Ht : _current_token (mkState (mkToken SELECT v p :: rest) 0)
               = Ok (mkToken SELECT v p,
                     mkState (mkToken SELECT v p :: rest) 0)) by reflexivity.
  unfold bind at 1 in E. rewrite Ht in E. cbv beta iota in E.
  fwd E. pinv E. eexists _, _. split; [reflexivity | eassumption].
Qed.

(** The rest of [_parse_select] after the projection keeps the columns, the
    table and the DISTINCT flag it was given. *)
Ltac select_tail H := cbv beta iota in H; pinv H.


(** SELECT, an identifier, and then WHERE, ORDER, GROUP or the end: the
    identifier is the table and the column list is the star. *)
Lemma select_shorthand_node (fuel : nat) (v0 v1 v2 : string) (p0 p1 p2 : nat)
  (k : TokenType.t) (rest : list Token) (n : SelectNode) (st' : state) :
  ends_shorthand k = true ->
  _parse_select fuel
    (mkState (mkToken SELECT v0 p0 :: mkToken IDENTIFIER v1 p1
              :: mkToken k v2 p2 :: rest) 0) = Ok (n, st') ->
  select_columns n = [Some "*"] /\ select_table n = Some v1 /\
  select_distinct n = false /\ select_aggregate n = None.
Proof.
  intros Hk H.
  set (toks := mkToken SELECT v0 p0 :: mkToken IDENTIFIER v1 p1
               :: mkToken k v2 p2 :: rest) in *.
  assert (Ht0 : _current_token (mkState toks 0)
                = Ok (mkToken SELECT v0 p0, mkState toks 0)) by reflexivity.
  assert (Ht1 : _current_token (mkState toks 1)
                = Ok (mkToken IDENTIFIER v1 p1, mkState toks 1)) by reflexivity.
  assert (Ht2 : _current_token (mkState toks 2)
                = Ok (mkToken k v2 p2, mkState toks 2)) by reflexivity.
  unfold _parse_select in H. fwd H.
  split_bind H Hp. fwd Hp. split_bind Hp Hf. fwd Hf. pinv Hf.
  destruct k; try discriminate Hk; fwd Hp; pinv Hp;
    select_tail H; repeat split; reflexivity.
Qed.

End RunFacts.

(* ================================================================== *)
(** ** The text of the generated SQL *)
(* ================================================================== *)

Module SqlFacts.

Lemma startswith_intro (p s t : string) :
  s = (p ++ t)%string -> Py.startswith p s = true.
Proof.
  intros ->. unfold Py.startswith.
  induction p as [|c p IH]; [destruct t; reflexivity|].
  cbn. rewrite IH. destruct (ascii_dec c c) as [_|n]; [reflexivity|].
  exfalso; apply n; reflexivity.
Qed.

Lemma ends_step (a s : string) :
  (exists body, s = (body ++ ";")%string) ->
  exists body, (a ++ s)%string = (body ++ ";")%string.
Proof.
  intros [body ->]. exists (a ++ body)%string. symmetry. apply OffsetFacts.append_assoc.
Qed.

Lemma ends_cons (c : ascii) (s : string) :
  (exists body, s = (body ++ ";")%string) ->
  exists body, String c s = (body ++ ";")%string.
Proof. intros [body ->]. exists (String c body). reflexivity. Qed.

Ltac starts :=
  eapply startswith_intro; rewrite ?OffsetFacts.append_assoc; reflexivity.

Ltac ends :=
  rewrite ?OffsetFacts.append_assoc;
  repeat first [ solve [exists EmptyString; reflexivity]
               | apply ends_step | apply ends_cons ].

(** The SQL text of a node starts with the keyword of its statement and
    ends with a semicolon. *)
Lemma ast_to_sql_shape (ast : ASTNode) (sql : string) :
  ast_to_sql ast = Ok sql ->
  Py.startswith (statement_keyword ast) sql = true /\
  exists body, sql = (body ++ ";")%string.
Proof.
  destruct ast as [n|n|n|n|n]; cbn [ast_to_sql statement_keyword].
  - destruct (all_strings (select_columns n)) as [cols|]; [|discriminate].
    intros [= <-].
    destruct (select_group_by n); destruct (select_order_by n);
      (split; [starts | ends]).
  - intros [= <-]. split; [starts | ends].
  - intros [= <-]. split; [starts | ends].
  - intros [= <-]. split; [starts | ends].
  - destruct (String.eqb (action n) "DROP COLUMN"); intros [= <-];
      (split; [starts | ends]).
Qed.

Lemma all_strings_none (l : list (option string)) :
  all_strings l = None <-> In None l.
Proof.
  induction l as [|[s|] l IH]; cbn [all_strings In].
  - split; [discriminate | intros []].
  - destruct (all_strings l); cbn [option_map].
    + split; [discriminate|]. intros [H|H]; [discriminate H|].
      apply IH in H. discriminate H.
    + split; [intros _; right; apply IH; reflexivity | reflexivity].
  - split; [intros _; left; reflexivity | reflexivity].
Qed.

End SqlFacts.
(* ================================================================== *)
(** ** Sanity checks of the model *)
(* ================================================================== *)

Example py_replace_leftmost : Py.replace "aa" "-" "aaa" = "-a".
Proof. reflexivity. Qed.

Example py_collapse_runs :
  Py.collapse_whitespace "a  b   c " = "a b c ".
Proof. reflexivity. Qed.

Example py_strip_both : Py.strip "  a b  " = "a b".
Proof. reflexivity. Qed.

Example py_int_literals :
  Py.int "007" = Some 7%Z /\ Py.int "1.2" = None /\ Py.int "" = None.
Proof. repeat split; reflexivity. Qed.

Example py_float_literals :
  Py.to_float "1.50" = Some (Py.FDec false 150 (-2)) /\
  Py.to_float "1.2.3" = None /\
  Py.to_float "john" = None /\
  Py.to_float "1." = Some (Py.FDec false 1 0).
Proof. repeat split; reflexivity. Qed.

Example py_str_numbers :
  option_map Py.str_float (Py.to_float "1.50") = Some "1.5" /\
  option_map Py.str_float (Py.to_float "25.") = Some "25.0" /\
  option_map Py.str_float (Py.to_float "0.05") = Some "0.05" /\
  Py.str_int 25 = "25" /\ Py.str_int 0 = "0" /\ Py.str_int (-3) = "-3".
Proof. repeat split; reflexivity. Qed.

Example scenario_select_all :
  nl_to_sql "select all from users" = Ok "SELECT * FROM users;".
Proof. vm_compute. reflexivity. Qed.

Example scenario_show_where :
  nl_to_sql "show all products where price > 100"
  = Ok "SELECT * FROM products WHERE price > 100;".
Proof. vm_compute. reflexivity. Qed.

Example scenario_count :
  nl_to_sql "count users" = Ok "SELECT COUNT(*) FROM users;".
Proof. vm_compute. reflexivity. Qed.

Example scenario_and :
  nl_to_sql "select users where age > 20 and salary < 5000"
  = Ok "SELECT * FROM users WHERE age > 20 AND salary < 5000;".
Proof. vm_compute. reflexivity. Qed.

Example and_or_tokens_lexed :
  Lexer.tokenize "a = 1 and b = 2 or c = 3" = Some and_or_tokens.
Proof. vm_compute. reflexivity. Qed.

(** Every phrase of the table but the two that start with [not equal]
    reaches its canonical operator token. *)
Lemma phrases_canonical_but_not_equal :
  map fst (filter (fun e => negb (phrase_is_canonical e)) Lexer.OPERATOR_PHRASES)
  = ["not equal to"; "not equal"].
Proof. vm_compute. reflexivity. Qed.

(* ================================================================== *)
(** ** The claims *)
(* ================================================================== *)

(** C1 (as amended).  The scenario [insert into users values 1, 'John', 25]
    goes through tokenize, parse and generate and yields
    [INSERT INTO users VALUES (1, 'john', 25);]: preprocessing lowers the
    case of the whole input, the contents of the quoted literal included. *)
Theorem insert_scenario_sql :
  nl_to_sql "insert into users values 1, 'John', 25"
  = Ok "INSERT INTO users VALUES (1, 'john', 25);".
Proof. vm_compute. reflexivity. Qed.

(** C1 as stated fails: the SQL produced is not the one that keeps [John]
    as written. *)
Lemma insert_scenario_not_preserved :
  nl_to_sql "insert into users values 1, 'John', 25"
  <> Ok "INSERT INTO users VALUES (1, 'John', 25);".
Proof. vm_compute. discriminate. Qed.

(** C2 at its failing input.  [age not equal to 5] does not tokenize with
    the NOT_EQUALS token of the phrase [not equal to]: the shorter phrase
    [equal to] stands earlier in the table and is replaced first, which
    leaves the identifier [not] followed by EQUALS. *)
Theorem not_equal_to_is_split :
  option_map kinds_and_lexemes (Lexer.tokenize "age not equal to 5")
  = Some [ (TokenType.IDENTIFIER, "age"); (TokenType.IDENTIFIER, "not");
           (TokenType.EQUALS, "="); (TokenType.NUMBER, "5");
           (TokenType.EOF, "") ].
Proof. vm_compute. reflexivity. Qed.

(** C3 at its failing input.  The token list of [find] parses, and the
    SelectNode returned has no table ([None]); it renders as
    [SELECT * FROM None;]. *)
Theorem find_alone_has_no_table :
  Lexer.tokenize "find"
  = Some [mkToken TokenType.FIND "find" 0; mkToken TokenType.EOF "" 4] /\
  (exists node,
      Parser.parse [mkToken TokenType.FIND "find" 0; mkToken TokenType.EOF "" 4]
      = Ok (Select node) /\
      select_table node = None) /\
  nl_to_sql "find" = Ok "SELECT * FROM None;".
Proof.
  split; [vm_compute; reflexivity|].
  split; [|vm_compute; reflexivity].
  eexists; split; [vm_compute; reflexivity | reflexivity].
Qed.

(** C4.  Left-to-right folding without precedence: when a simple condition
    [A] is followed by AND, a simple condition [B], OR, a simple condition
    [C] and then a token that is neither AND nor OR, [_parse_condition]
    returns the Or node whose left child is [And(A, B)] and whose right
    child is [C]. *)
Theorem parse_condition_folds_left
  (fuel : nat) (toks : list Token) (p0 p1 p2 p3 : nat)
  (A B C : ConditionNode) (k : TokenType.t) :
  Parser._parse_simple_condition (S (S (S fuel))) (Parser.mkState toks p0)
    = Ok (A, Parser.mkState toks p1) ->
  current_kind (Parser.mkState toks p1) = Some TokenType.AND ->
  Parser._parse_simple_condition (S (S (S fuel))) (Parser.mkState toks (S p1))
    = Ok (B, Parser.mkState toks p2) ->
  current_kind (Parser.mkState toks p2) = Some TokenType.OR ->
  Parser._parse_simple_condition (S (S (S fuel))) (Parser.mkState toks (S p2))
    = Ok (C, Parser.mkState toks p3) ->
  current_kind (Parser.mkState toks p3) = Some k ->
  k <> TokenType.AND -> k <> TokenType.OR ->
  Parser._parse_condition (S (S (S fuel))) (Parser.mkState toks p0)
  = Ok (OrCondition (AndCondition A B) C, Parser.mkState toks p3).
Proof.
  intros HA Hand HB Hor HC Hk Hk1 Hk2.
  unfold Parser._parse_condition, Parser.bind. rewrite HA.
  rewrite (ParserFacts.condition_loop_round _ _ A B _ _ TokenType.AND Hand
             (or_introl eq_refl) HB).
  rewrite (ParserFacts.condition_loop_round _ _ _ C _ _ TokenType.OR Hor
             (or_intror eq_refl) HC).
  exact (ParserFacts.condition_loop_exit _ _ _ _ k Hk Hk1 Hk2).
Qed.

Lemma parse_condition_folds_left_witness :
  Parser._parse_simple_condition 3 (Parser.mkState and_or_tokens 0)
    = Ok (SimpleCondition "a" "=" (VInt 1), Parser.mkState and_or_tokens 3) /\
  current_kind (Parser.mkState and_or_tokens 3) = Some TokenType.AND /\
  current_kind (Parser.mkState and_or_tokens 7) = Some TokenType.OR /\
  current_kind (Parser.mkState and_or_tokens 11) = Some TokenType.EOF /\
  Parser._parse_condition 3 (Parser.mkState and_or_tokens 0)
  = Ok (OrCondition
          (AndCondition (SimpleCondition "a" "=" (VInt 1))
                        (SimpleCondition "b" "=" (VInt 2)))
          (SimpleCondition "c" "=" (VInt 3)),
        Parser.mkState and_or_tokens 11).
Proof.
  split; [reflexivity|].
  split; [reflexivity|].
  split; [reflexivity|].
  split; [reflexivity|].
  apply (parse_condition_folds_left 0 and_or_tokens 0 3 7 11 _ _ _ TokenType.EOF);
    solve [reflexivity | discriminate].
Defined.

(** C5.  For every input, [tokenize] ends with a token list (the bound on
    the rounds of its loop is never reached, and the model has no exception
    to raise), and no token of the list is UNKNOWN. *)
Theorem tokenize_total_without_unknown (text : string) :
  exists tokens,
    Lexer.tokenize text = Some tokens /\
    Forall (fun t => type t <> TokenType.UNKNOWN) tokens.
Proof.
  unfold Lexer.tokenize, Lexer.scan.
  apply LexerFacts.tokenize_loop_total. simpl. lia.
Qed.

(** C6 at its failing input.  The tokenizer turns [1.2.3] into one NUMBER
    token; its lexeme has a decimal point, [_parse_value] hands it to
    [float], and the error raised is ValueError, not ParseError. *)
Theorem number_with_two_points_raises :
  Lexer.tokenize "1.2.3"
  = Some [mkToken TokenType.NUMBER "1.2.3" 0; mkToken TokenType.EOF "" 5] /\
  Parser._parse_value
    (Parser.mkState
       [mkToken TokenType.NUMBER "1.2.3" 0; mkToken TokenType.EOF "" 5] 0)
  = Raise ValueError /\
  nl_to_sql "select users where age > 1.2.3" = Raise ValueError.
Proof. repeat split; vm_compute; reflexivity. Qed.

(** C7.  An And node renders as [<left> AND <right>] without parentheses and
    an Or node as [(<left> OR <right>)], whatever the two subtrees are. *)
Theorem and_or_rendering (l r : ConditionNode) :
  condition_to_sql (AndCondition l r)
  = condition_to_sql l ++ " AND " ++ condition_to_sql r /\
  condition_to_sql (OrCondition l r)
  = "(" ++ condition_to_sql l ++ " OR " ++ condition_to_sql r ++ ")".
Proof. split; reflexivity. Qed.

(** C8.  A Like node renders as [<col> LIKE '<pattern>'], the pattern being
    wrapped in [%...%] exactly when it has no [%]; and
    [find users where name contains 'an'] yields
    [SELECT * FROM users WHERE name LIKE '%an%';]. *)
Theorem like_rendering :
  (forall column pattern : string,
      condition_to_sql (LikeCondition column pattern)
      = column ++ " LIKE '"
        ++ (if Py.contains "%" pattern then pattern
            else "%" ++ pattern ++ "%")
        ++ "'") /\
  nl_to_sql "find users where name contains 'an'"
  = Ok "SELECT * FROM users WHERE name LIKE '%an%';".
Proof.
  split; [|vm_compute; reflexivity].
  intros column pattern. cbn [condition_to_sql].
  destruct (Py.contains "%" pattern); reflexivity.
Qed.

(** C9 (as amended).  When the preprocessed text holds no operator phrase,
    and no string literal without closing quote ends in whitespace,
    tokenizing the preprocessed text yields the kinds and lexemes of the
    tokens of the raw input. *)
Theorem tokenize_preprocessed_same (text : string) (tokens : list Token) :
  has_operator_phrase (Lexer._preprocess text) = false ->
  Lexer.tokenize text = Some tokens ->
  Forall (fun t => unterminated (Lexer._preprocess text) t ->
                   Py.rstrip (value t) = value t) tokens ->
  option_map kinds_and_lexemes (Lexer.tokenize (Lexer._preprocess text))
  = option_map kinds_and_lexemes (Lexer.tokenize text).
Proof.
  intros Hphrase Htok Hquote. rewrite Htok.
  unfold Lexer.tokenize in *.
  rewrite (StripFacts.preprocess_again text Hphrase).
  exact (StripFacts.scan_strip _ tokens Htok Hquote).
Qed.

Lemma tokenize_preprocessed_same_witness :
  Lexer._preprocess "Name 'Bob'  Equals" = "name 'bob' = " /\
  option_map kinds_and_lexemes
    (Lexer.tokenize (Lexer._preprocess "Name 'Bob'  Equals"))
  = option_map kinds_and_lexemes (Lexer.tokenize "Name 'Bob'  Equals").
Proof.
  split; [reflexivity|].
  apply (tokenize_preprocessed_same "Name 'Bob'  Equals"
           [ mkToken TokenType.IDENTIFIER "name" 0;
             mkToken TokenType.STRING "bob" 5;
             mkToken TokenType.EQUALS "=" 11;
             mkToken TokenType.EOF "" 13 ]);
    [reflexivity | reflexivity |].
  repeat constructor; intros _; reflexivity.
Defined.

(** C9 as stated fails, and each of the two conditions is needed.  Two
    spaces inside [greater  than] hide the phrase from the first
    preprocessing and whitespace collapsing then exposes it to the second.
    In ['a equal] the preprocessed text holds no phrase, but the space that
    the replacement of [equal] leaves at its end belongs to the literal
    without closing quote on the first pass and is stripped before the
    second. *)
Lemma tokenize_preprocessed_differs :
  option_map kinds_and_lexemes
    (Lexer.tokenize (Lexer._preprocess "a greater  than 5"))
  <> option_map kinds_and_lexemes (Lexer.tokenize "a greater  than 5") /\
  has_operator_phrase (Lexer._preprocess "'a equal") = false /\
  option_map kinds_and_lexemes (Lexer.tokenize (Lexer._preprocess "'a equal"))
  <> option_map kinds_and_lexemes (Lexer.tokenize "'a equal").
Proof.
  split; [vm_compute; discriminate|].
  split; [vm_compute; reflexivity | vm_compute; discriminate].
Qed.

(** C10.  Phrase replacement looks at substrings, not at words: the single
    word [equality] contains the phrase [equal], and its tokens are the
    EQUALS token of that phrase followed by the identifier [ity], not one
    identifier. *)
Theorem phrase_inside_word_is_replaced :
  exists word phrase symbol residual : string,
    is_alpha_word word = true /\
    In (phrase, symbol) Lexer.OPERATOR_PHRASES /\
    word = phrase ++ residual /\
    symbol_kind symbol = Some TokenType.EQUALS /\
    Lexer.tokenize word
    = Some [ mkToken TokenType.EQUALS symbol 1;
             mkToken TokenType.IDENTIFIER residual 3;
             mkToken TokenType.EOF "" 6 ].
Proof.
  exists "equality", "equal", "=", "ity".
  repeat split; try reflexivity.
  unfold Lexer.OPERATOR_PHRASES; simpl; tauto.
Qed.

(* ================================================================== *)
(** ** Further properties of the lexer *)
(* ================================================================== *)

(** X1.  The token list of every text is a run of tokens other than EOF
    followed by exactly one EOF token, whose offset is the length of the
    preprocessed text; and the offsets grow strictly along the list. *)
Theorem tokens_end_in_eof (text : string) :
  exists tokens,
    Lexer.tokenize text = Some tokens /\
    ends_in_eof (String.length (Lexer._preprocess text)) tokens /\
    increasing 0 (map position tokens).
Proof.
  destruct (EdgeFacts.tokenize_some text) as [tokens H]. exists tokens.
  split; [exact H|]. split.
  - exact (OffsetFacts.loop_ends_in_eof _ _ _ H).
  - exact (OffsetFacts.loop_increasing _ _ _ H).
Qed.

(** X2.  The offset of every token is the place of its lexeme in the
    preprocessed text (not in the raw input): the lexeme stands there, a
    string literal starts there with its quote and runs to the next such
    quote or to the end of the text. *)
Theorem tokens_well_placed (text : string) :
  exists tokens,
    Lexer.tokenize text = Some tokens /\
    Forall (well_placed (Lexer._preprocess text)) tokens.
Proof.
  destruct (EdgeFacts.tokenize_some text) as [tokens H]. exists tokens.
  split; [exact H|].
  apply (OffsetFacts.loop_well_placed (Lexer._preprocess text) _ _ _) in H;
    [exact H|].
  exists EmptyString. split; reflexivity.
Qed.

(** X3.  The kind of every token is decided by its lexeme: a NUMBER is a
    digit followed by digits and points, an operator or punctuation token
    carries its symbol, and any other token but a string literal is a word
    that KEYWORDS lists under its kind, an IDENTIFIER being a word that
    KEYWORDS does not list. *)
Theorem lexemes_fit_kinds (text : string) :
  exists tokens,
    Lexer.tokenize text = Some tokens /\ Forall lexeme_fits tokens.
Proof.
  destruct (EdgeFacts.tokenize_some text) as [tokens H]. exists tokens.
  split; [exact H | exact (TokenFacts.loop_lexemes _ _ _ H)].
Qed.

(** X4.  The kinds SHOW, LIST, GET and UNIQUE of the enumeration are never
    emitted (their words come out as SELECT and DISTINCT), nor is UNKNOWN. *)
Theorem alias_kinds_never_emitted (text : string) :
  exists tokens,
    Lexer.tokenize text = Some tokens /\
    Forall (fun t => never_emitted (type t) = false) tokens.
Proof.
  destruct (EdgeFacts.tokenize_some text) as [tokens H]. exists tokens.
  split; [exact H | exact (TokenFacts.loop_kinds _ _ _ H)].
Qed.

(** X5.  Every lexeme is in lower case, whatever the case of the input: the
    contents of string literals are lowered with the rest. *)
Theorem lexemes_lower_case (text : string) :
  exists tokens,
    Lexer.tokenize text = Some tokens /\
    Forall (fun t => is_lowered (value t)) tokens.
Proof.
  destruct (EdgeFacts.tokenize_some text) as [tokens H]. exists tokens.
  split; [exact H|].
  exact (TokenFacts.loop_lowered _ (Lexer.mkState (Lexer._preprocess text) 0) _
           (PreprocessFacts.preprocess_lowered text) H).
Qed.

(** X6.  The preprocessed text is in lower case and its whitespace is
    collapsed: the space is its only whitespace character and no two spaces
    are adjacent. *)
Theorem preprocess_normal_form (text : string) :
  is_lowered (Lexer._preprocess text) /\
  collapsed (Lexer._preprocess text) = true.
Proof.
  split; [exact (PreprocessFacts.preprocess_lowered text)|].
  unfold Lexer._preprocess, Py.collapse_whitespace, collapsed.
  apply EdgeFacts.collapse_collapsed.
Qed.

(** X7.  The two entries of OPERATOR_PHRASES for [not equal to] and
    [not equal] never fire: [equal to] and [equal] are replaced before them,
    after which no text holds [equal] any more.  Preprocessing with the table
    gives what preprocessing without these two entries gives. *)
Theorem not_equal_entries_are_dead (text : string) :
  Lexer._preprocess text
  = Py.collapse_whitespace
      (Lexer.replace_phrases live_phrases (Py.strip (Py.lower text))).
Proof.
  unfold Lexer._preprocess. rewrite ReplaceFacts.replace_phrases_live.
  reflexivity.
Qed.

(** X8.  A text of whitespace only (the empty text included) has the single
    token EOF at offset 0, and the pipeline answers it with the ParseError
    of an unexpected EOF token. *)
Theorem blank_input (text : string) :
  forallb Py.isspace (list_ascii_of_string text) = true ->
  Lexer.tokenize text = Some [mkToken TokenType.EOF EmptyString 0] /\
  nl_to_sql text = Raise (ParseError "Unexpected token: EOF ''").
Proof.
  intros H. pose proof (EdgeFacts.preprocess_blank text H) as Hp.
  assert (Ht : Lexer.tokenize text = Some [mkToken TokenType.EOF EmptyString 0])
    by (unfold Lexer.tokenize; rewrite Hp; reflexivity).
  split; [exact Ht|].
  unfold nl_to_sql, process. rewrite Ht. reflexivity.
Qed.

Lemma blank_input_witness :
  Lexer.tokenize "   " = Some [mkToken TokenType.EOF EmptyString 0] /\
  nl_to_sql "   " = Raise (ParseError "Unexpected token: EOF ''").
Proof. apply (blank_input "   "). reflexivity. Defined.

(* ================================================================== *)
(** ** Further properties of the parser *)
(* ================================================================== *)

(** X9.  How [_parse_value] reads a NUMBER token whose lexeme is an ASCII
    digit followed by ASCII digits and points, the shape of the lexer's
    NUMBER tokens on ASCII text.  Without a point it returns an integer, or
    raises ValueError when the lexeme has more digits than [int] converts
    (4300); with one point it returns a float; with two points or more it
    raises ValueError.  Where it returns, the cursor moves by one token. *)
Theorem number_token_value (toks : list Token) (p : nat) (s : string)
  (off : nat) :
  nth_error toks p = Some (mkToken TokenType.NUMBER s off) ->
  number_lexeme s = true ->
  match count_points s with
  | 0 =>
      if (Py.int_max_str_digits <? String.length s)%nat
      then Parser._parse_value (Parser.mkState toks p) = Raise ValueError
      else exists n,
          Parser._parse_value (Parser.mkState toks p)
          = Ok (VInt n, Parser.mkState toks (S p))
  | 1 => exists x,
      Parser._parse_value (Parser.mkState toks p)
      = Ok (VFloat x, Parser.mkState toks (S p))
  | _ => Parser._parse_value (Parser.mkState toks p) = Raise ValueError
  end.
Proof. exact (NumberFacts.parse_value_number toks p s off). Qed.

Lemma number_token_value_witness :
  exists n,
    Parser._parse_value
      (Parser.mkState
         [ mkToken TokenType.IDENTIFIER "x" 0; mkToken TokenType.EQUALS "=" 2;
           mkToken TokenType.NUMBER "314" 4; mkToken TokenType.EOF "" 7 ] 2)
    = Ok (VInt n,
          Parser.mkState
            [ mkToken TokenType.IDENTIFIER "x" 0; mkToken TokenType.EQUALS "=" 2;
              mkToken TokenType.NUMBER "314" 4; mkToken TokenType.EOF "" 7 ] 3).
Proof.
  apply (number_token_value _ 2 "314" 4); reflexivity.
Defined.

(** X10.  On a token list that is not empty and does not end in a comma,
    [parse] ends: it returns a node or raises ParseError or ValueError.  The
    bound on the rounds of its loops is not reached, and the end of the list
    is never overrun into an IndexError. *)
Theorem parse_closed_list (toks : list Token) :
  closed_list toks -> may_raise parse_errors (Parser.parse toks).
Proof. exact (OutcomeFacts.parse_closed toks). Qed.

Lemma parse_closed_list_witness :
  may_raise parse_errors
    (Parser.parse
       [ mkToken TokenType.SELECT "select" 0; mkToken TokenType.IDENTIFIER "a" 7;
         mkToken TokenType.COMMA "," 8; mkToken TokenType.EOF "" 9 ]).
Proof.
  apply parse_closed_list. split; [discriminate|].
  intros d; cbn [List.last type]; discriminate.
Defined.

(** X11.  For every text, parsing its tokens ends with a node, a ParseError
    or a ValueError. *)
Theorem parse_text_outcome (text : string) :
  may_raise parse_errors (parse_text text).
Proof.
  unfold parse_text.
  destruct (EdgeFacts.tokenize_some text) as [tokens H]. rewrite H.
  exact (OutcomeFacts.parse_closed tokens (OutcomeFacts.tokenize_closed _ _ H)).
Qed.

(** X13.  ValueError comes from the numbers only: on a token list that is
    not empty and does not end in a comma, whose NUMBER lexemes are an ASCII
    digit followed by ASCII digits and at most one point, with no more
    digits than [int] converts (4300) when there is no point, [parse]
    returns a node or raises ParseError. *)
Theorem plain_numbers_parse_error_only (toks : list Token) :
  closed_list toks ->
  plain_numbers toks ->
  may_raise only_parse_error (Parser.parse toks).
Proof. exact (OutcomeFacts.parse_plain toks). Qed.

Lemma plain_numbers_parse_error_only_witness :
  may_raise only_parse_error
    (Parser.parse
       [ mkToken TokenType.SELECT "select" 0;
         mkToken TokenType.IDENTIFIER "t" 7;
         mkToken TokenType.WHERE "where" 9;
         mkToken TokenType.IDENTIFIER "a" 15;
         mkToken TokenType.BETWEEN "between" 17;
         mkToken TokenType.NUMBER "15" 25;
         mkToken TokenType.AND "and" 28;
         mkToken TokenType.NUMBER "1.5" 32;
         mkToken TokenType.EOF "" 35 ]).
Proof.
  apply plain_numbers_parse_error_only.
  - split; [discriminate|]. intros d; cbn [List.last type]; discriminate.
  - unfold plain_numbers.
    repeat (apply Forall_cons;
            [ cbn [type value];
              first [ intros Hk; discriminate Hk
                    | intros _;
                      split; [reflexivity|];
                      split; [apply Nat.leb_le; reflexivity|];
                      first [ intros Hp; discriminate Hp
                            | intros _; apply Nat.leb_le; reflexivity ] ]
            | ]).
    apply Forall_nil.
Defined.

(** X14.  No method of the parser changes the token list or moves the
    cursor backwards: [parse] reads the tokens from left to right, without
    backtracking. *)
Theorem parse_is_steady (fuel : nat) (st st' : Parser.state) (ast : ASTNode) :
  Parser.parse_method fuel st = Ok (ast, st') ->
  Parser.tokens st' = Parser.tokens st /\ Parser.pos st <= Parser.pos st'.
Proof. exact (ParserInvariants.steady_parse_method fuel st ast st'). Qed.

Lemma parse_is_steady_witness :
  Parser.tokens
    (Parser.mkState [ mkToken TokenType.COUNT "count" 0;
                      mkToken TokenType.IDENTIFIER "users" 6;
                      mkToken TokenType.EOF "" 11 ] 2)
  = [ mkToken TokenType.COUNT "count" 0;
      mkToken TokenType.IDENTIFIER "users" 6;
      mkToken TokenType.EOF "" 11 ] /\
  0 <= 2.
Proof.
  eapply (parse_is_steady 3
            (Parser.mkState [ mkToken TokenType.COUNT "count" 0;
                              mkToken TokenType.IDENTIFIER "users" 6;
                              mkToken TokenType.EOF "" 11 ] 0)
            (Parser.mkState [ mkToken TokenType.COUNT "count" 0;
                              mkToken TokenType.IDENTIFIER "users" 6;
                              mkToken TokenType.EOF "" 11 ] 2)).
  vm_compute. reflexivity.
Defined.

(** X15.  A token list whose first token starts no statement is answered
    with the ParseError that names the kind and the lexeme of that token. *)
Theorem unexpected_first_token (fuel : nat) (t : Token) (rest : list Token) :
  starts_statement (type t) = false ->
  Parser.parse_with fuel (t :: rest)
  = Raise (ParseError ("Unexpected token: " ++ TokenType.name (type t)
                       ++ " '" ++ value t ++ "'")).
Proof.
  intros H. destruct t as [k v p]. cbn [type value] in *.
  destruct k; try discriminate H; reflexivity.
Qed.

Lemma unexpected_first_token_witness :
  Parser.parse_with 1 [mkToken TokenType.WHERE "where" 0;
                       mkToken TokenType.EOF "" 5]
  = Raise (ParseError "Unexpected token: WHERE 'where'").
Proof.
  apply (unexpected_first_token 1 (mkToken TokenType.WHERE "where" 0)).
  reflexivity.
Defined.

(** X16.  Every node [parse] returns is well shaped: the operators of its
    comparisons are the six SQL symbols, its IN lists and the value list of
    an INSERT are not empty, a SELECT has at least one column, an ORDER BY
    direction is ASC or DESC, an aggregate is a COUNT of all rows or a SUM of
    the column it names, and the action of an ALTER TABLE is
    DROP COLUMN. *)
Theorem parsed_statement_ok (fuel : nat) (toks : list Token) (ast : ASTNode) :
  Parser.parse_with fuel toks = Ok ast -> statement_ok ast.
Proof.
  unfold Parser.parse_with.
  destruct (Parser.parse_method fuel (Parser.mkState toks 0))
    as [[a st]| |] eqn:E; try discriminate.
  intros [= <-]. exact (proj1 (AstFacts.parse_method_ok _ _ _ _ E)).
Qed.

Lemma parsed_statement_ok_witness :
  statement_ok
    (Insert (mkInsertNode "users" [VInt 1; VStr "john"; VInt 25] None)).
Proof.
  apply (parsed_statement_ok 10
           [ mkToken TokenType.INSERT "insert" 0; mkToken TokenType.INTO "into" 7;
             mkToken TokenType.IDENTIFIER "users" 12;
             mkToken TokenType.VALUES "values" 18;
             mkToken TokenType.NUMBER "1" 25; mkToken TokenType.COMMA "," 26;
             mkToken TokenType.STRING "john" 28; mkToken TokenType.COMMA "," 34;
             mkToken TokenType.NUMBER "25" 36; mkToken TokenType.EOF "" 38 ]).
  reflexivity.
Defined.

(** X17.  The table a parsed node names is the lexeme of an IDENTIFIER token
    of the list; INSERT, UPDATE, DELETE and ALTER TABLE nodes always name
    one, a SELECT node may name none. *)
Theorem parsed_table_is_identifier (fuel : nat) (toks : list Token)
  (ast : ASTNode) (name : string) :
  Parser.parse_with fuel toks = Ok ast ->
  statement_table ast = Some name ->
  from_identifier toks name.
Proof.
  unfold Parser.parse_with.
  destruct (Parser.parse_method fuel (Parser.mkState toks 0))
    as [[a st]| |] eqn:E; try discriminate.
  intros [= <-]. exact (proj2 (AstFacts.parse_method_ok _ _ _ _ E) name).
Qed.

Lemma parsed_table_is_identifier_witness :
  from_identifier
    [ mkToken TokenType.DELETE "delete" 0; mkToken TokenType.FROM "from" 7;
      mkToken TokenType.IDENTIFIER "users" 12; mkToken TokenType.EOF "" 17 ]
    "users".
Proof.
  apply (parsed_table_is_identifier 4 _ (Delete (mkDeleteNode "users" None)));
    reflexivity.
Defined.

(** X18.  The table named by the node parsed from a text is a word of the
    text that is not a keyword: it starts with a letter or an underscore,
    goes on with letters, digits and underscores, and KEYWORDS does not list
    it. *)
Theorem table_name_is_plain_word (text : string) (ast : ASTNode) (name : string) :
  parse_text text = Ok ast ->
  statement_table ast = Some name ->
  word_lexeme name = true /\
  Lexer.lookup (Py.lower name) Lexer.KEYWORDS = None.
Proof.
  unfold parse_text, Parser.parse, Parser.parse_with.
  destruct (Lexer.tokenize text) as [toks|] eqn:Htok; [|discriminate].
  destruct (Parser.parse_method _ (Parser.mkState toks 0))
    as [[a st]| |] eqn:E; try discriminate.
  intros [= <-] Hname.
  destruct (proj2 (AstFacts.parse_method_ok _ _ _ _ E) name Hname)
    as [t [Hin [Hk <-]]].
  pose proof (TokenFacts.loop_lexemes _ _ _ Htok) as Hfit.
  rewrite Forall_forall in Hfit. specialize (Hfit t Hin).
  unfold lexeme_fits in Hfit. rewrite Hk in Hfit. exact Hfit.
Qed.

Lemma table_name_is_plain_word_witness :
  word_lexeme "users" = true /\
  Lexer.lookup (Py.lower "users") Lexer.KEYWORDS = None.
Proof.
  apply (table_name_is_plain_word "delete from users where id = 5"
           (Delete (mkDeleteNode "users"
                      (Some (mkWhereNode (SimpleCondition "id" "=" (VInt 5)))))));
    reflexivity.
Defined.

(** X19.  The shorthand [select T ...]: when SELECT is followed by an
    identifier and then by WHERE, ORDER, GROUP or the end of the input, the
    identifier is taken as the table, the column list is the star, and the
    node is neither DISTINCT nor an aggregate. *)
Theorem select_shorthand (fuel : nat) (sel tab nxt : Token)
  (rest : list Token) (ast : ASTNode) :
  type sel = TokenType.SELECT ->
  type tab = TokenType.IDENTIFIER ->
  ends_shorthand (type nxt) = true ->
  Parser.parse_with fuel (sel :: tab :: nxt :: rest) = Ok ast ->
  exists n,
    ast = Select n /\
    select_columns n = [Some "*"] /\ select_table n = Some (value tab) /\
    select_distinct n = false /\ select_aggregate n = None.
Proof.
  destruct sel as [k0 v0 p0], tab as [k1 v1 p1], nxt as [k2 v2 p2].
  cbn [type value]. intros -> -> Hk H.
  apply RunFacts.parse_with_select in H. destruct H as [n [st' [-> H]]].
  exists n. split; [reflexivity|].
  exact (RunFacts.select_shorthand_node _ _ _ _ _ _ _ _ _ _ _ Hk H).
Qed.

Lemma select_shorthand_witness :
  exists n,
    Select (mkSelectNode [Some "*"] (Some "users") None
              (Some (mkOrderByNode "age" "DESC")) None false None) = Select n /\
    select_columns n = [Some "*"] /\ select_table n = Some "users" /\
    select_distinct n = false /\ select_aggregate n = None.
Proof.
  apply (select_shorthand 5
           (mkToken TokenType.SELECT "show" 0)
           (mkToken TokenType.IDENTIFIER "users" 5)
           (mkToken TokenType.ORDER "order" 11)
           [ mkToken TokenType.BY "by" 17; mkToken TokenType.IDENTIFIER "age" 20;
             mkToken TokenType.DESC "desc" 24; mkToken TokenType.EOF "" 28 ]);
    reflexivity.
Defined.



(** X21.  Every SQL text the pipeline returns starts with the keyword of
    the statement that was parsed (SELECT, INSERT INTO, UPDATE, DELETE FROM
    or ALTER TABLE, followed by a space) and ends with a semicolon. *)
Theorem sql_text_shape (text sql : string) :
  nl_to_sql text = Ok sql ->
  exists ast,
    parse_text text = Ok ast /\
    Py.startswith (statement_keyword ast) sql = true /\
    exists body, sql = (body ++ ";")%string.
Proof.
  unfold nl_to_sql, process, parse_text.
  destruct (Lexer.tokenize text) as [tokens|]; [|discriminate].
  destruct (Parser.parse tokens) as [ast| |]; try discriminate.
  destruct (ast_to_sql ast) as [s| |] eqn:E; try discriminate.
  cbn [result_sql]. intros [= <-]. exists ast. split; [reflexivity|].
  exact (SqlFacts.ast_to_sql_shape ast s E).
Qed.

Lemma sql_text_shape_witness :
  exists ast,
    parse_text "remove from users where id = 5" = Ok ast /\
    Py.startswith (statement_keyword ast) "DELETE FROM users WHERE id = 5;"
    = true /\
    exists body, "DELETE FROM users WHERE id = 5;" = (body ++ ";")%string.
Proof.
  apply (sql_text_shape "remove from users where id = 5"). reflexivity.
Defined.

(** X22.  SQL generation raises TypeError on exactly the SELECT nodes that
    have [None] among their columns. *)
Theorem sql_type_error (ast : ASTNode) :
  ast_to_sql ast = Raise TypeError <->
  exists n, ast = Select n /\ In None (select_columns n).
Proof.
  split.
  - destruct ast as [n|n|n|n|n]; cbn [ast_to_sql]; try discriminate.
    + destruct (all_strings (select_columns n)) as [cols|] eqn:E;
        [discriminate|].
      intros _. exists n. split; [reflexivity|].
      apply SqlFacts.all_strings_none. exact E.
    + destruct (String.eqb (action n) "DROP COLUMN"); discriminate.
  - intros [n [-> Hin]]. cbn [ast_to_sql].
    apply SqlFacts.all_strings_none in Hin. rewrite Hin. reflexivity.
Qed.

(** X23.  [_parse_condition] folds a chain of any length to the left: after
    the first simple condition, each AND or OR takes the tree built so far
    as its left child and the next simple condition as its right child,
    and the loop stops at the first token that is neither AND nor OR.  AND
    does not bind tighter than OR. *)
Theorem condition_chain_folds_left
  (fuel : nat) (toks : list Token) (p0 p p' : nat) (first : ConditionNode)
  (chain : list (TokenType.t * ConditionNode)) (k : TokenType.t) :
  Parser._parse_simple_condition fuel (Parser.mkState toks p0)
    = Ok (first, Parser.mkState toks p) ->
  rounds toks fuel p chain p' ->
  current_kind (Parser.mkState toks p') = Some k ->
  k <> TokenType.AND -> k <> TokenType.OR ->
  List.length chain < fuel ->
  Parser._parse_condition fuel (Parser.mkState toks p0)
  = Ok (fold_left join_condition chain first, Parser.mkState toks p').
Proof.
  intros Hfirst Hrounds Hk Hand Hor Hfuel.
  unfold Parser._parse_condition, Parser.bind. rewrite Hfirst.
  assert (Hloop : forall left rounds_left,
             List.length chain < rounds_left ->
             Parser.condition_loop rounds_left fuel left (Parser.mkState toks p)
             = Ok (fold_left join_condition chain left, Parser.mkState toks p')).
  { clear Hfirst Hfuel first p0.
    induction Hrounds as [q | q q1 q2 kind c chain Hkind Hconn Hc Hrest IH];
      intros left rounds_left Hfuel;
      (destruct rounds_left as [|rounds_left]; [cbn in Hfuel; lia|]).
    - exact (ParserFacts.condition_loop_exit _ _ _ _ k Hk Hand Hor).
    - rewrite (ParserFacts.condition_loop_round _ _ left c _ _ kind
                 Hkind Hconn Hc).
      cbn [fold_left]. apply (IH Hk). cbn [List.length] in Hfuel. lia. }
  apply Hloop. exact Hfuel.
Qed.

Lemma condition_chain_folds_left_witness :
  Parser._parse_condition 3 (Parser.mkState and_or_tokens 0)
  = Ok (fold_left join_condition
          [ (TokenType.AND, SimpleCondition "b" "=" (VInt 2));
            (TokenType.OR, SimpleCondition "c" "=" (VInt 3)) ]
          (SimpleCondition "a" "=" (VInt 1)),
        Parser.mkState and_or_tokens 11).
Proof.
  apply (condition_chain_folds_left 3 and_or_tokens 0 3 11 _ _ TokenType.EOF).
  - reflexivity.
  - apply (rounds_more _ _ 3 7 11 TokenType.AND);
      [reflexivity | left; reflexivity | reflexivity|].
    apply (rounds_more _ _ 7 11 11 TokenType.OR);
      [reflexivity | right; reflexivity | reflexivity|].
    apply rounds_done.
  - reflexivity.
  - discriminate.
  - discriminate.
  - cbn [List.length]. lia.
Defined.

(** X25.  A DROP COLUMN without a column is not refused: for
    [delete column from T] the parser returns an ALTER TABLE node with an
    empty column list, whatever follows the table, and the SQL text has
    nothing between [DROP COLUMN] and the semicolon. *)
Theorem drop_column_without_columns (fuel : nat) (del col frm tab : Token)
  (rest : list Token) :
  type del = TokenType.DELETE ->
  type col = TokenType.COLUMN ->
  type frm = TokenType.FROM ->
  type tab = TokenType.IDENTIFIER ->
  Parser.parse_with fuel (del :: col :: frm :: tab :: rest)
  = Ok (AlterTable (mkAlterTableNode (value tab) "DROP COLUMN" [])) /\
  ast_to_sql (AlterTable (mkAlterTableNode (value tab) "DROP COLUMN" []))
  = Ok ("ALTER TABLE " ++ value tab ++ " DROP COLUMN ;")%string.
Proof.
  destruct del as [k0 v0 p0], col as [k1 v1 p1], frm as [k2 v2 p2],
           tab as [k3 v3 p3].
  cbn [type value]. intros -> -> -> ->. split; reflexivity.
Qed.

Lemma drop_column_without_columns_witness :
  Parser.parse_with 0
    [ mkToken TokenType.DELETE "remove" 0; mkToken TokenType.COLUMN "col" 7;
      mkToken TokenType.FROM "from" 11; mkToken TokenType.IDENTIFIER "users" 16;
      mkToken TokenType.EOF "" 21 ]
  = Ok (AlterTable (mkAlterTableNode "users" "DROP COLUMN" [])) /\
  ast_to_sql (AlterTable (mkAlterTableNode "users" "DROP COLUMN" []))
  = Ok "ALTER TABLE users DROP COLUMN ;".
Proof.
  apply (drop_column_without_columns 0
           (mkToken TokenType.DELETE "remove" 0)
           (mkToken TokenType.COLUMN "col" 7)
           (mkToken TokenType.FROM "from" 11)
           (mkToken TokenType.IDENTIFIER "users" 16));
    reflexivity.
Defined.

(* ================================================================== *)
(** ** The operator phrases of the earlier parser ([parser.py]) *)
(* ================================================================== *)

(** X24.  In [normalize_operators] the replacements of
    [greater than or equal to] and [less than or equal to] never fire: the
    [equal] phrases are replaced before them, so no text holds [equal] any
    more when they are tried.  The function gives what it gives without
    them, and [x greater than or equal to 5] comes out with [> or =]. *)
Theorem or_equal_replacements_are_dead (text : string) :
  Legacy.normalize_operators text = normalize_operators_live text.
Proof. exact (ReplaceFacts.normalize_operators_is_live text). Qed.
